(** * RuneLiteAI database extractor: a shallow embedding of
      [database_extractor.py] and the properties of its export routine.

    The script is sequential glue code over a PostgreSQL driver and the
    filesystem.  Its methods are embedded as computations in a small
    state-and-exception monad; the database server, the filesystem and the
    console are explicit components of the state.  Library calls are given
    the behaviour their documentation fixes ([csv.writer] in the [excel]
    dialect, [json.dump] with [default=str], [strftime], [isoformat]). *)

From Stdlib Require Import String Ascii List ZArith Lia Bool Arith DecimalString Sorted.

Import ListNotations.

Open Scope string_scope.

Open Scope Z_scope.

Set Warnings "-register-all".

(** ** Text helpers *)

Module PyText.

Definition LF : ascii := "010"%char.
Definition CR : ascii := "013"%char.
Definition DQUOTE : ascii := "034"%char.

Definition chr (c : ascii) : string := String c EmptyString.

(** The Python literals ["\n"] and ["\r\n"]. *)
Definition nl : string := chr LF.
Definition crlf : string := String CR (chr LF).

Definition digit_char (d : Z) : ascii := ascii_of_N (Z.to_N (48 + d)).

(** Zero-padded decimal fields, as [%m], [%d], [%H], [%M], [%S] (two
    digits), [%Y] (four digits) and the microsecond part of [isoformat]
    (six digits) render them. *)
Definition fmt2 (n : Z) : string :=
  String (digit_char (n / 10 mod 10)) (chr (digit_char (n mod 10))).

Definition fmt4 (n : Z) : string :=
  String (digit_char (n / 1000 mod 10))
    (String (digit_char (n / 100 mod 10)) (fmt2 n)).

Definition fmt6 (n : Z) : string :=
  String (digit_char (n / 100000 mod 10))
    (String (digit_char (n / 10000 mod 10)) (fmt4 n)).

(** [str(n)] for a Python [int]. *)
Definition str_Z (z : Z) : string := NilZero.string_of_int (Z.to_int z).
Definition str_nat (n : nat) : string := str_Z (Z.of_nat n).

(** [sep.join(items)]. *)
Definition join (sep : string) (items : list string) : string :=
  String.concat sep items.

(** [c * n] for a one-character string [c]. *)
Fixpoint repeat_char (c : ascii) (n : nat) : string :=
  match n with
  | O => EmptyString
  | S k => String c (repeat_char c k)
  end.

(** The format spec [{n:,}]: decimal digits in groups of three. *)
Fixpoint group3 (rev_digits : list ascii) : list ascii :=
  match rev_digits with
  | a :: b :: c :: ((_ :: _) as more) => a :: b :: c :: ","%char :: group3 more
  | short => short
  end.

Definition fmt_thousands (z : Z) : string :=
  let digits := list_ascii_of_string (str_Z (Z.abs z)) in
  let grouped := string_of_list_ascii (rev (group3 (rev digits))) in
  if z <? 0 then String "-"%char grouped else grouped.

Definition is_space (c : ascii) : bool :=
  let n := nat_of_ascii c in
  ((n =? 32) || ((9 <=? n) && (n <=? 13)) || ((28 <=? n) && (n <=? 31)))%nat.

Fixpoint lstrip (s : string) : string :=
  match s with
  | String c rest => if is_space c then lstrip rest else s
  | EmptyString => EmptyString
  end.

(** [rstrip] keeps a character when it is not white space or when
    something that is kept follows it. *)
Fixpoint rstrip (s : string) : string :=
  match s with
  | EmptyString => EmptyString
  | String c rest =>
      match rstrip rest with
      | EmptyString => if is_space c then EmptyString else chr c
      | kept => String c kept
      end
  end.

(** [s.strip()]. *)
Definition strip (s : string) : string := rstrip (lstrip s).

Fixpoint contains_char (p : ascii -> bool) (s : string) : bool :=
  match s with
  | EmptyString => false
  | String c rest => p c || contains_char p rest
  end.

End PyText.

Import PyText.

(** ** Python values

    The values a psycopg2 cursor hands back for a column, as far as the
    extractor can tell them apart: it asks a value for an [isoformat]
    attribute, renders it with [str], or passes it to the CSV and JSON
    encoders.  A string is a sequence of characters with code points below
    256.  Date and time values are naive (without a time zone); values of
    types that have to be registered with the driver are outside the
    model. *)

Record datetime := mk_datetime {
  year : Z; month : Z; day : Z;
  hour : Z; minute : Z; second : Z; microsecond : Z
}.

Inductive pyvalue :=
| VNone
| VBool (b : bool)
| VInt (z : Z)
| VFloat (repr : string)        (* a float, by the text [repr] gives *)
| VStr (s : string)
| VDate (y m d : Z)             (* datetime.date *)
| VDateTime (t : datetime)      (* naive datetime.datetime *)
| VTime (h mi s us : Z)         (* naive datetime.time *)
| VTimedelta (days seconds microseconds : Z)
                                (* datetime.timedelta ([interval]), normalised *)
| VDecimal (text : string)      (* decimal.Decimal, by the text [str] gives *)
| VMemoryview (text : string)   (* a memoryview ([bytea]), by the text [str]
                                   gives, which names its address *)
| VList (elems : list pyvalue)  (* a list (an array column, a JSON array) *)
| VDict (items : list (string * pyvalue)).
                                (* a dict with string keys (a JSON object),
                                   by its items in order *)

Definition date_text (y m d : Z) : string :=
  fmt4 y ++ "-" ++ fmt2 m ++ "-" ++ fmt2 d.

Definition time_text (t : datetime) : string :=
  fmt2 (hour t) ++ ":" ++ fmt2 (minute t) ++ ":" ++ fmt2 (second t)
  ++ (if microsecond t =? 0 then EmptyString else "." ++ fmt6 (microsecond t)).

(** [t.isoformat(sep)] of a naive [datetime]. *)
Definition datetime_text (sep : string) (t : datetime) : string :=
  date_text (year t) (month t) (day t) ++ sep ++ time_text t.

(** [t.isoformat()] of a naive [time]. *)
Definition clock_text (h mi s us : Z) : string :=
  fmt2 h ++ ":" ++ fmt2 mi ++ ":" ++ fmt2 s
  ++ (if us =? 0 then EmptyString else "." ++ fmt6 us).

(** [str(d)] of a [timedelta]: [[D day[s], ]H:MM:SS[.ffffff]]. *)
Definition timedelta_text (days seconds microseconds : Z) : string :=
  (if days =? 0 then EmptyString
   else str_Z days ++ " day" ++ (if Z.abs days =? 1 then EmptyString else "s") ++ ", ")
  ++ str_Z (seconds / 3600) ++ ":" ++ fmt2 (seconds / 60 mod 60) ++ ":"
  ++ fmt2 (seconds mod 60)
  ++ (if microseconds =? 0 then EmptyString else "." ++ fmt6 microseconds).

(** [t.strftime('%Y%m%d_%H%M%S')]. *)
Definition strftime_stamp (t : datetime) : string :=
  fmt4 (year t) ++ fmt2 (month t) ++ fmt2 (day t) ++ "_"
  ++ fmt2 (hour t) ++ fmt2 (minute t) ++ fmt2 (second t).

(** [hasattr(value, 'isoformat')]. *)
Definition has_isoformat (v : pyvalue) : bool :=
  match v with
  | VDate _ _ _ | VDateTime _ | VTime _ _ _ _ => true
  | _ => false
  end.

(** [value.isoformat()]; only called on values that have it. *)
Definition isoformat (v : pyvalue) : string :=
  match v with
  | VDate y m d => date_text y m d
  | VDateTime t => datetime_text "T" t
  | VTime h mi s us => clock_text h mi s us
  | _ => EmptyString
  end.

(** *** [repr]

    [str] of a list or a dict shows its elements by their [repr]. *)

Definition TAB : ascii := "009"%char.
Definition BACKSLASH : ascii := "\"%char.
Definition QUOTE : ascii := "'"%char.

Definition hex_digit (n : N) : ascii :=
  if (n <? 10)%N then ascii_of_N (48 + n) else ascii_of_N (87 + n).

(** [\xNN] *)
Definition hex_escape (c : ascii) : string :=
  let n := N_of_ascii c in
  String BACKSLASH (String "x"%char
    (String (hex_digit (n / 16)) (chr (hex_digit (n mod 16))))).

(** [str.isprintable] on one character. *)
Definition printable (c : ascii) : bool :=
  let n := N_of_ascii c in
  (((32 <=? n) && (n <? 127)) || ((161 <=? n) && negb (n =? 173)))%N.

(** One character of a string inside the quotes of its [repr]. *)
Definition repr_char (quote : ascii) (c : ascii) : string :=
  if Ascii.eqb c quote || Ascii.eqb c BACKSLASH then String BACKSLASH (chr c)
  else if Ascii.eqb c TAB then String BACKSLASH "t"
  else if Ascii.eqb c LF then String BACKSLASH "n"
  else if Ascii.eqb c CR then String BACKSLASH "r"
  else if printable c then chr c
  else hex_escape c.

(** [repr(s)] of a string: in single quotes, unless it has a single quote
    in it and no double quote. *)
Definition repr_str (s : string) : string :=
  let quote :=
    if contains_char (Ascii.eqb QUOTE) s && negb (contains_char (Ascii.eqb DQUOTE) s)
    then DQUOTE else QUOTE in
  String quote
    (String.concat EmptyString (map (repr_char quote) (list_ascii_of_string s))
     ++ chr quote).

(** The arguments [repr] shows after the hour and the minute: the second
    when it or the microsecond is not zero, the microsecond when it is not
    zero. *)
Definition repr_seconds (s us : Z) : string :=
  if negb (us =? 0) then ", " ++ str_Z s ++ ", " ++ str_Z us
  else if negb (s =? 0) then ", " ++ str_Z s
  else EmptyString.

Definition repr_timedelta (days seconds microseconds : Z) : string :=
  let args :=
    ((if days =? 0 then [] else [("days=" ++ str_Z days)%string])
     ++ (if seconds =? 0 then [] else [("seconds=" ++ str_Z seconds)%string])
     ++ (if microseconds =? 0 then []
         else [("microseconds=" ++ str_Z microseconds)%string]))%list
  in
  "datetime.timedelta("
  ++ join ", " (match args with [] => ["0"] | _ => args end) ++ ")".

(** [repr(value)]. *)
Fixpoint py_repr (v : pyvalue) : string :=
  match v with
  | VNone => "None"
  | VBool true => "True"
  | VBool false => "False"
  | VInt z => str_Z z
  | VFloat r => r
  | VStr s => repr_str s
  | VDate y m d =>
      "datetime.date(" ++ str_Z y ++ ", " ++ str_Z m ++ ", " ++ str_Z d ++ ")"
  | VDateTime t =>
      "datetime.datetime(" ++ str_Z (year t) ++ ", " ++ str_Z (month t) ++ ", "
      ++ str_Z (day t) ++ ", " ++ str_Z (hour t) ++ ", " ++ str_Z (minute t)
      ++ repr_seconds (second t) (microsecond t) ++ ")"
  | VTime h mi s us =>
      "datetime.time(" ++ str_Z h ++ ", " ++ str_Z mi ++ repr_seconds s us ++ ")"
  | VTimedelta days seconds microseconds => repr_timedelta days seconds microseconds
  | VDecimal text => "Decimal('" ++ text ++ "')"
  | VMemoryview text => text
  | VList elems => "[" ++ join ", " (map py_repr elems) ++ "]"
  | VDict items =>
      "{" ++ join ", " (map (fun kv => repr_str (fst kv) ++ ": " ++ py_repr (snd kv))
                          items) ++ "}"
  end.

(** [str(value)]. *)
Definition py_str (v : pyvalue) : string :=
  match v with
  | VStr s => s
  | VDate y m d => date_text y m d
  | VDateTime t => datetime_text " " t
  | VTime h mi s us => clock_text h mi s us
  | VTimedelta days seconds microseconds => timedelta_text days seconds microseconds
  | VDecimal text => text
  | other => py_repr other
  end.

(** ** Python dictionaries with string keys

    A [dict] keeps its keys in insertion order; assigning to a key that is
    present replaces the value in place. *)

Module PyDict.

Definition dict (A : Type) : Type := list (string * A).

Definition empty {A} : dict A := [].

Fixpoint get {A} (d : dict A) (k : string) : option A :=
  match d with
  | [] => None
  | (k', v) :: rest => if (k' =? k)%string then Some v else get rest k
  end.

(** [d[k] = v] *)
Fixpoint set {A} (d : dict A) (k : string) (v : A) : dict A :=
  match d with
  | [] => [(k, v)]
  | (k', v') :: rest =>
      if (k' =? k)%string then (k, v) :: rest else (k', v') :: set rest k v
  end.

Definition keys {A} (d : dict A) : list string := map fst d.
Definition values {A} (d : dict A) : list A := map snd d.
Definition items {A} (d : dict A) : list (string * A) := d.
Definition len {A} (d : dict A) : nat := length d.

End PyDict.

Import PyDict.

(** ** JSON documents

    A file written by [json.dump] is kept as the document it serialises;
    the [indent=2] layout of the text is not modelled. *)

Inductive json :=
| JNull
| JBool (b : bool)
| JInt (z : Z)
| JFloat (repr : string)
| JStr (s : string)
| JArr (elems : list json)
| JObj (members : list (string * json)).

(** A list of optional results, when none is missing. *)
Fixpoint all_some {A} (l : list (option A)) : option (list A) :=
  match l with
  | [] => Some []
  | Some a :: rest => option_map (cons a) (all_some rest)
  | None :: _ => None
  end.

(** What the JSON encoder writes for a value without calling [default]:
    [None] where the value, or a value inside it, has no encoding of its
    own. *)
Fixpoint json_native (v : pyvalue) : option json :=
  match v with
  | VNone => Some JNull
  | VBool b => Some (JBool b)
  | VInt z => Some (JInt z)
  | VFloat r => Some (JFloat r)
  | VStr s => Some (JStr s)
  | VList elems => option_map JArr (all_some (map json_native elems))
  | VDict items =>
      option_map JObj
        (all_some (map (fun kv => option_map (pair (fst kv)) (json_native (snd kv)))
                     items))
  | _ => None
  end.

(** The encoder with a [default] hook: a list is written as an array and a
    dict as an object, their elements by the same rule; a value the encoder
    cannot encode, wherever it sits, is replaced by [default(value)], here
    always a string. *)
Fixpoint json_value (default : pyvalue -> string) (v : pyvalue) : json :=
  match v with
  | VNone => JNull
  | VBool b => JBool b
  | VInt z => JInt z
  | VFloat r => JFloat r
  | VStr s => JStr s
  | VList elems => JArr (map (json_value default) elems)
  | VDict items =>
      JObj (map (fun kv => (fst kv, json_value default (snd kv))) items)
  | other => JStr (default other)
  end.

Definition json_object (default : pyvalue -> string) (d : dict pyvalue) : json :=
  JObj (map (fun kv => (fst kv, json_value default (snd kv))) d).

(** [json.dump(data, f, indent=2, default=str)] for a list of row
    dictionaries. *)
Definition json_dump_rows (data : list (dict pyvalue)) : json :=
  JArr (map (json_object py_str) data).

(** ** The CSV writer

    [csv.writer(f)] in the default [excel] dialect: comma delimiter,
    double-quote quoting with doubling, minimal quoting, and the line
    terminator [\r\n] (the file is opened with [newline=''], so the
    terminator reaches the file unchanged). *)

Module Csv.

(** [None] is written as the empty field, a string as itself, anything
    else through [str]. *)
Definition field_text (v : pyvalue) : string :=
  match v with
  | VNone => EmptyString
  | other => py_str other
  end.

Definition special (c : ascii) : bool :=
  Ascii.eqb c ","%char || Ascii.eqb c DQUOTE || Ascii.eqb c CR || Ascii.eqb c LF.

Fixpoint double_quotes (s : string) : string :=
  match s with
  | EmptyString => EmptyString
  | String c rest =>
      if Ascii.eqb c DQUOTE
      then String DQUOTE (String DQUOTE (double_quotes rest))
      else String c (double_quotes rest)
  end.

Definition quoted (s : string) : string :=
  String DQUOTE (double_quotes s ++ chr DQUOTE).

Definition field (s : string) : string :=
  if contains_char special s then quoted s else s.

(** The record without its terminator.  A record that would come out
    empty (a single empty field) is written as a quoted empty field. *)
Definition line (row : list pyvalue) : string :=
  match row with
  | [] => EmptyString
  | _ =>
      let joined := join "," (map (fun v => field (field_text v)) row) in
      match joined with
      | EmptyString => quoted EmptyString
      | _ => joined
      end
  end.

(** [writer.writerow(row)] *)
Definition writerow (row : list pyvalue) : string := line row ++ crlf.

(** [writer.writerows(rows)] *)
Definition writerows (rows : list (list pyvalue)) : string :=
  String.concat EmptyString (map writerow rows).

End Csv.

(** ** Exceptions *)

Inductive exn :=
| PyError (cls msg : string)     (* an instance of a subclass of [Exception] *)
| KeyboardInterrupt
| SystemExit (code : Z).

(** [isinstance(e, Exception)]: what [except Exception] catches. *)
Definition is_Exception (e : exn) : bool :=
  match e with
  | PyError _ _ => true
  | KeyboardInterrupt | SystemExit _ => false
  end.

(** [str(e)], as the f-strings of the warning and error lines render it. *)
Definition exn_text (e : exn) : string :=
  match e with
  | PyError _ msg => msg
  | KeyboardInterrupt => EmptyString
  | SystemExit code => str_Z code
  end.

Inductive outcome (A : Type) :=
| Ok (a : A)
| Raise (e : exn).

Arguments Ok {A} a.

Arguments Raise {A} e.

(** ** The database server, as the driver shows it *)

Record resultset := mk_resultset {
  description : list string;          (* [desc[0] for desc in cursor.description] *)
  fetched : list (list pyvalue)       (* [cursor.fetchall()] *)
}.

Record column_info := mk_column {
  c_table : string;
  c_name : string;
  c_type : string;
  c_nullable : string;
  c_position : Z
}.

(** What [cursor.execute] is called with. *)
Inductive statement :=
| Sql (text : string)
| SqlArgs (text : string) (args : list string).

(** The call at which the driver raises a failure of a statement:
    [cursor.execute], for an error the server reports or a lost
    connection, or the [fetchall] or [fetchone] that reads its answer, for
    a value the driver cannot convert. *)
Inductive stage :=
| AtExecute
| AtFetch.

Record server := mk_server {
  (** what [psycopg2.connect] raises, if it refuses the connection *)
  srv_refuses : option exn;
  (** an exception a statement ends with for reasons outside its meaning
      (lost connection, missing privilege, an interrupt while it runs, a
      value that cannot be converted), and the call that raises it *)
  srv_fault : statement -> option (stage * exn);
  (** [information_schema.tables]: (table_schema, table_name) *)
  srv_tables : list (string * string);
  (** [information_schema.columns] *)
  srv_columns : list column_info;
  (** what [FROM <text>] denotes, when the server accepts the text *)
  srv_relation : string -> option resultset;
  (** the answer to any other statement, when it has one *)
  srv_answer : string -> option resultset
}.

(** A psycopg2 connection without autocommit: a statement that fails leaves
    the transaction aborted, and every later statement is refused until a
    rollback, which the extractor never issues. *)
Inductive connection :=
| InTransaction
| FailedTransaction
| Closed.

(** ** The filesystem *)

Inductive content :=
| Text (s : string)
| Json (doc : json).

Record filesystem := mk_fs {
  dirs : list string;
  files : dict content
}.

Module Fs.

Definition is_slash (c : ascii) : bool := Ascii.eqb c "/"%char.

(** [os.path.dirname] of a relative path. *)
Fixpoint dirname (p : string) : string :=
  match p with
  | EmptyString => EmptyString
  | String c rest =>
      if contains_char is_slash rest then String c (dirname rest) else EmptyString
  end.

(** The path and its ancestors, outermost first. *)
Fixpoint chain (done : string) (p : string) : list string :=
  match p with
  | EmptyString => [done]
  | String c rest =>
      if is_slash c
      then done :: chain (done ++ chr c) rest
      else chain (done ++ chr c) rest
  end.

Definition mem (x : string) (l : list string) : bool :=
  existsb (String.eqb x) l.

Definition is_dir (fs : filesystem) (p : string) : bool :=
  (p =? EmptyString)%string || mem p (dirs fs).

Definition is_file (fs : filesystem) (p : string) : bool :=
  match get (files fs) p with Some _ => true | None => false end.

(** [os.makedirs(p, exist_ok=True)] *)
Definition makedirs (p : string) (fs : filesystem) : outcome filesystem :=
  if existsb (is_file fs) (chain EmptyString p)
  then Raise (PyError "FileExistsError" ("File exists: " ++ p))
  else Ok (mk_fs (dirs fs ++ filter (fun d => negb (is_dir fs d)) (chain EmptyString p))
                 (files fs)).

(** [open(p, 'w')]: the file is created or truncated. *)
Definition open_w (p : string) (fs : filesystem) : outcome filesystem :=
  if negb (is_dir fs (dirname p))
  then Raise (PyError "FileNotFoundError" ("No such file or directory: " ++ p))
  else if is_dir fs p
  then Raise (PyError "IsADirectoryError" ("Is a directory: " ++ p))
  else Ok (mk_fs (dirs fs) (set (files fs) p (Text EmptyString))).

(** [f.write(s)] on a file open for writing. *)
Definition append (p : string) (s : string) (fs : filesystem) : filesystem :=
  match get (files fs) p with
  | Some (Text old) => mk_fs (dirs fs) (set (files fs) p (Text (old ++ s)))
  | _ => mk_fs (dirs fs) (set (files fs) p (Text s))
  end.

(** [json.dump(doc, f)] into a file just opened for writing. *)
Definition dump (p : string) (doc : json) (fs : filesystem) : filesystem :=
  mk_fs (dirs fs) (set (files fs) p (Json doc)).

Definition read (fs : filesystem) (p : string) : option content :=
  get (files fs) p.

Definition empty : filesystem := mk_fs [] [].

End Fs.

(** ** The state of a run and its monad *)

Record state := mk_state {
  db : server;                     (* the server the run talks to *)
  conn : option connection;        (* [self.conn] *)
  output_dir : string;             (* [self.output_dir] *)
  fs : filesystem;
  console : list string;           (* the lines printed so far *)
  sent : list statement            (* the statements passed to [execute] so far *)
}.

Definition with_conn (c : option connection) (st : state) : state :=
  mk_state (db st) c (output_dir st) (fs st) (console st) (sent st).

Definition with_output_dir (d : string) (st : state) : state :=
  mk_state (db st) (conn st) d (fs st) (console st) (sent st).

Definition with_fs (f : filesystem) (st : state) : state :=
  mk_state (db st) (conn st) (output_dir st) f (console st) (sent st).

Definition with_console (c : list string) (st : state) : state :=
  mk_state (db st) (conn st) (output_dir st) (fs st) c (sent st).

Definition with_sent (l : list statement) (st : state) : state :=
  mk_state (db st) (conn st) (output_dir st) (fs st) (console st) l.

Definition M (A : Type) : Type := state -> outcome A * state.

Definition ret {A} (a : A) : M A := fun st => (Ok a, st).

Definition raise {A} (e : exn) : M A := fun st => (Raise e, st).

Definition bind {A B} (m : M A) (k : A -> M B) : M B :=
  fun st =>
    match m st with
    | (Ok a, st') => k a st'
    | (Raise e, st') => (Raise e, st')
    end.

(** [try: body except Exception as e: handler(e)] *)
Definition try_except {A} (body : M A) (handler : exn -> M A) : M A :=
  fun st =>
    match body st with
    | (Raise e, st') => if is_Exception e then handler e st' else (Raise e, st')
    | done => done
    end.

Definition lift {A} (o : outcome A) : M A := fun st => (o, st).

Declare Scope py_scope.

Delimit Scope py_scope with py.

Notation "x <- m ;; k" := (bind m (fun x => k))
  (at level 61, m at next level, right associativity) : py_scope.

Notation "m ;; k" := (bind m (fun _ => k))
  (at level 61, right associativity) : py_scope.

Open Scope py_scope.

(** [for x in xs: body(x)] *)
Fixpoint for_each {A} (xs : list A) (body : A -> M unit) : M unit :=
  match xs with
  | [] => ret tt
  | x :: rest => body x ;; for_each rest body
  end.

Definition print (line : string) : M unit :=
  fun st => (Ok tt, with_console (console st ++ [line]) st).

Definition get_output_dir : M string := fun st => (Ok (output_dir st), st).

(** Filesystem calls. *)
Definition makedirs (p : string) : M unit :=
  fun st =>
    match Fs.makedirs p (fs st) with
    | Ok fs' => (Ok tt, with_fs fs' st)
    | Raise e => (Raise e, st)
    end.

Definition open_w (p : string) : M unit :=
  fun st =>
    match Fs.open_w p (fs st) with
    | Ok fs' => (Ok tt, with_fs fs' st)
    | Raise e => (Raise e, st)
    end.

Definition f_write (p : string) (s : string) : M unit :=
  fun st => (Ok tt, with_fs (Fs.append p s (fs st)) st).

Definition json_dump (p : string) (doc : json) : M unit :=
  fun st => (Ok tt, with_fs (Fs.dump p doc (fs st)) st).

(** [self.conn.cursor()] *)
Definition cursor : M unit :=
  fun st =>
    match conn st with
    | None =>
        (Raise (PyError "AttributeError" "'NoneType' object has no attribute 'cursor'"), st)
    | Some Closed => (Raise (PyError "InterfaceError" "connection already closed"), st)
    | Some _ => (Ok tt, st)
    end.

(** The outcome of [cursor.execute(stmt)] on a connection in state [c];
    [answer] is the meaning of the statement.  With the driver's default
    cursor the whole answer has reached the client when [execute]
    returns. *)
Definition accept {A} (srv : server) (c : option connection) (stmt : statement)
    (answer : server -> outcome A) : outcome A :=
  match c with
  | Some InTransaction =>
      match srv_fault srv stmt with
      | Some (AtExecute, e) => Raise e
      | _ => answer srv
      end
  | Some FailedTransaction =>
      Raise (PyError "InFailedSqlTransaction"
               "current transaction is aborted, commands ignored until end of transaction block")
  | _ => Raise (PyError "InterfaceError" "cursor already closed")
  end.

(** The outcome of [cursor.fetchall()] or [cursor.fetchone()] after an
    [execute] that has succeeded; [a] is what the answer holds. *)
Definition fetch {A} (srv : server) (stmt : statement) (a : A) : outcome A :=
  match srv_fault srv stmt with
  | Some (AtFetch, e) => Raise e
  | _ => Ok a
  end.

(** The outcome of [cursor.execute(stmt)] followed at once by the fetch of
    its answer. *)
Definition respond {A} (srv : server) (c : option connection) (stmt : statement)
    (answer : server -> outcome A) : outcome A :=
  match accept srv c stmt answer with
  | Ok a => fetch srv stmt a
  | Raise e => Raise e
  end.

(** The connection after the outcome [r] of [cursor.execute]: a failure of
    class [Exception] leaves the transaction aborted.  A failure of the
    fetch happens in the client and leaves the transaction as it is. *)
Definition after {A} (c : option connection) (r : outcome A) : option connection :=
  match c, r with
  | Some InTransaction, Raise e => if is_Exception e then Some FailedTransaction else c
  | _, _ => c
  end.

(** [cursor.execute(stmt)] and the fetch that follows it at once; the
    statement is recorded as sent. *)
Definition execute {A} (stmt : statement) (answer : server -> outcome A) : M A :=
  fun st =>
    (respond (db st) (conn st) stmt answer,
     with_conn (after (conn st) (accept (db st) (conn st) stmt answer))
       (with_sent (sent st ++ [stmt]) st)).

(** [cursor.execute(stmt)] alone, where the fetch comes later. *)
Definition execute_only {A} (stmt : statement) (answer : server -> outcome A) : M A :=
  fun st =>
    let r := accept (db st) (conn st) stmt answer in
    (r, with_conn (after (conn st) r) (with_sent (sent st ++ [stmt]) st)).

(** [cursor.fetchall()] for the statement executed before; [rows] are the
    rows of its answer. *)
Definition fetchall {A} (stmt : statement) (rows : A) : M A :=
  fun st => (fetch (db st) stmt rows, st).

(** ** The statements the extractor sends, and what they mean *)

Definition star : string := chr "*"%char.

(** The statement of [get_all_tables]. *)
Definition sql_list_tables : string :=
  nl ++
  "            SELECT table_name " ++ nl ++
  "            FROM information_schema.tables " ++ nl ++
  "            WHERE table_schema = 'public' " ++ nl ++
  "            AND table_name NOT LIKE 'pg_%'" ++ nl ++
  "            ORDER BY table_name;" ++ nl ++
  "        ".

(** The statement of [get_table_info] for the column metadata; [%s] is the
    placeholder of its one argument. *)
Definition sql_columns : string :=
  nl ++
  "            SELECT column_name, data_type, is_nullable" ++ nl ++
  "            FROM information_schema.columns " ++ nl ++
  "            WHERE table_name = %s " ++ nl ++
  "            ORDER BY ordinal_position;" ++ nl ++
  "        ".

(** The sample query [sessions_overview]. *)
Definition sql_sessions_overview : string :=
  nl ++
  "                SELECT session_id, player_name, start_time, end_time," ++ nl ++
  "                       EXTRACT(EPOCH FROM (end_time - start_time))/60 as duration_minutes" ++ nl ++
  "                FROM sessions " ++ nl ++
  "                ORDER BY start_time DESC " ++ nl ++
  "                LIMIT 10;" ++ nl ++
  "            ".

(** The sample query [tick_performance]. *)
Definition sql_tick_performance : string :=
  nl ++
  "                SELECT session_id, " ++ nl ++
  "                       AVG(processing_time_ms) as avg_processing_ms," ++ nl ++
  "                       COUNT" ++ "(" ++ star ++ ")" ++ " as tick_count," ++ nl ++
  "                       MIN(processing_time_ms) as min_processing_ms," ++ nl ++
  "                       MAX(processing_time_ms) as max_processing_ms" ++ nl ++
  "                FROM game_ticks " ++ nl ++
  "                GROUP BY session_id " ++ nl ++
  "                ORDER BY avg_processing_ms DESC;" ++ nl ++
  "            ".

(** The sample query [player_locations]. *)
Definition sql_player_locations : string :=
  nl ++
  "                SELECT world_x, world_y, plane, COUNT" ++ "(" ++ star ++ ")" ++ " as frequency" ++ nl ++
  "                FROM player_location " ++ nl ++
  "                GROUP BY world_x, world_y, plane " ++ nl ++
  "                ORDER BY frequency DESC " ++ nl ++
  "                LIMIT 20;" ++ nl ++
  "            ".

(** The sample query [recent_activity]. *)
Definition sql_recent_activity : string :=
  nl ++
  "                SELECT gt.session_id, gt.tick_number, gt.timestamp, gt.processing_time_ms," ++ nl ++
  "                       pl.world_x, pl.world_y, pl.plane" ++ nl ++
  "                FROM game_ticks gt" ++ nl ++
  "                LEFT JOIN player_location pl ON gt.session_id = pl.session_id " ++ nl ++
  "                    AND gt.tick_number = pl.tick_number" ++ nl ++
  "                ORDER BY gt.timestamp DESC " ++ nl ++
  "                LIMIT 100;" ++ nl ++
  "            ".

Module SqlSem.

(** [subject LIKE pattern]: [%] stands for any run of characters, [_] for
    exactly one, a backslash takes the next pattern character literally. *)
Fixpoint like (pattern : string) : string -> bool :=
  match pattern with
  | EmptyString =>
      fun subject => match subject with EmptyString => true | _ => false end
  | String p rest =>
      if Ascii.eqb p "%"%char then
        fix any_run (subject : string) : bool :=
          like rest subject
          || match subject with
             | EmptyString => false
             | String _ tail => any_run tail
             end
      else if Ascii.eqb p "_"%char then
        fun subject =>
          match subject with
          | EmptyString => false
          | String _ tail => like rest tail
          end
      else if Ascii.eqb p "\"%char then
        match rest with
        | EmptyString => fun _ => false
        | String q rest' =>
            fun subject =>
              match subject with
              | EmptyString => false
              | String c tail => Ascii.eqb q c && like rest' tail
              end
        end
      else
        fun subject =>
          match subject with
          | EmptyString => false
          | String c tail => Ascii.eqb p c && like rest tail
          end
  end.

(** [ORDER BY]: a stable insertion sort for the order [le]. *)
Section Sort.
Context {A : Type} (le : A -> A -> bool).

Fixpoint insert (x : A) (sorted : list A) : list A :=
  match sorted with
  | [] => [x]
  | y :: rest => if le x y then x :: sorted else y :: insert x rest
  end.

Definition order_by (l : list A) : list A :=
  fold_right insert [] l.
End Sort.

(** The [WHERE] clause of [sql_list_tables] on one row of
    [information_schema.tables]. *)
Definition listed (row : string * string) : bool :=
  (fst row =? "public")%string && negb (like "pg_%" (snd row)).

(** [sql_list_tables]: the first column of each row of the answer. *)
Definition list_tables (srv : server) : outcome (list string) :=
  Ok (order_by String.leb (map snd (filter listed (srv_tables srv)))).

(** [sql_columns] for the argument [table_name]: the rows of the answer. *)
Definition list_columns (table_name : string) (srv : server)
  : outcome (list (string * string * string)) :=
  Ok (map (fun c => (c_name c, c_type c, c_nullable c))
        (order_by (fun a b => c_position a <=? c_position b)
           (filter (fun c => (c_table c =? table_name)%string) (srv_columns srv)))).

Definition undefined_table {A} (text : string) : outcome A :=
  Raise (PyError "UndefinedTable" ("relation " ++ text ++ " does not exist")).

(** [SELECT COUNT( * ) FROM <text>]: [fetchone()[0]]. *)
Definition count_rows (text : string) (srv : server) : outcome Z :=
  match srv_relation srv text with
  | Some rs => Ok (Z.of_nat (length (fetched rs)))
  | None => undefined_table text
  end.

(** [SELECT * FROM <text>] *)
Definition select_all (text : string) (srv : server) : outcome resultset :=
  match srv_relation srv text with
  | Some rs => Ok rs
  | None => undefined_table text
  end.

(** [SELECT * FROM <text> LIMIT <limit>]: the first [limit] rows of the
    unrestricted answer. *)
Definition select_limit (text : string) (limit : Z) (srv : server)
  : outcome resultset :=
  match srv_relation srv text with
  | Some rs =>
      if limit <? 0
      then Raise (PyError "InvalidRowCountInLimitClause" "LIMIT must not be negative")
      else Ok (mk_resultset (description rs) (firstn (Z.to_nat limit) (fetched rs)))
  | None => undefined_table text
  end.

(** Any other statement. *)
Definition other (text : string) (srv : server) : outcome resultset :=
  match srv_answer srv text with
  | Some rs => Ok rs
  | None => Raise (PyError "ProgrammingError" "the server rejected the statement")
  end.

End SqlSem.

(** ** [class DatabaseExtractor] *)

(** [self.conn_params['database']] *)
Definition database_name : string := "runelite_ai".

(** The state [__init__] leaves, for a given server and filesystem. *)
Definition init (srv : server) (disk : filesystem) : state :=
  mk_state srv None "database_export" disk [] [].

(** [connect] *)
Definition connect : M unit :=
  try_except
    ((fun st =>
        match srv_refuses (db st) with
        | None => (Ok tt, with_conn (Some InTransaction) st)
        | Some e => (Raise e, st)
        end) ;;
     print ("[OK] Connected to database: " ++ database_name))
    (fun e =>
       print ("[ERROR] Database connection failed: " ++ exn_text e) ;;
       raise e).

(** The five directories of an export rooted at [root]. *)
Definition directories (root : string) : list string :=
  [root; root ++ "/csv"; root ++ "/json"; root ++ "/summary"; root ++ "/raw_sql"].

(** The name [create_output_structure] gives the export directory of a run
    that reads the clock at [now]. *)
Definition export_root (now : datetime) : string :=
  let timestamp := strftime_stamp now in
  "database_export_" ++ timestamp.

(** [create_output_structure]; [now] is the reading of [datetime.now()]. *)
Definition create_output_structure (now : datetime) : M unit :=
  (fun st => (Ok tt, with_output_dir (export_root now) st)) ;;
  root <- get_output_dir ;;
  for_each (directories root) makedirs ;;
  print ("[INFO] Created export directory: " ++ root).

(** [get_all_tables] *)
Definition get_all_tables : M (list string) :=
  cursor ;;
  tables <- execute (Sql sql_list_tables) SqlSem.list_tables ;;
  print ("[INFO] Found " ++ str_nat (length tables) ++ " tables: " ++ join ", " tables) ;;
  ret tables.

(** A Table Descriptor: the dictionary [get_table_info] returns. *)
Record table_info := mk_info {
  columns : list (string * string * string);   (* name, declared type, nullable *)
  row_count : Z
}.

(** [get_table_info] *)
Definition get_table_info (table_name : string) : M table_info :=
  cursor ;;
  cols <- execute (SqlArgs sql_columns [table_name]) (SqlSem.list_columns table_name) ;;
  count <- execute (Sql ("SELECT COUNT(" ++ star ++ ") FROM " ++ table_name))
             (SqlSem.count_rows table_name) ;;
  ret (mk_info cols count).

Definition csv_path (root table_name : string) : string :=
  root ++ "/csv/" ++ table_name ++ ".csv".

Definition json_path (root table_name : string) : string :=
  root ++ "/json/" ++ table_name ++ ".json".

(** [export_table_to_csv]: the file is opened and the header written before
    the rows are fetched. *)
Definition export_table_to_csv (table_name : string) : M bool :=
  try_except
    (cursor ;;
     rs <- execute_only (Sql ("SELECT * FROM " ++ table_name))
             (SqlSem.select_all table_name) ;;
     let column_names := description rs in
     root <- get_output_dir ;;
     let csv_file := csv_path root table_name in
     open_w csv_file ;;
     f_write csv_file (Csv.writerow (map VStr column_names)) ;;
     rows <- fetchall (Sql ("SELECT * FROM " ++ table_name)) (fetched rs) ;;
     f_write csv_file (Csv.writerows rows) ;;
     print ("[CSV] Exported " ++ table_name ++ " to CSV") ;;
     ret true)
    (fun e =>
       print ("[WARN] Failed to export " ++ table_name ++ " to CSV: " ++ exn_text e) ;;
       ret false).

(** The inner loop of [export_table_to_json]:
    [for i, value in enumerate(row)], from index [i] on. *)
Fixpoint convert_cells (column_names : list string) (i : nat) (row : list pyvalue)
    (row_dict : dict pyvalue) : outcome (dict pyvalue) :=
  match row with
  | [] => Ok row_dict
  | value :: rest =>
      match nth_error column_names i with
      | None => Raise (PyError "IndexError" "list index out of range")
      | Some name =>
          convert_cells column_names (S i) rest
            (if has_isoformat value
             then set row_dict name (VStr (isoformat value))
             else set row_dict name value)
      end
  end.

Definition convert_row (column_names : list string) (row : list pyvalue)
  : outcome (dict pyvalue) :=
  convert_cells column_names 0 row empty.

(** The outer loop: [for row in rows: ... data.append(row_dict)]. *)
Fixpoint convert_rows (column_names : list string) (rows : list (list pyvalue))
  : outcome (list (dict pyvalue)) :=
  match rows with
  | [] => Ok []
  | row :: rest =>
      match convert_row column_names row with
      | Raise e => Raise e
      | Ok row_dict =>
          match convert_rows column_names rest with
          | Raise e => Raise e
          | Ok data => Ok (row_dict :: data)
          end
      end
  end.

Definition default_limit : Z := 1000.

(** [export_table_to_json] *)
Definition export_table_to_json (table_name : string) (limit : Z) : M bool :=
  try_except
    (cursor ;;
     rs <- execute (Sql ("SELECT * FROM " ++ table_name ++ " LIMIT " ++ str_Z limit))
             (SqlSem.select_limit table_name limit) ;;
     let column_names := description rs in
     data <- lift (convert_rows column_names (fetched rs)) ;;
     root <- get_output_dir ;;
     let json_file := json_path root table_name in
     open_w json_file ;;
     json_dump json_file (json_dump_rows data) ;;
     print ("[JSON] Exported " ++ table_name ++ " to JSON ("
            ++ str_nat (length data) ++ " records)") ;;
     ret true)
    (fun e =>
       print ("[WARN] Failed to export " ++ table_name ++ " to JSON: " ++ exn_text e) ;;
       ret false).

(** The Summary Document: the dictionary [summary] of
    [generate_summary_report]. *)
Record table_summary := mk_table_summary {
  ts_row_count : Z;
  ts_column_count : nat;
  ts_columns : list (string * string * string)
}.

Record summary := mk_summary {
  export_timestamp : string;
  database_info : string;
  total_tables : nat;
  tables : dict table_summary;
  total_rows : Z
}.

(** The loop [for table_name, info in tables_info.items()], carrying
    [summary['tables']] and [total_rows]. *)
Fixpoint summarise (items : list (string * table_info))
    (acc_tables : dict table_summary) (acc_rows : Z) : dict table_summary * Z :=
  match items with
  | [] => (acc_tables, acc_rows)
  | (table_name, info) :: rest =>
      summarise rest
        (set acc_tables table_name
           (mk_table_summary (row_count info) (length (columns info)) (columns info)))
        (acc_rows + row_count info)
  end.

Definition build_summary (now : datetime) (tables_info : dict table_info) : summary :=
  let (tbls, rows) := summarise (items tables_info) empty 0 in
  mk_summary (datetime_text "T" now) database_name (len tables_info) tbls rows.

Definition column_json (col : string * string * string) : json :=
  let '(name, type, nullable) := col in
  JObj [("name", JStr name); ("type", JStr type); ("nullable", JStr nullable)].

Definition table_summary_json (t : table_summary) : json :=
  JObj [("row_count", JInt (ts_row_count t));
        ("column_count", JInt (Z.of_nat (ts_column_count t)));
        ("columns", JArr (map column_json (ts_columns t)))].

(** The document [json.dump(summary, f, indent=2)] serialises; the keys are
    in the order the dictionary received them. *)
Definition summary_json (s : summary) : json :=
  JObj [("export_timestamp", JStr (export_timestamp s));
        ("database_info", JStr (database_info s));
        ("total_tables", JInt (Z.of_nat (total_tables s)));
        ("tables", JObj (map (fun kv => (fst kv, table_summary_json (snd kv))) (tables s)));
        ("total_rows", JInt (total_rows s))].

Definition table_block (file : string) (entry : string * table_summary) : M unit :=
  let (table_name, info) := entry in
  f_write file ("Table: " ++ table_name ++ nl) ;;
  f_write file ("  Rows: " ++ fmt_thousands (ts_row_count info) ++ nl) ;;
  f_write file ("  Columns: " ++ str_nat (ts_column_count info) ++ nl) ;;
  for_each (ts_columns info)
    (fun col => let '(name, type, _) := col in
                f_write file ("    - " ++ name ++ " (" ++ type ++ ")" ++ nl)) ;;
  f_write file nl.

(** [generate_summary_report]; [now] is the reading of [datetime.now()]. *)
Definition generate_summary_report (now : datetime) (tables_info : dict table_info)
  : M unit :=
  let s := build_summary now tables_info in
  root <- get_output_dir ;;
  let summary_file := root ++ "/summary/database_summary.json" in
  open_w summary_file ;;
  json_dump summary_file (summary_json s) ;;
  let readable_file := root ++ "/summary/database_summary.txt" in
  open_w readable_file ;;
  f_write readable_file ("RuneLiteAI Database Export Summary" ++ nl) ;;
  f_write readable_file (repeat_char "="%char 50 ++ nl ++ nl) ;;
  f_write readable_file ("Export Time: " ++ export_timestamp s ++ nl) ;;
  f_write readable_file ("Database: " ++ database_info s ++ nl) ;;
  f_write readable_file ("Total Tables: " ++ str_nat (total_tables s) ++ nl) ;;
  f_write readable_file ("Total Rows: " ++ fmt_thousands (total_rows s) ++ nl ++ nl) ;;
  for_each (items (tables s)) (table_block readable_file) ;;
  print "[SUMMARY] Generated summary reports".

(** The dictionary [queries] of [export_sample_queries], in its order. *)
Definition sample_queries : list (string * string) :=
  [("sessions_overview", sql_sessions_overview);
   ("tick_performance", sql_tick_performance);
   ("player_locations", sql_player_locations);
   ("recent_activity", sql_recent_activity)].

(** What is written for a query before it is executed. *)
Definition query_heading (query_name query_sql : string) : string :=
  "Query: " ++ query_name ++ nl
  ++ repeat_char "-"%char 30 ++ nl
  ++ "SQL: " ++ strip query_sql ++ nl ++ nl.

(** The body of the loop of [export_sample_queries] for one query. *)
Definition sample_query (file : string) (entry : string * string) : M unit :=
  let (query_name, query_sql) := entry in
  try_except
    (f_write file ("Query: " ++ query_name ++ nl) ;;
     f_write file (repeat_char "-"%char 30 ++ nl) ;;
     f_write file ("SQL: " ++ strip query_sql ++ nl ++ nl) ;;
     results <- execute (Sql query_sql) (SqlSem.other query_sql) ;;
     let column_names := description results in
     f_write file ("Results (" ++ str_nat (length (fetched results)) ++ " rows):" ++ nl) ;;
     f_write file (join " | " column_names ++ nl) ;;
     f_write file (repeat_char "-"%char 80 ++ nl) ;;
     for_each (fetched results)
       (fun row => f_write file (join " | " (map py_str row) ++ nl)) ;;
     f_write file (nl ++ repeat_char "="%char 80 ++ nl ++ nl))
    (fun e => f_write file ("Error executing query: " ++ exn_text e ++ nl ++ nl)).

Definition results_path (root : string) : string :=
  root ++ "/summary/sample_queries_results.txt".

(** [export_sample_queries] *)
Definition export_sample_queries : M unit :=
  root <- get_output_dir ;;
  let results_file := results_path root in
  open_w results_file ;;
  f_write results_file ("RuneLiteAI Database Sample Query Results" ++ nl) ;;
  f_write results_file (repeat_char "="%char 50 ++ nl ++ nl) ;;
  cursor ;;
  for_each sample_queries (sample_query results_file) ;;
  print "[QUERY] Generated sample query results".

(** [self.conn.close()] *)
Definition close : M unit :=
  fun st =>
    match conn st with
    | None =>
        (Raise (PyError "AttributeError" "'NoneType' object has no attribute 'close'"), st)
    | Some _ => (Ok tt, with_conn (Some Closed) st)
    end.

(** The first loop of [run_extraction]: [tables_info[table] = info]. *)
Fixpoint collect_info (table_names : list string) (tables_info : dict table_info)
  : M (dict table_info) :=
  match table_names with
  | [] => ret tables_info
  | table :: rest =>
      info <- get_table_info table ;;
      print ("[TABLE] " ++ table ++ ": " ++ fmt_thousands (row_count info) ++ " rows, "
             ++ str_nat (length (columns info)) ++ " columns") ;;
      collect_info rest (set tables_info table info)
  end.

(** The second loop of [run_extraction]: the export of each table. *)
Definition export_tables (table_names : list string) : M unit :=
  for_each table_names
    (fun table =>
       print (nl ++ "Processing table: " ++ table) ;;
       export_table_to_csv table ;;
       export_table_to_json table default_limit ;;
       ret tt).

(** [run_extraction]; [now_start] and [now_summary] are the two readings of
    [datetime.now()] the run takes.  The closing listing of the generated
    files, which only prints names and sizes, is not part of the model. *)
Definition run_extraction (now_start now_summary : datetime) : M unit :=
  print "Starting RuneLiteAI Database Extraction" ;;
  print (repeat_char "-"%char 50) ;;
  connect ;;
  create_output_structure now_start ;;
  table_names <- get_all_tables ;;
  tables_info <- collect_info table_names empty ;;
  print (nl ++ repeat_char "="%char 50) ;;
  print "Exporting Data..." ;;
  print (repeat_char "="%char 50) ;;
  export_tables table_names ;;
  generate_summary_report now_summary tables_info ;;
  export_sample_queries ;;
  close ;;
  print (nl ++ repeat_char "="%char 50) ;;
  print "[SUCCESS] Database extraction completed!" ;;
  root <- get_output_dir ;;
  print ("[INFO] Results saved to: " ++ root) ;;
  print (repeat_char "="%char 50).

Definition cancelled_message : string := nl ++ "[WARN] Extraction cancelled by user".

Definition failed_banner (e : exn) : string :=
  nl ++ "[ERROR] Extraction failed: " ++ exn_text e.

(** The script run as [__main__]: the exit status of the process and the
    final state.  An exception no handler takes ends the process with a
    status that is not zero ([SystemExit] with its own code). *)
Definition main (now_start now_summary : datetime) (srv : server) (disk : filesystem)
  : Z * state :=
  let extractor := init srv disk in
  match run_extraction now_start now_summary extractor with
  | (Ok _, st) => (0, st)
  | (Raise KeyboardInterrupt, st) => (0, snd (print cancelled_message st))
  | (Raise (PyError cls msg), st) => (0, snd (print (failed_banner (PyError cls msg)) st))
  | (Raise (SystemExit code), st) => (code, st)
  end.

(** * The vocabulary of the properties *)

(** ** The Summary Document *)

Definition sum_rows (infos : list table_info) : Z :=
  fold_right Z.add 0 (map row_count infos).

(** A member of a JSON object, by key. *)
Definition json_member (key : string) (doc : json) : option json :=
  match doc with
  | JObj members => get members key
  | _ => None
  end.

(** ** JSON export *)

(** The statement [export_table_to_json] sends. *)
Definition json_statement (table_name : string) (limit : Z) : statement :=
  Sql ("SELECT * FROM " ++ table_name ++ " LIMIT " ++ str_Z limit).

(** The first phase of [export_table_to_json]: the query and the conversion
    of its rows, as outcomes on the state the method starts from. *)
Definition json_query (table_name : string) (limit : Z) (st : state)
  : outcome resultset :=
  match fst (cursor st) with
  | Raise e => Raise e
  | Ok _ =>
      respond (db st) (conn st) (json_statement table_name limit)
        (SqlSem.select_limit table_name limit)
  end.

Definition json_rows (table_name : string) (limit : Z) (st : state)
  : outcome (list (dict pyvalue)) :=
  match json_query table_name limit st with
  | Raise e => Raise e
  | Ok rs => convert_rows (description rs) (fetched rs)
  end.

(** A list or a dict: what the JSON encoder writes as an array or an
    object. *)
Definition is_container (v : pyvalue) : bool :=
  match v with
  | VList _ | VDict _ => true
  | _ => false
  end.

(** C5, as stated, asks that a value which is not date/time-typed reach
    the document as it is, that is, as the JSON form the value has of its
    own. *)
Definition passes_unmodified (v : pyvalue) : Prop :=
  forall row_dict,
    convert_row ["value"] [v] = Ok row_dict ->
    exists own,
      json_native v = Some own
      /\ json_member "value" (json_object py_str row_dict) = Some own.

(** ** CSV export *)

Definition is_line_break (c : ascii) : bool := Ascii.eqb c CR || Ascii.eqb c LF.

(** The physical lines of a text: a line ends at [\n], at [\r\n] or at a
    lone [\r]; [line] is the part of the current line already read. *)
Fixpoint lines_from (line : string) (text : string) : list string :=
  match text with
  | EmptyString =>
      match line with
      | EmptyString => []
      | _ => [line]
      end
  | String c rest =>
      if Ascii.eqb c LF then line :: lines_from EmptyString rest
      else if Ascii.eqb c CR then
        match rest with
        | String c' rest' =>
            if Ascii.eqb c' LF
            then line :: lines_from EmptyString rest'
            else line :: lines_from EmptyString rest
        | EmptyString => [line]
        end
      else lines_from (line ++ chr c) rest
  end.

Definition splitlines (text : string) : list string := lines_from EmptyString text.

(** No field of the row has a carriage return or a line feed in it. *)
Definition single_line (row : list pyvalue) : Prop :=
  Forall (fun v => contains_char is_line_break (Csv.field_text v) = false) row.

Definition csv_statement (table_name : string) : statement :=
  Sql ("SELECT * FROM " ++ table_name).

(** The export query of [export_table_to_csv], as an outcome on the state
    the method starts from: [cursor()] and [cursor.execute]. *)
Definition csv_query (table_name : string) (st : state) : outcome resultset :=
  match fst (cursor st) with
  | Raise e => Raise e
  | Ok _ =>
      accept (db st) (conn st) (csv_statement table_name)
        (SqlSem.select_all table_name)
  end.

(** The [cursor.fetchall()] of [export_table_to_csv], called when the file
    is open and its header written. *)
Definition csv_fetch (table_name : string) (st : state) (rs : resultset)
  : outcome (list (list pyvalue)) :=
  fetch (db st) (csv_statement table_name) (fetched rs).

(** ** The export loop *)

(** The connection is open: [cursor()] succeeds. *)
Definition open_connection (st : state) : Prop :=
  conn st = Some InTransaction \/ conn st = Some FailedTransaction.

(** Every failure the server produces outside the meaning of a statement is
    of class [Exception]: no interrupt arrives while a statement runs. *)
Definition benign (srv : server) : Prop :=
  forall stmt at_call e, srv_fault srv stmt = Some (at_call, e) -> is_Exception e = true.

(** The statements of one CSV and one JSON export per table, in order. *)
Definition attempts (table_names : list string) : list statement :=
  flat_map (fun t => [csv_statement t; json_statement t default_limit]) table_names.

(** The one line an export prints about its table, success or failure. *)
Inductive csv_report (t : string) : string -> Prop :=
| csv_exported : csv_report t ("[CSV] Exported " ++ t ++ " to CSV")
| csv_failed (e : exn) :
    csv_report t ("[WARN] Failed to export " ++ t ++ " to CSV: " ++ exn_text e).

Inductive json_report (t : string) : string -> Prop :=
| json_exported (n : nat) :
    json_report t ("[JSON] Exported " ++ t ++ " to JSON (" ++ str_nat n ++ " records)")
| json_failed (e : exn) :
    json_report t ("[WARN] Failed to export " ++ t ++ " to JSON: " ++ exn_text e).

(** The console lines of the export loop: per table its heading, one CSV
    report and one JSON report. *)
Inductive export_log : list string -> list string -> Prop :=
| export_log_nil : export_log [] []
| export_log_cons (t : string) (ts : list string) (c j : string) (ls : list string) :
    csv_report t c -> json_report t j -> export_log ts ls ->
    export_log (t :: ts) ((nl ++ "Processing table: " ++ t) :: c :: j :: ls).

(** What one export leaves behind, whatever its result: it returns
    normally, has sent its one statement and printed its one report. *)
Record attempted (stmt : statement) (report : string -> Prop) (st st' : state) : Prop := {
  att_db : db st' = db st;
  att_open : open_connection st';
  att_dir : output_dir st' = output_dir st;
  att_sent : sent st' = (sent st ++ [stmt])%list;
  att_console : exists line, console st' = (console st ++ [line])%list /\ report line
}.

(** ** The sample queries *)

(** The outcomes of the queries, executed one after the other on a
    connection that starts in state [c]. *)
Fixpoint query_outcomes (srv : server) (c : option connection)
    (queries : list (string * string)) : list (outcome resultset) :=
  match queries with
  | [] => []
  | (_, query_sql) :: rest =>
      respond srv c (Sql query_sql) (SqlSem.other query_sql)
      :: query_outcomes srv
           (after c (accept srv c (Sql query_sql) (SqlSem.other query_sql))) rest
  end.

Definition results_text (rs : resultset) : string :=
  "Results (" ++ str_nat (length (fetched rs)) ++ " rows):" ++ nl
  ++ join " | " (description rs) ++ nl
  ++ repeat_char "-"%char 80 ++ nl
  ++ String.concat EmptyString
       (map (fun row => join " | " (map py_str row) ++ nl) (fetched rs))
  ++ nl ++ repeat_char "="%char 80 ++ nl ++ nl.

Definition error_text (e : exn) : string :=
  "Error executing query: " ++ exn_text e ++ nl ++ nl.

(** The part of the results file that belongs to one query: its heading,
    then its results or, in their place, its error. *)
Definition section_text (entry : string * string) (r : outcome resultset) : string :=
  query_heading (fst entry) (snd entry)
  ++ match r with
     | Ok rs => results_text rs
     | Raise e => error_text e
     end.

Fixpoint sections_text (queries : list (string * string))
    (outcomes : list (outcome resultset)) : string :=
  match queries, outcomes with
  | entry :: queries', r :: outcomes' =>
      section_text entry r ++ sections_text queries' outcomes'
  | _, _ => EmptyString
  end.

Definition results_preamble : string :=
  "RuneLiteAI Database Sample Query Results" ++ nl
  ++ repeat_char "="%char 50 ++ nl ++ nl.

(** ** The list of tables *)

(** The order of [ORDER BY table_name], as a relation. *)
Definition le_true (a b : string) : Prop := String.leb a b = true.

(** ** The export directory of a run *)

(** The fields of a [datetime] are in their ranges; the year has four
    digits. *)
Definition well_formed (t : datetime) : Prop :=
  1000 <= year t <= 9999 /\ 1 <= month t <= 12 /\ 1 <= day t <= 31
  /\ 0 <= hour t <= 23 /\ 0 <= minute t <= 59 /\ 0 <= second t <= 59
  /\ 0 <= microsecond t <= 999999.

(** Two readings of the clock within the same second. *)
Definition same_second (a b : datetime) : Prop :=
  year a = year b /\ month a = month b /\ day a = day b
  /\ hour a = hour b /\ minute a = minute b /\ second a = second b.

(** [p] lies below the directory [root]. *)
Definition under (root p : string) : bool := String.prefix (root ++ "/") p.

(** ** Where a run writes *)

(** [m] touches no file and keeps the export directory. *)
Definition quiet {A} (m : M A) : Prop :=
  forall st r st', m st = (r, st') ->
    output_dir st' = output_dir st /\ files (fs st') = files (fs st).

(** [m], run with the export directory [root], keeps it and leaves every
    file outside [root] as it was. *)
Definition confined (root : string) {A} (m : M A) : Prop :=
  forall st r st', output_dir st = root -> m st = (r, st') ->
    output_dir st' = root
    /\ forall p, under root p = false -> Fs.read (fs st') p = Fs.read (fs st) p.

(** ** The summary files *)

(** [m] changes no file but [p]. *)
Definition touches (p : string) {A} (m : M A) : Prop :=
  forall st r st', m st = (r, st') ->
    forall q, q <> p -> Fs.read (fs st') q = Fs.read (fs st) q.

Definition summary_json_path (root : string) : string :=
  root ++ "/summary/database_summary.json".

(** * Databases for the examples *)

Module Demo.

Definition t_start : datetime := mk_datetime 2025 8 7 14 3 9 123456.
Definition t_summary : datetime := mk_datetime 2025 8 7 14 3 10 0.

Definition sessions : resultset :=
  mk_resultset ["session_id"; "player_name"; "start_time"]
    [[VInt 1; VStr "Zezima"; VDateTime (mk_datetime 2025 8 1 9 0 0 0)];
     [VInt 2; VStr "Lynx Titan"; VDateTime (mk_datetime 2025 8 2 10 30 0 0)];
     [VInt 3; VStr "a,b"; VNone];
     [VInt 4; VStr "Woox"; VDateTime (mk_datetime 2025 8 4 21 15 59 250000)];
     [VInt 5; VStr "B0aty"; VDate 2025 8 5]].

Definition game_ticks : resultset :=
  mk_resultset ["session_id"; "tick_number"; "processing_time_ms"] [].

(** One row, whose text spans two lines. *)
Definition notes : resultset :=
  mk_resultset ["body"] [[VStr ("first" ++ nl ++ "second")]].

Definition relation (text : string) : option resultset :=
  if (text =? "sessions")%string then Some sessions
  else if (text =? "game_ticks")%string then Some game_ticks
  else if (text =? "notes")%string then Some notes
  else None.

Definition srv : server :=
  mk_server None (fun _ => None)
    [("public", "sessions"); ("public", "game_ticks"); ("pg_catalog", "pg_class")]
    [mk_column "sessions" "player_name" "text" "YES" 2;
     mk_column "sessions" "session_id" "integer" "NO" 1;
     mk_column "sessions" "start_time" "timestamp without time zone" "YES" 3]
    relation
    (fun q => if (q =? sql_sessions_overview)%string then Some sessions else None).

(** The extractor after [connect] and [create_output_structure]. *)
Definition ready : state :=
  snd ((connect ;; create_output_structure t_start) (init srv Fs.empty)).

End Demo.

(** A server that refuses the connection. *)
Definition refusing : server :=
  mk_server (Some (PyError "OperationalError" "connection refused"))
    (fun _ => None) [] [] (fun _ => None) (fun _ => None).

(** An interrupt while the tables are listed. *)
Definition interrupted : server :=
  mk_server None
    (fun stmt => match stmt with
                 | Sql _ => Some (AtExecute, KeyboardInterrupt)
                 | SqlArgs _ _ => None
                 end)
    [] [] (fun _ => None) (fun _ => None).

(** A database prepared by [pgbench]: its tables are user tables of the
    schema [public]. *)
Definition benchmarked : server :=
  mk_server None (fun _ => None)
    [("public", "sessions"); ("public", "pgbench_accounts");
     ("public", "game_ticks"); ("public", "pgbench_history")]
    [] (fun _ => Some (mk_resultset [] [])) (fun _ => None).

(** Two runs of the tool, one after the other. *)
Module TwoRuns.

(** The server of the second run: [sessions] has lost its rows. *)
Definition later_srv : server :=
  mk_server None (fun _ => None)
    [("public", "sessions")] []
    (fun text => if (text =? "sessions")%string
                 then Some (mk_resultset ["session_id"] [])
                 else None)
    (fun _ => None).

(** One second after [Demo.t_start]. *)
Definition next_second : datetime := mk_datetime 2025 8 7 14 3 10 5.

(** Within the second of [Demo.t_start], 400 ms later. *)
Definition same_second_later : datetime := mk_datetime 2025 8 7 14 3 9 523456.

Definition after_first : filesystem :=
  fs (snd (main Demo.t_start Demo.t_summary Demo.srv Fs.empty)).

End TwoRuns.

(** * Further vocabulary *)

(** ** Rows and their descriptions *)

(** Every row has at most as many values as the result has column names. *)
Definition rows_fit (column_names : list string) (rows : list (list pyvalue)) : Prop :=
  Forall (fun row => (length row <= length column_names)%nat) rows.

(** The rows of [information_schema.columns] for a table name. *)
Definition columns_of (srv : server) (table_name : string) : list column_info :=
  filter (fun c => (c_table c =? table_name)%string) (srv_columns srv).

(** The order of [ORDER BY ordinal_position], as a relation. *)
Definition by_position (a b : column_info) : Prop := c_position a <= c_position b.

(** ** The connection during a run *)

(** [m] does not close the connection. *)
Definition never_closes {A} (m : M A) : Prop :=
  forall st r st', conn st <> Some Closed -> m st = (r, st') -> conn st' <> Some Closed.

(** [m] ends normally exactly when it leaves the connection closed. *)
Definition closes_on_success (m : M unit) : Prop :=
  forall st r st', conn st <> Some Closed -> m st = (r, st') ->
    (r = Ok tt <-> conn st' = Some Closed).

(** ** Table descriptors and their summaries *)

(** The entry [generate_summary_report] makes for one Table Descriptor. *)
Definition summary_entry (info : table_info) : table_summary :=
  mk_table_summary (row_count info) (length (columns info)) (columns info).

(** ** The course of a run *)

(** The table names [get_all_tables] gets from a server that answers. *)
Definition listed_tables (srv : server) : list string :=
  SqlSem.order_by String.leb (map snd (filter SqlSem.listed (srv_tables srv))).

(** No statement fails for a reason outside its meaning. *)
Definition faultless (srv : server) : Prop :=
  forall stmt, srv_fault srv stmt = None.


(** What the steps of a run after [create_output_structure] keep: the
    server, the export directory, the directories on disk, the files that
    exist, and an open connection. *)
Definition settled (st st' : state) : Prop :=
  db st' = db st
  /\ output_dir st' = output_dir st
  /\ dirs (fs st') = dirs (fs st)
  /\ (forall p, Fs.is_file (fs st) p = true -> Fs.is_file (fs st') p = true)
  /\ (open_connection st -> open_connection st').

Definition steady {A} (m : M A) : Prop :=
  forall st r st', m st = (r, st') -> settled st st'.

(** [m] always ends normally. *)
Definition total {A} (m : M A) : Prop :=
  forall st, exists a st', m st = (Ok a, st').

(** A database with a table whose name needs quoting: the server lists
    [PlayerStats], and the text [PlayerStats] in a [FROM] clause denotes no
    relation. *)
Definition mixed_case : server :=
  mk_server None (fun _ => None)
    [("public", "sessions"); ("public", "PlayerStats")]
    []
    (fun text => if (text =? "sessions")%string then Some Demo.sessions else None)
    (fun _ => None).


(** ** An aborted transaction *)

(** What the driver raises for every statement sent in a transaction that a
    failed statement has aborted. *)
Definition aborted : exn :=
  PyError "InFailedSqlTransaction"
    "current transaction is aborted, commands ignored until end of transaction block".

(** The console lines of the export loop in an aborted transaction. *)
Definition aborted_reports (table_names : list string) : list string :=
  flat_map (fun t =>
              [nl ++ "Processing table: " ++ t;
               "[WARN] Failed to export " ++ t ++ " to CSV: " ++ exn_text aborted;
               "[WARN] Failed to export " ++ t ++ " to JSON: " ++ exn_text aborted])
    table_names.

(** ** What a run leaves on disk *)

(** [m] creates and removes no directory and removes no file. *)
Definition lasting {A} (m : M A) : Prop :=
  forall st r st', m st = (r, st') ->
    dirs (fs st') = dirs (fs st)
    /\ forall p, Fs.is_file (fs st) p = true -> Fs.is_file (fs st') p = true.

(** ** The readable summary *)

(** The line of [database_summary.txt] for one column of a table. *)
Definition column_line (col : string * string * string) : string :=
  let '(name, type, _) := col in "    - " ++ name ++ " (" ++ type ++ ")" ++ nl.

(** The part of [database_summary.txt] for one table. *)
Definition block_text (entry : string * table_summary) : string :=
  "Table: " ++ fst entry ++ nl
  ++ "  Rows: " ++ fmt_thousands (ts_row_count (snd entry)) ++ nl
  ++ "  Columns: " ++ str_nat (ts_column_count (snd entry)) ++ nl
  ++ String.concat EmptyString (map column_line (ts_columns (snd entry)))
  ++ nl.

Definition report_text (s : summary) : string :=
  "RuneLiteAI Database Export Summary" ++ nl
  ++ repeat_char "="%char 50 ++ nl ++ nl
  ++ "Export Time: " ++ export_timestamp s ++ nl
  ++ "Database: " ++ database_info s ++ nl
  ++ "Total Tables: " ++ str_nat (total_tables s) ++ nl
  ++ "Total Rows: " ++ fmt_thousands (total_rows s) ++ nl ++ nl
  ++ String.concat EmptyString (map block_text (items (tables s))).

(** ** The records of a JSON export *)

(** The member names of a JSON object, in the order they are written. *)
Definition member_names (doc : json) : list string :=
  match doc with
  | JObj members => map fst members
  | _ => []
  end.

(** A database whose table [sessions] holds a timestamp beyond the years a
    [datetime] can hold: the server answers the [SELECT]s of the two
    exports and the driver fails when their rows are fetched. *)
Definition out_of_range : server :=
  mk_server None
    (fun stmt =>
       match stmt with
       | Sql text =>
           if String.prefix "SELECT * FROM sessions" text
           then Some (AtFetch, PyError "ValueError" "year 10000 is out of range")
           else None
       | SqlArgs _ _ => None
       end)
    [("public", "sessions")]
    []
    Demo.relation
    (fun _ => None).

(** The extractor on that database after [connect] and
    [create_output_structure]. *)
Definition out_of_range_ready : state :=
  snd ((connect ;; create_output_structure Demo.t_start) (init out_of_range Fs.empty)).

(** * Properties *)

(** ** The library models on examples *)

Example fmt_thousands_1234567 : fmt_thousands 1234567 = "1,234,567".
Proof. reflexivity. Qed.

Example fmt_thousands_small : fmt_thousands 999 = "999" /\ fmt_thousands (-1000) = "-1,000".
Proof. split; reflexivity. Qed.

Example strip_sql : strip ("  " ++ nl ++ " SELECT 1; " ++ nl ++ "  ") = "SELECT 1;".
Proof. reflexivity. Qed.

Example csv_plain_row :
  Csv.writerow [VInt 7; VStr "Zezima"; VNone; VBool true] = "7,Zezima,,True" ++ crlf.
Proof. reflexivity. Qed.

Example csv_quoted_row :
  Csv.writerow [VStr "a,b"; VStr ("say " ++ chr DQUOTE ++ "hi" ++ chr DQUOTE)]
  = chr DQUOTE ++ "a,b" ++ chr DQUOTE ++ ","
    ++ chr DQUOTE ++ "say " ++ chr DQUOTE ++ chr DQUOTE ++ "hi"
    ++ chr DQUOTE ++ chr DQUOTE ++ chr DQUOTE ++ crlf.
Proof. reflexivity. Qed.

Example csv_single_empty_field :
  Csv.writerow [VNone] = chr DQUOTE ++ chr DQUOTE ++ crlf.
Proof. reflexivity. Qed.

Example chain_of_export_dir :
  Fs.chain EmptyString "out/csv" = ["out"; "out/csv"].
Proof. reflexivity. Qed.

Example dirname_of_csv_file : Fs.dirname "out/csv/sessions.csv" = "out/csv".
Proof. reflexivity. Qed.

Example like_pg_prefix :
  SqlSem.like "pg_%" "pg_class" = true /\ SqlSem.like "pg_%" "sessions" = false
  /\ SqlSem.like "pg_%" "pg" = false.
Proof. repeat split. Qed.

Example order_by_names :
  SqlSem.order_by String.leb ["sessions"; "game_ticks"; "player_location"]
  = ["game_ticks"; "player_location"; "sessions"].
Proof. reflexivity. Qed.

(** ** Dictionaries *)

Lemma get_set_same {A} (d : dict A) (k : string) (v : A) :
  get (set d k v) k = Some v.
Proof.
  induction d as [|[k' v'] d IH]; simpl.
  - now rewrite String.eqb_refl.
  - destruct (String.eqb_spec k' k) as [->|Hne]; simpl.
    + now rewrite String.eqb_refl.
    + destruct (String.eqb_spec k' k); [contradiction|exact IH].
Qed.

Lemma get_set_other {A} (d : dict A) (k k' : string) (v : A) :
  k <> k' -> get (set d k v) k' = get d k'.
Proof.
  intros Hne. induction d as [|[k0 v0] d IH]; simpl.
  - destruct (String.eqb_spec k k'); [contradiction|reflexivity].
  - destruct (String.eqb_spec k0 k) as [->|Hk]; simpl.
    + destruct (String.eqb_spec k k'); [contradiction|reflexivity].
    + destruct (String.eqb_spec k0 k'); [reflexivity|exact IH].
Qed.

(** ** The Summary Document *)

Lemma summarise_rows (entries : list (string * table_info)) :
  forall acc_tables acc_rows,
    snd (summarise entries acc_tables acc_rows)
    = acc_rows + sum_rows (map snd entries).
Proof.
  induction entries as [|[name info] rest IH]; intros acc_tables acc_rows; simpl.
  - unfold sum_rows. simpl. lia.
  - rewrite IH. unfold sum_rows. simpl. lia.
Qed.

(** ** Running the monad *)

Ltac break_match :=
  match goal with
  | H : context [match ?x with _ => _ end] |- _ => destruct x eqn:?
  | |- context [match ?x with _ => _ end] => destruct x eqn:?
  end.

Ltac run_simpl :=
  cbn [fst snd db conn output_dir fs console sent is_Exception
       with_conn with_output_dir with_fs with_console with_sent] in *.

Ltac invert_run :=
  repeat match goal with
         | H : (_, _) = (_, _) |- _ => inversion H; subst; clear H
         | H : Ok _ = Ok _ |- _ => inversion H; subst; clear H
         | H : Raise _ = Raise _ |- _ => inversion H; subst; clear H
         | H : Some _ = Some _ |- _ => inversion H; subst; clear H
         | H : Ok _ = Raise _ |- _ => discriminate H
         | H : Raise _ = Ok _ |- _ => discriminate H
         end.

Lemma convert_rows_length (column_names : list string) (rows : list (list pyvalue)) :
  forall data, convert_rows column_names rows = Ok data -> length data = length rows.
Proof.
  induction rows as [|row rest IH]; simpl; intros data H.
  - now inversion H.
  - destruct (convert_row column_names row); [|discriminate].
    destruct (convert_rows column_names rest) as [data'|]; [|discriminate].
    inversion H; subst. simpl. f_equal. now apply IH.
Qed.

Lemma convert_cells_raises (column_names : list string) (row : list pyvalue) :
  forall i row_dict e,
    convert_cells column_names i row row_dict = Raise e -> is_Exception e = true.
Proof.
  induction row as [|v row IH]; simpl; intros i d e H; [discriminate|].
  destruct (nth_error column_names i); [|now inversion H].
  eapply IH; eauto.
Qed.

Lemma convert_rows_raises (column_names : list string) (rows : list (list pyvalue)) :
  forall e, convert_rows column_names rows = Raise e -> is_Exception e = true.
Proof.
  induction rows as [|row rows IH]; simpl; intros e H; [discriminate|].
  destruct (convert_row column_names row) eqn:Hr.
  - destruct (convert_rows column_names rows); [discriminate|].
    inversion H; subst. now apply IH.
  - inversion H; subst. unfold convert_row in Hr.
    eapply convert_cells_raises; eauto.
Qed.


(** [export_table_to_json] by cases on its first phase and on [open]. *)
Lemma export_table_to_json_run (table_name : string) (limit : Z) (st : state) :
  forall r st', export_table_to_json table_name limit st = (r, st') ->
    match json_rows table_name limit st with
    | Raise e => fs st' = fs st /\ r = (if is_Exception e then Ok false else Raise e)
    | Ok data =>
        match Fs.open_w (json_path (output_dir st) table_name) (fs st) with
        | Raise _ => fs st' = fs st /\ r = Ok false
        | Ok opened =>
            r = Ok true
            /\ fs st' = Fs.dump (json_path (output_dir st) table_name)
                          (json_dump_rows data) opened
        end
    end.
Proof.
  intros r st'. unfold json_rows, json_query, json_statement.
  unfold export_table_to_json, try_except, bind, cursor, execute, lift,
    get_output_dir, open_w, json_dump, print, ret.
  run_simpl.
  destruct (conn st) as [[| |]|] eqn:Hconn; run_simpl; rewrite ?Hconn;
    try (intros H; invert_run; run_simpl; now split).
  - destruct (respond (db st) (Some InTransaction) _ _) as [rs|e] eqn:Hq.
    + destruct (convert_rows (description rs) (fetched rs)) as [data|e] eqn:Hc.
      * destruct (Fs.open_w _ (fs st)) as [opened|e] eqn:Ho.
        -- intros H; invert_run; run_simpl. now split.
        -- assert (is_Exception e = true) as ->.
           { unfold Fs.open_w in Ho. repeat break_match; invert_run; reflexivity. }
           intros H; invert_run; run_simpl. now split.
      * rewrite (convert_rows_raises _ _ _ Hc).
        intros H; invert_run; run_simpl. now split.
    + destruct (is_Exception e) eqn:He; intros H; invert_run; run_simpl; now split.
  - cbn [respond accept]. run_simpl. intros H; invert_run; run_simpl; now split.
Qed.

(** ** JSON export *)




(** C10. [export_table_to_json] opens the table's JSON file only after the
    query has succeeded and every row has been converted: when the [SELECT]
    or the conversion of a row fails, the filesystem is left as it was, so no
    JSON file is created for the table, and the export does not report
    success. *)
Theorem json_export_failure_writes_nothing (table_name : string) (limit : Z)
    (st : state) (e : exn) :
  json_rows table_name limit st = Raise e ->
  forall r st', export_table_to_json table_name limit st = (r, st') ->
    fs st' = fs st
    /\ Fs.read (fs st') (json_path (output_dir st) table_name)
       = Fs.read (fs st) (json_path (output_dir st) table_name)
    /\ r <> Ok true.
Proof.
  intros Hrows r st' Hrun.
  apply export_table_to_json_run in Hrun. rewrite Hrows in Hrun.
  destruct Hrun as [Hfs ->]. rewrite Hfs. repeat split.
  destruct (is_Exception e); discriminate.
Qed.

(** A table the server does not know: the [SELECT] fails and no file
    appears. *)
Lemma json_export_failure_writes_nothing_witness :
  json_rows "player_location" 1000 Demo.ready
  = Raise (PyError "UndefinedTable" "relation player_location does not exist")
  /\ exists st',
       export_table_to_json "player_location" 1000 Demo.ready = (Ok false, st')
       /\ fs st' = fs Demo.ready
       /\ Fs.read (fs st') "database_export_20250807_140309/json/player_location.json"
          = None.
Proof.
  split; [reflexivity|].
  destruct (export_table_to_json "player_location" 1000 Demo.ready) as [r st'] eqn:Hrun.
  destruct (json_export_failure_writes_nothing "player_location" 1000 Demo.ready _
              eq_refl r st' Hrun) as (Hfs & _ & _).
  exists st'. split; [|split].
  - vm_compute in Hrun. inversion Hrun. reflexivity.
  - exact Hfs.
  - rewrite Hfs. reflexivity.
Defined.

(** A row longer than the description of its result: the conversion fails
    with an [IndexError], after the query and before any file is opened. *)
Example json_export_conversion_failure :
  let srv := mk_server None (fun _ => None) [] []
               (fun _ => Some (mk_resultset ["a"] [[VInt 1; VInt 2]])) (fun _ => None) in
  let st := with_conn (Some InTransaction) (init srv Fs.empty) in
  json_rows "t" 1000 st = Raise (PyError "IndexError" "list index out of range")
  /\ fs (snd (export_table_to_json "t" 1000 st)) = fs st.
Proof. split; reflexivity. Qed.

(** ** Strings *)

Lemma append_nil_r (s : string) : s ++ EmptyString = s.
Proof. induction s; simpl; congruence. Qed.

Lemma append_assoc (a b c : string) : (a ++ b) ++ c = a ++ (b ++ c).
Proof. induction a; simpl; congruence. Qed.

Lemma append_inv_head (a b c : string) : a ++ b = a ++ c -> b = c.
Proof. induction a; simpl; intros H; [exact H|]. inversion H. auto. Qed.

Lemma length_append (a b : string) :
  String.length (a ++ b) = (String.length a + String.length b)%nat.
Proof. induction a; simpl; congruence. Qed.

Lemma contains_char_append (p : ascii -> bool) (a b : string) :
  contains_char p (a ++ b) = contains_char p a || contains_char p b.
Proof.
  induction a as [|c a IH]; simpl; [reflexivity|].
  rewrite IH. now rewrite orb_assoc.
Qed.

Lemma concat_empty_cons (x : string) (xs : list string) :
  String.concat EmptyString (x :: xs) = x ++ String.concat EmptyString xs.
Proof.
  destruct xs; simpl; [now rewrite append_nil_r|reflexivity].
Qed.

(** ** The cells of a JSON record *)

Lemma convert_cells_keeps (column_names : list string) (row : list pyvalue) :
  forall i row_dict result name,
    convert_cells column_names i row row_dict = Ok result ->
    (forall j, (i <= j)%nat -> nth_error column_names j <> Some name) ->
    get result name = get row_dict name.
Proof.
  induction row as [|v row IH]; simpl; intros i d result name Hrun Hfresh.
  - now inversion Hrun.
  - destruct (nth_error column_names i) as [col|] eqn:Hcol; [|discriminate].
    rewrite (IH _ _ _ name Hrun).
    + assert (col <> name) as Hne.
      { intros ->. now apply (Hfresh i). }
      destruct (has_isoformat v); now apply get_set_other.
    + intros j Hj. apply Hfresh. lia.
Qed.

Lemma convert_cells_get (column_names : list string) (row : list pyvalue) :
  NoDup column_names ->
  forall i row_dict result,
    convert_cells column_names i row row_dict = Ok result ->
    forall j name v,
      nth_error column_names (i + j) = Some name ->
      nth_error row j = Some v ->
      get result name
      = Some (if has_isoformat v then VStr (isoformat v) else v).
Proof.
  intros Hnodup.
  induction row as [|v0 row IH]; simpl; intros i d result Hrun j name v Hname Hv.
  - destruct j; discriminate.
  - destruct (nth_error column_names i) as [col|] eqn:Hcol; [|discriminate].
    destruct j as [|j]; simpl in Hv.
    + inversion Hv; subst v0. rewrite Nat.add_0_r in Hname.
      rewrite Hname in Hcol. inversion Hcol; subst col.
      rewrite (convert_cells_keeps _ _ _ _ _ name Hrun).
      * destruct (has_isoformat v); apply get_set_same.
      * intros k Hk Hk'.
        assert (i = k) by (eapply (proj1 (NoDup_nth_error column_names) Hnodup);
                           [apply nth_error_Some; congruence|congruence]).
        lia.
    + apply (IH _ _ _ Hrun j name v); [|exact Hv].
      now replace (S i + j)%nat with (i + S j)%nat by lia.
Qed.

Lemma get_json_members (d : dict pyvalue) (name : string) :
  get (map (fun kv => (fst kv, json_value py_str (snd kv))) d) name
  = option_map (json_value py_str) (get d name).
Proof.
  induction d as [|[k v] d IH]; simpl; [reflexivity|].
  destruct (k =? name)%string; [reflexivity|exact IH].
Qed.

(** Induction on a value and on the values inside it. *)
Lemma pyvalue_nested_ind (P : pyvalue -> Prop) :
  (forall v, is_container v = false -> P v) ->
  (forall elems, Forall P elems -> P (VList elems)) ->
  (forall items, Forall (fun kv => P (snd kv)) items -> P (VDict items)) ->
  forall v, P v.
Proof.
  intros Hscalar Hlist Hdict. fix IH 1. intros v.
  destruct v as [| | | | | | | | | | |elems|items];
    try (apply Hscalar; reflexivity).
  - apply Hlist. revert elems. fix IHelems 1. intros [|x elems].
    + constructor.
    + constructor; [apply IH|apply IHelems].
  - apply Hdict. revert items. fix IHitems 1. intros [|[k x] items].
    + constructor.
    + constructor; [apply IH|apply IHitems].
Qed.

Lemma all_some_map {A B} (f : A -> option B) (g : A -> B) (l : list A) :
  Forall (fun a => forall b, f a = Some b -> g a = b) l ->
  forall result, all_some (map f l) = Some result -> map g l = result.
Proof.
  induction 1 as [|a l Ha Hl IH]; cbn [map all_some]; intros result Hall.
  - now inversion Hall.
  - destruct (f a) as [b|] eqn:Hb; [|discriminate Hall].
    destruct (all_some (map f l)) as [rest|]; [|discriminate Hall].
    cbn [option_map] in Hall. inversion Hall; subst result.
    now rewrite (Ha b eq_refl), (IH rest eq_refl).
Qed.

(** A value the encoder represents itself is written as that
    representation, whatever the [default] hook. *)
Lemma json_native_written (default : pyvalue -> string) (v : pyvalue) :
  forall own, json_native v = Some own -> json_value default v = own.
Proof.
  induction v as [v Hscalar|elems IH|items IH] using pyvalue_nested_ind; intros own.
  - destruct v; try discriminate Hscalar; cbn [json_native json_value];
      intros H; now inversion H.
  - cbn [json_native json_value].
    destruct (all_some (map json_native elems)) as [arr|] eqn:Hall; [|discriminate].
    intros H. inversion H; subst own. f_equal.
    exact (all_some_map json_native (json_value default) elems IH arr Hall).
  - cbn [json_native json_value].
    destruct (all_some _) as [members|] eqn:Hall; [|discriminate].
    intros H. inversion H; subst own. f_equal.
    refine (all_some_map _ _ items _ members Hall).
    clear Hall. induction IH as [|[k x] items Hx _ IHitems]; constructor; [|exact IHitems].
    cbn [fst snd] in *. intros b Hb.
    destruct (json_native x) as [own|]; [|discriminate Hb].
    inversion Hb; subst b. now rewrite (Hx own eq_refl).
Qed.

(** A value that is neither a list nor a dict and that the encoder does
    not represent itself is written as the string [default] gives. *)
Lemma json_default_written (default : pyvalue -> string) (v : pyvalue) :
  is_container v = false -> json_native v = None ->
  json_value default v = JStr (default v).
Proof.
  destruct v; cbn [is_container json_native json_value]; intros Hc Hn;
    try discriminate; reflexivity.
Qed.

(** C5, as amended.  In the record written for a row, a cell whose value has
    an [isoformat] method (a date, a datetime or a time) is that method's
    ISO-8601 string.  Every other cell is written by the JSON encoder: a
    value the encoder represents itself (null, a boolean, an integer, a
    float, a string, and a list or dict made only of such values) is that
    value, unmodified; a list or a dict is an array or an object whose
    elements are written by the rule of the encoder; a value the encoder
    cannot represent is the string [str(value)], which [json.dump] obtains
    through [default=str].  The rule of the encoder applies to the elements
    as it does to the cell, without the test for [isoformat], so that a
    date inside a list is written as [str] gives it.

    The statement has the two cases of the cell first, then the four cases
    of the encoder, [json_value py_str], which cover every value. *)
Theorem json_cell_written (column_names : list string) (row : list pyvalue)
    (row_dict : dict pyvalue) :
  NoDup column_names ->
  convert_row column_names row = Ok row_dict ->
  forall i name v,
    nth_error column_names i = Some name ->
    nth_error row i = Some v ->
    exists written,
      json_member name (json_object py_str row_dict) = Some written
      /\ (has_isoformat v = true -> written = JStr (isoformat v))
      /\ (has_isoformat v = false -> written = json_value py_str v)
      /\ (forall value own,
            json_native value = Some own -> json_value py_str value = own)
      /\ (forall elems,
            json_value py_str (VList elems) = JArr (map (json_value py_str) elems))
      /\ (forall items,
            json_value py_str (VDict items)
            = JObj (map (fun kv => (fst kv, json_value py_str (snd kv))) items))
      /\ (forall value,
            is_container value = false -> json_native value = None ->
            json_value py_str value = JStr (py_str value)).
Proof.
  intros Hnodup Hrun i name v Hname Hv.
  unfold json_object, json_member. rewrite get_json_members.
  unfold convert_row in Hrun.
  rewrite (convert_cells_get _ _ Hnodup _ _ _ Hrun i name v Hname Hv).
  cbn [option_map]. eexists. split; [reflexivity|].
  split; [|split; [|split; [|split; [|split]]]].
  - intros ->. reflexivity.
  - intros ->. reflexivity.
  - intros value. apply json_native_written.
  - reflexivity.
  - reflexivity.
  - intros value. apply json_default_written.
Qed.

(** A row with a value of each kind: the datetime is written in ISO-8601
    form, the integer, the null and the list of integers as they are, the
    [Decimal], the [timedelta] and the [memoryview] as their [str] text,
    and the list of timestamps as an array of [str] texts, not of ISO-8601
    texts. *)
Lemma json_cell_written_witness :
  let column_names :=
    ["session_id"; "start_time"; "price"; "note"; "scores"; "played"; "blob";
     "stamps"; "extra"] in
  let row := [VInt 4; VDateTime (mk_datetime 2025 8 4 21 15 59 0);
              VDecimal "19.99"; VNone; VList [VInt 1; VInt 2];
              VTimedelta 1 3600 0; VMemoryview "<memory at 0x7f3a5c1d2e80>";
              VList [VDateTime (mk_datetime 2025 8 4 21 15 59 0)];
              VDict [("rank", VInt 3); ("tags", VList [VStr "a"; VNone])]] in
  exists row_dict,
    NoDup column_names
    /\ convert_row column_names row = Ok row_dict
    /\ json_member "session_id" (json_object py_str row_dict) = Some (JInt 4)
    /\ json_member "start_time" (json_object py_str row_dict)
       = Some (JStr "2025-08-04T21:15:59")
    /\ json_member "price" (json_object py_str row_dict) = Some (JStr "19.99")
    /\ json_member "note" (json_object py_str row_dict) = Some JNull
    /\ json_member "scores" (json_object py_str row_dict)
       = Some (JArr [JInt 1; JInt 2])
    /\ json_member "played" (json_object py_str row_dict)
       = Some (JStr "1 day, 1:00:00")
    /\ json_member "blob" (json_object py_str row_dict)
       = Some (JStr "<memory at 0x7f3a5c1d2e80>")
    /\ json_member "stamps" (json_object py_str row_dict)
       = Some (JArr [JStr "2025-08-04 21:15:59"])
    /\ json_member "extra" (json_object py_str row_dict)
       = Some (JObj [("rank", JInt 3); ("tags", JArr [JStr "a"; JNull])]).
Proof.
  intros column_names row.
  destruct (convert_row column_names row) as [row_dict|e] eqn:Hrun;
    [|vm_compute in Hrun; discriminate].
  assert (NoDup column_names) as Hnodup.
  { repeat constructor; cbn [In]; intros H; repeat destruct H as [H|H];
      try discriminate H; exact H. }
  exists row_dict. split; [exact Hnodup|]. split; [reflexivity|].
  pose proof (json_cell_written column_names row row_dict Hnodup Hrun) as Hcell.
  repeat split.
  - destruct (Hcell 0%nat _ _ eq_refl eq_refl) as (w & -> & _ & Hw & Hown & _).
    f_equal. rewrite (Hw eq_refl). now apply Hown.
  - destruct (Hcell 1%nat _ _ eq_refl eq_refl) as (w & -> & Hw & _).
    f_equal. now apply Hw.
  - destruct (Hcell 2%nat _ _ eq_refl eq_refl)
      as (w & -> & _ & Hw & _ & _ & _ & Hstr).
    f_equal. rewrite (Hw eq_refl). now apply Hstr.
  - destruct (Hcell 3%nat _ _ eq_refl eq_refl) as (w & -> & _ & Hw & Hown & _).
    f_equal. rewrite (Hw eq_refl). now apply Hown.
  - destruct (Hcell 4%nat _ _ eq_refl eq_refl) as (w & -> & _ & Hw & Hown & _).
    f_equal. rewrite (Hw eq_refl). now apply Hown.
  - destruct (Hcell 5%nat _ _ eq_refl eq_refl)
      as (w & -> & _ & Hw & _ & _ & _ & Hstr).
    f_equal. rewrite (Hw eq_refl). now apply Hstr.
  - destruct (Hcell 6%nat _ _ eq_refl eq_refl)
      as (w & -> & _ & Hw & _ & _ & _ & Hstr).
    f_equal. rewrite (Hw eq_refl). now apply Hstr.
  - destruct (Hcell 7%nat _ _ eq_refl eq_refl)
      as (w & -> & _ & Hw & _ & Hlist & _ & Hstr).
    f_equal. rewrite (Hw eq_refl), Hlist. cbn [map]. now rewrite Hstr.
  - destruct (Hcell 8%nat _ _ eq_refl eq_refl) as (w & -> & _ & Hw & Hown & _).
    f_equal. rewrite (Hw eq_refl). now apply Hown.
Defined.


(** A [Decimal] (a [numeric] column) has no [isoformat] and is written as a
    string: the number 19.99 reaches the document as the text "19.99". *)
Lemma json_decimal_is_converted :
  has_isoformat (VDecimal "19.99") = false
  /\ ~ passes_unmodified (VDecimal "19.99")
  /\ exists row_dict,
       convert_row ["value"] [VDecimal "19.99"] = Ok row_dict
       /\ json_member "value" (json_object py_str row_dict) = Some (JStr "19.99").
Proof.
  split; [reflexivity|]. split.
  - intros H. destruct (H _ eq_refl) as (own & Hown & _). discriminate Hown.
  - eexists. split; reflexivity.
Qed.

(** ** CSV export *)

Lemma open_w_raises (p : string) (disk : filesystem) (e : exn) :
  Fs.open_w p disk = Raise e -> is_Exception e = true.
Proof.
  unfold Fs.open_w. intros H. repeat break_match; invert_run; reflexivity.
Qed.

Lemma open_w_then_append (p : string) (disk opened : filesystem) (a b : string) :
  Fs.open_w p disk = Ok opened ->
  Fs.read (Fs.append p b (Fs.append p a opened)) p = Some (Text (a ++ b)).
Proof.
  unfold Fs.open_w. intros H. repeat break_match; invert_run.
  unfold Fs.read, Fs.append. cbn [files].
  rewrite get_set_same. cbn [files]. rewrite get_set_same. cbn [files].
  now rewrite get_set_same.
Qed.

Lemma fetch_ok {A} (srv : server) (stmt : statement) (a b : A) :
  fetch srv stmt a = Ok b -> b = a.
Proof.
  unfold fetch. destruct (srv_fault srv stmt) as [[[|] e]|]; intros H;
    now inversion H.
Qed.

(** [export_table_to_csv] by cases on its query, on [open] and on the fetch
    of the rows. *)
Lemma export_table_to_csv_run (table_name : string) (st : state) :
  forall r st', export_table_to_csv table_name st = (r, st') ->
    match csv_query table_name st with
    | Raise e => fs st' = fs st /\ r = (if is_Exception e then Ok false else Raise e)
    | Ok rs =>
        match Fs.open_w (csv_path (output_dir st) table_name) (fs st) with
        | Raise _ => fs st' = fs st /\ r = Ok false
        | Ok opened =>
            match csv_fetch table_name st rs with
            | Raise e =>
                fs st' = Fs.append (csv_path (output_dir st) table_name)
                           (Csv.writerow (map VStr (description rs))) opened
                /\ r = (if is_Exception e then Ok false else Raise e)
            | Ok _ =>
                r = Ok true
                /\ fs st' = Fs.append (csv_path (output_dir st) table_name)
                              (Csv.writerows (fetched rs))
                              (Fs.append (csv_path (output_dir st) table_name)
                                 (Csv.writerow (map VStr (description rs))) opened)
            end
        end
    end.
Proof.
  intros r st'. unfold csv_query, csv_fetch, csv_statement.
  unfold export_table_to_csv, try_except, bind, cursor, execute_only, fetchall,
    get_output_dir, open_w, f_write, print, ret.
  run_simpl.
  destruct (conn st) as [[| |]|] eqn:Hconn; run_simpl; rewrite ?Hconn;
    try (intros H; invert_run; run_simpl; now split).
  - destruct (accept (db st) (Some InTransaction) _ _) as [rs|e] eqn:Hq.
    + destruct (Fs.open_w _ (fs st)) as [opened|e] eqn:Ho; run_simpl.
      * destruct (fetch (db st) _ (fetched rs)) as [rows|e] eqn:Hrows.
        -- apply fetch_ok in Hrows. subst rows.
           intros H; invert_run; run_simpl. now split.
        -- destruct (is_Exception e) eqn:He; intros H; invert_run; run_simpl;
             now split.
      * rewrite (open_w_raises _ _ _ Ho).
        intros H; invert_run; run_simpl. now split.
    + destruct (is_Exception e) eqn:He; intros H; invert_run; run_simpl; now split.
  - cbn [accept]. run_simpl. intros H; invert_run; run_simpl; now split.
Qed.

Lemma csv_query_ok (table_name : string) (st : state) (rs : resultset) :
  csv_query table_name st = Ok rs -> srv_relation (db st) table_name = Some rs.
Proof.
  unfold csv_query, cursor, accept, SqlSem.select_all, SqlSem.undefined_table.
  destruct (conn st) as [[| |]|]; cbn [fst]; try discriminate.
  destruct (srv_fault (db st) _) as [[[|] fault]|]; try discriminate.
  all: destruct (srv_relation (db st) table_name); [|discriminate].
  all: now intros [= ->].
Qed.


(** Lines of a text that starts with a record free of line breaks. *)
Lemma lines_from_record (record : string) :
  contains_char is_line_break record = false ->
  forall line rest,
    lines_from line (record ++ crlf ++ rest)
    = (line ++ record) :: lines_from EmptyString rest.
Proof.
  induction record as [|c record IH]; intros Hclean line rest.
  - simpl. now rewrite append_nil_r.
  - simpl in Hclean. apply orb_false_iff in Hclean as [Hc Hrec].
    unfold is_line_break in Hc. apply orb_false_iff in Hc as [Hcr Hlf].
    cbn [append lines_from]. rewrite Hlf, Hcr.
    rewrite (IH Hrec). f_equal.
    rewrite append_assoc. reflexivity.
Qed.

Lemma double_quotes_single_line (s : string) :
  contains_char is_line_break s = false ->
  contains_char is_line_break (Csv.double_quotes s) = false.
Proof.
  induction s as [|c s IH]; simpl; intros H; [reflexivity|].
  apply orb_false_iff in H as [Hc Hs].
  destruct (Ascii.eqb c DQUOTE); simpl; rewrite ?Hc, (IH Hs); reflexivity.
Qed.

Lemma field_single_line (s : string) :
  contains_char is_line_break s = false ->
  contains_char is_line_break (Csv.field s) = false.
Proof.
  intros H. unfold Csv.field, Csv.quoted.
  destruct (contains_char Csv.special s); [|exact H].
  simpl. rewrite contains_char_append, (double_quotes_single_line _ H).
  reflexivity.
Qed.

Lemma join_single_line (fields : list string) :
  Forall (fun s => contains_char is_line_break s = false) fields ->
  contains_char is_line_break (join "," fields) = false.
Proof.
  unfold join.
  induction fields as [|s fields IH]; intros H; [reflexivity|].
  inversion H as [|? ? Hs Hrest]; subst.
  destruct fields as [|s' fields]; [exact Hs|].
  change (String.concat "," (s :: s' :: fields))
    with (s ++ "," ++ String.concat "," (s' :: fields)).
  rewrite !contains_char_append, Hs, (IH Hrest). reflexivity.
Qed.

Lemma line_single_line (row : list pyvalue) :
  single_line row -> contains_char is_line_break (Csv.line row) = false.
Proof.
  intros H. unfold Csv.line.
  destruct row as [|v row]; [reflexivity|].
  assert (contains_char is_line_break
            (join "," (map (fun v => Csv.field (Csv.field_text v)) (v :: row))) = false)
    as Hjoin.
  { apply join_single_line. apply Forall_map.
    eapply Forall_impl; [|exact H]. intros a Ha. now apply field_single_line. }
  destruct (join "," _); [reflexivity|exact Hjoin].
Qed.

Lemma splitlines_writerows (rows : list (list pyvalue)) :
  Forall single_line rows ->
  lines_from EmptyString (Csv.writerows rows) = map Csv.line rows.
Proof.
  unfold Csv.writerows.
  induction rows as [|row rows IH]; intros H; [reflexivity|].
  inversion H as [|? ? Hrow Hrows]; subst.
  cbn [map]. rewrite concat_empty_cons. unfold Csv.writerow at 1.
  rewrite append_assoc.
  rewrite (lines_from_record _ (line_single_line _ Hrow)).
  cbn [append]. f_equal. now apply IH.
Qed.

(** C4, as amended.  When [export_table_to_csv] returns [True], the table's
    CSV file holds the header record of the column names followed by exactly
    one CSV record per row the export query returned, and nothing else; for
    a table with no rows it holds the header record only.  Each record is
    one line of the file when none of its fields contains a carriage return
    or a line feed, so that for such data the lines after the header are
    one per row. *)
Theorem csv_export_records (table_name : string) (st st' : state) :
  export_table_to_csv table_name st = (Ok true, st') ->
  exists rs,
    srv_relation (db st) table_name = Some rs
    /\ Fs.read (fs st') (csv_path (output_dir st) table_name)
       = Some (Text (Csv.writerow (map VStr (description rs))
                     ++ String.concat EmptyString (map Csv.writerow (fetched rs))))
    /\ (fetched rs = [] ->
        Fs.read (fs st') (csv_path (output_dir st) table_name)
        = Some (Text (Csv.writerow (map VStr (description rs)))))
    /\ (single_line (map VStr (description rs)) ->
        Forall single_line (fetched rs) ->
        forall text,
          Fs.read (fs st') (csv_path (output_dir st) table_name) = Some (Text text) ->
          splitlines text
          = Csv.line (map VStr (description rs)) :: map Csv.line (fetched rs)
          /\ length (splitlines text) = S (length (fetched rs))).
Proof.
  intros Hrun. apply export_table_to_csv_run in Hrun.
  destruct (csv_query table_name st) as [rs|e] eqn:Hq.
  - destruct (Fs.open_w _ (fs st)) as [opened|e] eqn:Ho.
    + destruct (csv_fetch table_name st rs) as [rows|e] eqn:Hfetch;
        [|destruct Hrun as [_ Hr]; destruct (is_Exception e); discriminate Hr].
      destruct Hrun as [_ Hfs]. exists rs.
      assert (Fs.read (fs st') (csv_path (output_dir st) table_name)
              = Some (Text (Csv.writerow (map VStr (description rs))
                            ++ Csv.writerows (fetched rs)))) as Hfile.

      { rewrite Hfs. now apply (open_w_then_append _ (fs st)). }
      split; [now apply csv_query_ok|]. split; [exact Hfile|]. split.
      * intros Hnone. rewrite Hfile, Hnone. cbn [Csv.writerows map String.concat].
        now rewrite append_nil_r.
      * intros Hheader Hrows text Htext. rewrite Hfile in Htext.
        inversion Htext; subst text.
        assert (splitlines (Csv.writerow (map VStr (description rs))
                            ++ Csv.writerows (fetched rs))
                = Csv.line (map VStr (description rs)) :: map Csv.line (fetched rs))
          as Hlines.
        { unfold splitlines, Csv.writerow. rewrite append_assoc.
          rewrite (lines_from_record _ (line_single_line _ Hheader)).
          cbn [append]. f_equal. now apply splitlines_writerows. }
        split; [exact Hlines|]. rewrite Hlines. cbn [length]. now rewrite length_map.
    + destruct Hrun as [_ Hr]. discriminate Hr.
  - destruct Hrun as [_ Hr]. destruct (is_Exception e); discriminate Hr.
Qed.

(** The empty table [game_ticks]: its file is the header line alone. *)
Lemma csv_export_records_witness :
  exists st',
    export_table_to_csv "game_ticks" Demo.ready = (Ok true, st')
    /\ Fs.read (fs st') "database_export_20250807_140309/csv/game_ticks.csv"
       = Some (Text ("session_id,tick_number,processing_time_ms" ++ crlf))
    /\ forall text,
         Fs.read (fs st') "database_export_20250807_140309/csv/game_ticks.csv"
         = Some (Text text) ->
         splitlines text = ["session_id,tick_number,processing_time_ms"].
Proof.
  destruct (export_table_to_csv "game_ticks" Demo.ready) as [r st'] eqn:Hrun.
  assert (r = Ok true) as -> by (vm_compute in Hrun; now inversion Hrun).
  exists st'. split; [reflexivity|].
  destruct (csv_export_records "game_ticks" Demo.ready st' Hrun)
    as (rs & Hrel & _ & Hempty & Hlines).
  vm_compute in Hrel. inversion Hrel; subst rs. split.
  - exact (Hempty eq_refl).
  - intros text Htext.
    refine (proj1 (Hlines _ _ text Htext)).
    + repeat constructor.
    + constructor.
Defined.

(** C4 as stated fails for a row with a line break inside a field: the
    field is quoted and keeps its line break, so the one row of [notes]
    takes two lines of the file after the header. *)
Lemma csv_line_break_spans_lines :
  exists st' text,
    export_table_to_csv "notes" Demo.ready = (Ok true, st')
    /\ srv_relation (db Demo.ready) "notes" = Some Demo.notes
    /\ length (fetched Demo.notes) = 1%nat
    /\ Fs.read (fs st') "database_export_20250807_140309/csv/notes.csv" = Some (Text text)
    /\ text = "body" ++ crlf ++ chr DQUOTE ++ "first" ++ nl ++ "second" ++ chr DQUOTE ++ crlf
    /\ splitlines text = ["body"; chr DQUOTE ++ "first"; "second" ++ chr DQUOTE]
    /\ length (splitlines text) <> S (length (fetched Demo.notes)).
Proof.
  eexists. eexists.
  split; [vm_compute; reflexivity|].
  repeat split; try (vm_compute; reflexivity).
  vm_compute. discriminate.
Qed.

(** ** The export loop *)

Lemma select_all_raises (t : string) (srv : server) (e : exn) :
  SqlSem.select_all t srv = Raise e -> is_Exception e = true.
Proof.
  unfold SqlSem.select_all, SqlSem.undefined_table.
  destruct (srv_relation srv t); intros H; inversion H; reflexivity.
Qed.

Lemma select_limit_raises (t : string) (limit : Z) (srv : server) (e : exn) :
  SqlSem.select_limit t limit srv = Raise e -> is_Exception e = true.
Proof.
  unfold SqlSem.select_limit, SqlSem.undefined_table.
  destruct (srv_relation srv t); [destruct (limit <? 0)|];
    intros H; inversion H; reflexivity.
Qed.

Lemma other_raises (sql : string) (srv : server) (e : exn) :
  SqlSem.other sql srv = Raise e -> is_Exception e = true.
Proof.
  unfold SqlSem.other.
  destruct (srv_answer srv sql); intros H; inversion H; reflexivity.
Qed.

Lemma accept_raises {A} (srv : server) (c : option connection) (stmt : statement)
    (answer : server -> outcome A) (e : exn) :
  benign srv ->
  (forall e', answer srv = Raise e' -> is_Exception e' = true) ->
  accept srv c stmt answer = Raise e -> is_Exception e = true.
Proof.
  intros Hbenign Hanswer. unfold accept.
  destruct c as [[| |]|]; try (intros H; inversion H; reflexivity).
  destruct (srv_fault srv stmt) as [[[|] e']|] eqn:Hfault.
  - intros H; inversion H; subst. eapply Hbenign; eauto.
  - apply Hanswer.
  - apply Hanswer.
Qed.

Lemma fetch_raises {A} (srv : server) (stmt : statement) (a : A) (e : exn) :
  benign srv -> fetch srv stmt a = Raise e -> is_Exception e = true.
Proof.
  intros Hbenign. unfold fetch.
  destruct (srv_fault srv stmt) as [[[|] e']|] eqn:Hfault;
    intros H; inversion H; subst. eapply Hbenign; eauto.
Qed.

Lemma respond_raises {A} (srv : server) (c : option connection) (stmt : statement)
    (answer : server -> outcome A) (e : exn) :
  benign srv ->
  (forall e', answer srv = Raise e' -> is_Exception e' = true) ->
  respond srv c stmt answer = Raise e -> is_Exception e = true.
Proof.
  intros Hbenign Hanswer. unfold respond.
  destruct (accept srv c stmt answer) as [a|e'] eqn:Haccept.
  - now apply fetch_raises.
  - intros H; inversion H; subst. eapply accept_raises; eauto.
Qed.

Lemma after_open {A} (st : state) (r : outcome A) :
  open_connection st ->
  after (conn st) r = Some InTransaction \/ after (conn st) r = Some FailedTransaction.
Proof.
  intros [H|H]; rewrite H; unfold after.
  - destruct r as [a|e]; [now left|]. destruct (is_Exception e); [now right|now left].
  - destruct r; now right.
Qed.

Lemma export_table_to_csv_attempt (t : string) (st : state) :
  open_connection st -> benign (db st) ->
  exists b st',
    export_table_to_csv t st = (Ok b, st')
    /\ attempted (csv_statement t) (csv_report t) st st'.
Proof.
  intros Hopen Hbenign.
  pose proof (after_open st (accept (db st) (conn st) (csv_statement t)
                               (SqlSem.select_all t)) Hopen) as Hafter.
  pose proof (accept_raises (db st) (conn st) (csv_statement t) (SqlSem.select_all t))
    as Hraise.
  unfold csv_statement in *.
  unfold export_table_to_csv, try_except, bind, cursor, execute_only, fetchall,
    get_output_dir, open_w, f_write, print, ret.
  run_simpl.
  assert (exists c, conn st = Some c /\ c <> Closed) as (c & Hc & Hnot).
  { destruct Hopen as [H|H]; rewrite H; eexists; split; eauto; discriminate. }
  rewrite Hc in *. destruct c; [| |contradiction];
    repeat (progress (run_simpl; rewrite ?Hc)).
  - destruct (accept (db st) (Some InTransaction) _ _) as [rs|e] eqn:Hq; run_simpl.
    + destruct (Fs.open_w _ (fs st)) as [opened|e] eqn:Ho; run_simpl.
      * destruct (fetch (db st) _ (fetched rs)) as [rows|e] eqn:Hrows; run_simpl.
        -- eexists _, _. split; [reflexivity|].
           constructor; run_simpl; auto. eexists. split; [reflexivity|constructor].
        -- rewrite (fetch_raises _ _ _ _ Hbenign Hrows).
           eexists _, _. split; [reflexivity|].
           constructor; run_simpl; auto. eexists. split; [reflexivity|constructor].
      * rewrite (open_w_raises _ _ _ Ho).
        eexists _, _. split; [reflexivity|].
        constructor; run_simpl; auto. eexists. split; [reflexivity|constructor].
    + rewrite (Hraise e Hbenign (select_all_raises t (db st)) eq_refl).
      eexists _, _. split; [reflexivity|].
      constructor; run_simpl; auto. eexists. split; [reflexivity|constructor].
  - cbn [accept]. run_simpl.
    eexists _, _. split; [reflexivity|].
    constructor; run_simpl; auto. eexists. split; [reflexivity|constructor].
Qed.

Lemma export_table_to_json_attempt (t : string) (limit : Z) (st : state) :
  open_connection st -> benign (db st) ->
  exists b st',
    export_table_to_json t limit st = (Ok b, st')
    /\ attempted (json_statement t limit) (json_report t) st st'.
Proof.
  intros Hopen Hbenign.
  pose proof (after_open st (accept (db st) (conn st) (json_statement t limit)
                               (SqlSem.select_limit t limit)) Hopen) as Hafter.

  pose proof (respond_raises (db st) (conn st) (json_statement t limit)
                (SqlSem.select_limit t limit)) as Hraise.
  unfold json_statement in *.
  unfold export_table_to_json, try_except, bind, cursor, execute, lift,
    get_output_dir, open_w, json_dump, print, ret.
  run_simpl.
  assert (exists c, conn st = Some c /\ c <> Closed) as (c & Hc & Hnot).
  { destruct Hopen as [H|H]; rewrite H; eexists; split; eauto; discriminate. }
  rewrite Hc in *. destruct c; [| |contradiction];
    repeat (progress (run_simpl; rewrite ?Hc)).
  - destruct (respond (db st) (Some InTransaction) _ _) as [rs|e] eqn:Hq; run_simpl.
    + destruct (convert_rows (description rs) (fetched rs)) as [data|e] eqn:Hconv;
        run_simpl.
      * destruct (Fs.open_w _ (fs st)) as [opened|e] eqn:Ho; run_simpl.
        -- eexists _, _. split; [reflexivity|].
           constructor; run_simpl; auto. eexists. split; [reflexivity|constructor].
        -- rewrite (open_w_raises _ _ _ Ho).
           eexists _, _. split; [reflexivity|].
           constructor; run_simpl; auto. eexists. split; [reflexivity|constructor].
      * rewrite (convert_rows_raises _ _ _ Hconv).
        eexists _, _. split; [reflexivity|].
        constructor; run_simpl; auto. eexists. split; [reflexivity|constructor].
    + rewrite (Hraise e Hbenign (select_limit_raises t limit (db st)) eq_refl).
      eexists _, _. split; [reflexivity|].
      constructor; run_simpl; auto. eexists. split; [reflexivity|constructor].
  - cbn [respond accept]. run_simpl.
    eexists _, _. split; [reflexivity|].
    constructor; run_simpl; auto. eexists. split; [reflexivity|constructor].
Qed.

(** Without an open connection [cursor()] raises, the export reports the
    failure and returns. *)
Lemma export_table_to_csv_unconnected (t : string) (st : state) :
  ~ open_connection st ->
  exists line,
    export_table_to_csv t st = (Ok false, with_console (console st ++ [line]) st)
    /\ csv_report t line.
Proof.
  intros Hclosed.
  unfold export_table_to_csv, try_except, bind, cursor, print, ret.
  destruct (conn st) as [[| |]|] eqn:Hc; run_simpl;
    try (exfalso; apply Hclosed; unfold open_connection; rewrite Hc; auto; fail);
    eexists; (split; [reflexivity|]); constructor.
Qed.

Lemma export_table_to_json_unconnected (t : string) (limit : Z) (st : state) :
  ~ open_connection st ->
  exists line,
    export_table_to_json t limit st = (Ok false, with_console (console st ++ [line]) st)
    /\ json_report t line.
Proof.
  intros Hclosed.
  unfold export_table_to_json, try_except, bind, cursor, print, ret.
  destruct (conn st) as [[| |]|] eqn:Hc; run_simpl;
    try (exfalso; apply Hclosed; unfold open_connection; rewrite Hc; auto; fail);
    eexists; (split; [reflexivity|]); constructor.
Qed.

Lemma open_connection_dec (st : state) : open_connection st \/ ~ open_connection st.
Proof.
  unfold open_connection. destruct (conn st) as [[| |]|]; auto;
    right; intros [H|H]; discriminate H.
Qed.

Lemma export_tables_run (table_names : list string) :
  forall st,
    benign (db st) ->
    exists st',
      export_tables table_names st = (Ok tt, st')
      /\ db st' = db st
      /\ (exists lines,
            console st' = (console st ++ lines)%list /\ export_log table_names lines)
      /\ (open_connection st ->
          open_connection st' /\ sent st' = (sent st ++ attempts table_names)%list)
      /\ (~ open_connection st -> conn st' = conn st).
Proof.
  unfold export_tables.
  induction table_names as [|t ts IH]; intros st Hbenign.
  - exists st. cbn [for_each ret attempts flat_map]. rewrite !app_nil_r.
    repeat split; trivial. exists []. rewrite app_nil_r. split; [reflexivity|constructor].
  - cbn [for_each]. unfold bind at 1 2 3 4. unfold print at 1, ret at 1. run_simpl.
    set (st0 := with_console _ st).
    destruct (open_connection_dec st) as [Hopen|Hclosed].
    + destruct (export_table_to_csv_attempt t st0) as (b1 & st1 & Hcsv & Hatt1);
        [exact Hopen|exact Hbenign|].
      rewrite Hcsv. destruct Hatt1 as [Hdb1 Hopen1 Hdir1 Hsent1 (c & Hcons1 & Hrep1)].
      destruct (export_table_to_json_attempt t default_limit st1)
        as (b2 & st2 & Hjson & Hatt2); [exact Hopen1|now rewrite Hdb1|].
      rewrite Hjson. destruct Hatt2 as [Hdb2 Hopen2 Hdir2 Hsent2 (j & Hcons2 & Hrep2)].
      destruct (IH st2) as (st' & Hrun & Hdb & (lines & Hcons & Hlog) & Hsent & _);
        [now rewrite Hdb2, Hdb1|].
      destruct (Hsent Hopen2) as [Hopen' Hsent'].
      exists st'. split; [exact Hrun|].
      split; [now rewrite Hdb, Hdb2, Hdb1|]. split; [|split].
      * exists ((nl ++ "Processing table: " ++ t) :: c :: j :: lines). split.
        -- rewrite Hcons, Hcons2, Hcons1. subst st0. run_simpl.
           rewrite <- !app_assoc. reflexivity.
        -- now constructor.
      * intros _. split; [exact Hopen'|].
        rewrite Hsent', Hsent2, Hsent1. subst st0. run_simpl.
        cbn [attempts flat_map]. rewrite <- !app_assoc. reflexivity.
      * intros Hnot. contradiction.
    + destruct (export_table_to_csv_unconnected t st0 Hclosed) as (c & Hcsv & Hrep1).
      rewrite Hcsv.
      set (st1 := with_console (console st0 ++ [c]) st0).
      destruct (export_table_to_json_unconnected t default_limit st1 Hclosed)
        as (j & Hjson & Hrep2).
      rewrite Hjson.
      set (st2 := with_console (console st1 ++ [j]) st1).
      destruct (IH st2 Hbenign) as (st' & Hrun & Hdb & (lines & Hcons & Hlog) & _ & Hconn).
      exists st'. split; [exact Hrun|]. split; [exact Hdb|]. split; [|split].
      * exists ((nl ++ "Processing table: " ++ t) :: c :: j :: lines). split.
        -- rewrite Hcons. subst st2 st1 st0. run_simpl.
           rewrite <- !app_assoc. reflexivity.
        -- now constructor.
      * intros Hopen. contradiction.
      * intros _. now rewrite (Hconn Hclosed).
Qed.

(** C1. For every list of tables, the export loop of the orchestrator makes
    exactly one CSV export attempt and exactly one JSON export attempt per
    table, in order: whatever exports fail with an exception the methods
    catch, the loop ends normally, having printed one CSV and one JSON
    report for each table, success or failure; on the open connection the
    orchestrator holds, it has sent exactly one CSV and one JSON statement
    for each table. *)
Theorem export_loop_attempts (table_names : list string) (st : state) :
  benign (db st) ->
  exists st',
    export_tables table_names st = (Ok tt, st')
    /\ (exists lines,
          console st' = (console st ++ lines)%list /\ export_log table_names lines)
    /\ (open_connection st ->
        sent st' = (sent st ++ attempts table_names)%list).
Proof.
  intros Hbenign.
  destruct (export_tables_run table_names st Hbenign)
    as (st' & Hrun & _ & Hlog & Hsent & _).
  exists st'. split; [exact Hrun|]. split; [exact Hlog|].
  intros Hopen. now apply Hsent.
Qed.

(** The server does not know [player_location]: both its exports fail, the
    transaction is left aborted so that the exports of [sessions] fail as
    well, and still every table gets its two attempts. *)
Lemma export_loop_attempts_witness :
  benign (db Demo.ready)
  /\ open_connection Demo.ready
  /\ exists st',
       export_tables ["game_ticks"; "player_location"; "sessions"] Demo.ready = (Ok tt, st')
       /\ sent st'
          = (sent Demo.ready
             ++ [Sql "SELECT * FROM game_ticks";
                 Sql "SELECT * FROM game_ticks LIMIT 1000";
                 Sql "SELECT * FROM player_location";
                 Sql "SELECT * FROM player_location LIMIT 1000";
                 Sql "SELECT * FROM sessions";
                 Sql "SELECT * FROM sessions LIMIT 1000"])%list.
Proof.
  assert (open_connection Demo.ready) as Hopen by (left; reflexivity).
  assert (benign (db Demo.ready)) as Hbenign by (intros stmt at_call e H; discriminate H).
  split; [exact Hbenign|]. split; [exact Hopen|].
  destruct (export_loop_attempts ["game_ticks"; "player_location"; "sessions"]
              Demo.ready Hbenign) as (st' & Hrun & _ & Hsent).
  exists st'. split; [exact Hrun|exact (Hsent Hopen)].
Defined.

Example export_loop_with_failures :
  console (snd (export_tables ["game_ticks"; "player_location"; "sessions"] Demo.ready))
  = (console Demo.ready
     ++ [(nl ++ "Processing table: game_ticks")%string;
         "[CSV] Exported game_ticks to CSV";
         "[JSON] Exported game_ticks to JSON (0 records)";
         (nl ++ "Processing table: player_location")%string;
         "[WARN] Failed to export player_location to CSV: relation player_location does not exist";
         "[WARN] Failed to export player_location to JSON: current transaction is aborted, commands ignored until end of transaction block";
         (nl ++ "Processing table: sessions")%string;
         "[WARN] Failed to export sessions to CSV: current transaction is aborted, commands ignored until end of transaction block";
         "[WARN] Failed to export sessions to JSON: current transaction is aborted, commands ignored until end of transaction block"])%list.
Proof. vm_compute. reflexivity. Qed.

(** ** The sample queries *)

Lemma read_append (p : string) (s cur : string) (disk : filesystem) :
  Fs.read disk p = Some (Text cur) ->
  Fs.read (Fs.append p s disk) p = Some (Text (cur ++ s)).
Proof.
  unfold Fs.read, Fs.append. intros ->. cbn [files]. apply get_set_same.
Qed.

Lemma read_append_each {A} (p : string) (g : A -> string) (xs : list A) :
  forall disk cur,
    Fs.read disk p = Some (Text cur) ->
    Fs.read (fold_left (fun d x => Fs.append p (g x) d) xs disk) p
    = Some (Text (cur ++ String.concat EmptyString (map g xs))).
Proof.
  induction xs as [|x xs IH]; intros disk cur Hread.
  - cbn [fold_left map String.concat]. now rewrite append_nil_r.
  - cbn [fold_left map]. rewrite concat_empty_cons, <- append_assoc.
    apply IH. now apply read_append.
Qed.

Lemma with_fs_same (st : state) : with_fs (fs st) st = st.
Proof. now destruct st. Qed.

Lemma for_each_f_write {A} (p : string) (g : A -> string) (xs : list A) :
  forall st,
    for_each xs (fun x => f_write p (g x)) st
    = (Ok tt, with_fs (fold_left (fun d x => Fs.append p (g x) d) xs (fs st)) st).
Proof.
  induction xs as [|x xs IH]; intros st.
  - cbn [for_each fold_left]. unfold ret. now rewrite with_fs_same.
  - cbn [for_each fold_left]. unfold bind, f_write at 1. rewrite IH.
    run_simpl. reflexivity.
Qed.

Ltac read_appends H :=
  repeat first [apply read_append | apply read_append_each]; exact H.

(** One pass of the loop of [export_sample_queries]. *)
Lemma sample_query_run (file : string) (entry : string * string) (st : state)
    (cur : string) :
  open_connection st -> benign (db st) ->
  Fs.read (fs st) file = Some (Text cur) ->
  let r := respond (db st) (conn st) (Sql (snd entry)) (SqlSem.other (snd entry)) in
  exists st',
    sample_query file entry st = (Ok tt, st')
    /\ db st' = db st
    /\ conn st'
       = after (conn st)
           (accept (db st) (conn st) (Sql (snd entry)) (SqlSem.other (snd entry)))
    /\ sent st' = (sent st ++ [Sql (snd entry)])%list

    /\ Fs.read (fs st') file = Some (Text (cur ++ section_text entry r)).
Proof.
  intros Hopen Hbenign Hread r. destruct entry as [query_name query_sql].
  cbn [snd] in r.
  pose proof (respond_raises (db st) (conn st) (Sql query_sql) (SqlSem.other query_sql))
    as Hraise.
  unfold sample_query, try_except, bind, execute, f_write at 1 2 3 4 5 6 8, ret.
  run_simpl. fold r.
  unfold section_text, query_heading. cbn [fst snd].
  destruct r as [rs|e] eqn:Hr.
  - rewrite for_each_f_write. run_simpl.
    eexists. split; [reflexivity|]. run_simpl. repeat split.
    unfold f_write. run_simpl.
    eapply eq_trans; [read_appends Hread|].
    unfold results_text. repeat rewrite append_assoc. reflexivity.
  - rewrite (Hraise e Hbenign (other_raises query_sql (db st)) Hr).
    unfold f_write. run_simpl.
    eexists. split; [reflexivity|]. run_simpl. repeat split.
    eapply eq_trans; [read_appends Hread|].
    unfold error_text. repeat rewrite append_assoc. reflexivity.
Qed.

Lemma sample_queries_loop (file : string) (queries : list (string * string)) :
  forall st cur,
    open_connection st -> benign (db st) ->
    Fs.read (fs st) file = Some (Text cur) ->
    exists st',
      for_each queries (sample_query file) st = (Ok tt, st')
      /\ db st' = db st
      /\ open_connection st'
      /\ sent st' = (sent st ++ map (fun q => Sql (snd q)) queries)%list
      /\ Fs.read (fs st') file
         = Some (Text (cur ++ sections_text queries
                                (query_outcomes (db st) (conn st) queries))).
Proof.
  induction queries as [|entry queries IH]; intros st cur Hopen Hbenign Hread.
  - exists st. cbn [for_each map sections_text]. unfold ret.
    rewrite app_nil_r, append_nil_r. repeat split; trivial.
  - cbn [for_each]. unfold bind.
    destruct (sample_query_run file entry st cur Hopen Hbenign Hread)
      as (st1 & Hrun1 & Hdb1 & Hconn1 & Hsent1 & Hread1).
    rewrite Hrun1.
    assert (open_connection st1) as Hopen1.
    { unfold open_connection. rewrite Hconn1. now apply after_open. }
    assert (benign (db st1)) as Hbenign1 by now rewrite Hdb1.
    destruct (IH st1 _ Hopen1 Hbenign1 Hread1)
      as (st' & Hrun & Hdb & Hopen' & Hsent & Hread').
    exists st'. split; [exact Hrun|]. split; [now rewrite Hdb, Hdb1|].
    split; [exact Hopen'|]. split.
    + rewrite Hsent, Hsent1. cbn [map]. now rewrite <- app_assoc.
    + rewrite Hread'. rewrite Hdb1, Hconn1. destruct entry as [query_name query_sql].
      cbn [query_outcomes sections_text snd]. now rewrite append_assoc.
Qed.

Lemma open_w_reads_empty (p : string) (disk opened : filesystem) :
  Fs.open_w p disk = Ok opened -> Fs.read opened p = Some (Text EmptyString).
Proof.
  unfold Fs.open_w. intros H. repeat break_match; invert_run.
  unfold Fs.read. cbn [files]. apply get_set_same.
Qed.

Lemma query_outcomes_length (srv : server) (queries : list (string * string)) :
  forall c, length (query_outcomes srv c queries) = length queries.
Proof.
  induction queries as [|[n q] queries IH]; intros c; simpl; [reflexivity|].
  now rewrite IH.
Qed.

(** C6. In the Sample Query Runner every query of the fixed set is executed,
    in order, whatever queries before it failed; the results file holds,
    after its preamble, one section per query, made of the query's heading
    followed by its results or, when the query failed, by its error message
    in their place; and the runner ends normally. *)
Theorem sample_queries_survive_failures (st : state) (opened : filesystem) :
  open_connection st ->
  benign (db st) ->
  Fs.open_w (results_path (output_dir st)) (fs st) = Ok opened ->
  exists st',
    export_sample_queries st = (Ok tt, st')
    /\ sent st' = (sent st ++ map (fun q => Sql (snd q)) sample_queries)%list
    /\ length (query_outcomes (db st) (conn st) sample_queries)
       = length sample_queries
    /\ Fs.read (fs st') (results_path (output_dir st))
       = Some (Text (results_preamble
                     ++ sections_text sample_queries
                          (query_outcomes (db st) (conn st) sample_queries))).
Proof.
  intros Hopen Hbenign Hfile.
  unfold export_sample_queries, bind, get_output_dir, open_w, f_write, cursor.
  run_simpl. rewrite Hfile. run_simpl.
  assert (exists c, conn st = Some c /\ c <> Closed) as (c & Hc & Hnot).
  { destruct Hopen as [H|H]; rewrite H; eexists; split; eauto; discriminate. }
  rewrite Hc. destruct c; [| |contradiction].
  all: match goal with
       | |- context [for_each sample_queries ?body ?s] =>
           destruct (sample_queries_loop (results_path (output_dir st)) sample_queries
                       s results_preamble)
             as (st1 & Hrun & Hdb & Hopen1 & Hsent & Hread)
       end;
    [ unfold open_connection; run_simpl; rewrite Hc; auto
    | exact Hbenign
    | run_simpl; unfold results_preamble;
      eapply eq_trans;
        [read_appends (open_w_reads_empty _ _ _ Hfile)|reflexivity]
    | ];
    rewrite Hrun; unfold print; run_simpl;
    eexists; (split; [reflexivity|]); run_simpl;
    run_simpl; rewrite Hc in *;
    repeat split; auto using query_outcomes_length.
Qed.

(** On the demonstration server the first query succeeds, the second is
    rejected and the last two are refused by the aborted transaction; all
    four are executed and the runner ends normally. *)
Lemma sample_queries_survive_failures_witness :
  open_connection Demo.ready
  /\ benign (db Demo.ready)
  /\ (exists opened,
        Fs.open_w (results_path (output_dir Demo.ready)) (fs Demo.ready) = Ok opened)
  /\ query_outcomes (db Demo.ready) (conn Demo.ready) sample_queries
     = [Ok Demo.sessions;
        Raise (PyError "ProgrammingError" "the server rejected the statement");
        Raise (PyError "InFailedSqlTransaction"
                 "current transaction is aborted, commands ignored until end of transaction block");
        Raise (PyError "InFailedSqlTransaction"
                 "current transaction is aborted, commands ignored until end of transaction block")]
  /\ exists st',
       export_sample_queries Demo.ready = (Ok tt, st')
       /\ sent st'
          = (sent Demo.ready
             ++ [Sql sql_sessions_overview; Sql sql_tick_performance;
                 Sql sql_player_locations; Sql sql_recent_activity])%list.
Proof.
  assert (open_connection Demo.ready) as Hopen by (left; reflexivity).
  assert (benign (db Demo.ready)) as Hbenign by (intros stmt at_call e H; discriminate H).
  destruct (Fs.open_w (results_path (output_dir Demo.ready)) (fs Demo.ready))
    as [opened|e] eqn:Hfile; [|vm_compute in Hfile; discriminate Hfile].
  split; [exact Hopen|]. split; [exact Hbenign|]. split; [now exists opened|].
  split; [vm_compute; reflexivity|].
  destruct (sample_queries_survive_failures Demo.ready opened Hopen Hbenign Hfile)
    as (st' & Hrun & Hsent & _).
  exists st'. split; [exact Hrun|exact Hsent].
Defined.

(** ** The process *)

(** C7, as amended.  The process exits with status zero on a fully successful
    run.  When an exception of class [Exception] escapes the extraction it
    prints the error banner and then ends normally as well, with status
    zero: the handler neither re-raises nor calls [sys.exit].  A keyboard
    interrupt is handled on a path of its own, which prints the cancellation
    message and no error banner. *)
Theorem main_exit_status (now_start now_summary : datetime) (srv : server)
    (disk : filesystem) :
  let run := run_extraction now_start now_summary (init srv disk) in
  match fst run with
  | Ok _ => main now_start now_summary srv disk = (0, snd run)
  | Raise (PyError cls msg) =>
      main now_start now_summary srv disk
      = (0, with_console
              (console (snd run) ++ [nl ++ "[ERROR] Extraction failed: " ++ msg])
              (snd run))
  | Raise KeyboardInterrupt =>
      main now_start now_summary srv disk
      = (0, with_console
              (console (snd run) ++ [nl ++ "[WARN] Extraction cancelled by user"])
              (snd run))
  | Raise (SystemExit code) => main now_start now_summary srv disk = (code, snd run)
  end.
Proof.
  unfold main. cbv zeta.
  destruct (run_extraction now_start now_summary (init srv disk)) as [[u|[cls msg| |code]] st];
    reflexivity.
Qed.

(** C7 as stated fails: the connection is refused, the exception escapes
    [run_extraction], the error banner is printed, and the exit status is
    zero. *)
Lemma failed_run_exits_zero :
  fst (run_extraction Demo.t_start Demo.t_summary (init refusing Fs.empty))
  = Raise (PyError "OperationalError" "connection refused")
  /\ fst (main Demo.t_start Demo.t_summary refusing Fs.empty) = 0
  /\ console (snd (main Demo.t_start Demo.t_summary refusing Fs.empty))
     = ["Starting RuneLiteAI Database Extraction";
        "--------------------------------------------------";
        "[ERROR] Database connection failed: connection refused";
        (nl ++ "[ERROR] Extraction failed: connection refused")%string].
Proof. repeat split. Qed.

Example interrupted_run_is_cancelled :
  fst (main Demo.t_start Demo.t_summary interrupted Fs.empty) = 0
  /\ last (console (snd (main Demo.t_start Demo.t_summary interrupted Fs.empty))) EmptyString
     = nl ++ "[WARN] Extraction cancelled by user".
Proof. split; vm_compute; reflexivity. Qed.

Example successful_run_exits_zero :
  fst (run_extraction Demo.t_start Demo.t_summary (init Demo.srv Fs.empty)) = Ok tt
  /\ fst (main Demo.t_start Demo.t_summary Demo.srv Fs.empty) = 0
  /\ last (console (snd (main Demo.t_start Demo.t_summary Demo.srv Fs.empty))) EmptyString
     = "==================================================".
Proof. repeat split; vm_compute; reflexivity. Qed.

Lemma refused_connection_is_reported (now_start now_summary : datetime)
    (srv : server) (disk : filesystem) (cls msg : string) :
  srv_refuses srv = Some (PyError cls msg) ->
  fst (main now_start now_summary srv disk) = 0
  /\ console (snd (main now_start now_summary srv disk))
     = ["Starting RuneLiteAI Database Extraction";
        repeat_char "-"%char 50;
        "[ERROR] Database connection failed: " ++ msg;
        nl ++ "[ERROR] Extraction failed: " ++ msg]%string.
Proof.
  intros Hrefused.
  unfold main, run_extraction, connect, bind, try_except, print, raise, init.
  run_simpl. rewrite Hrefused. run_simpl. split; reflexivity.
Qed.

(** ** The list of tables *)

Lemma like_any (s : string) : SqlSem.like "%" s = true.
Proof.
  induction s as [|c s IH]; [reflexivity|].
  cbn in *. rewrite IH. reflexivity.
Qed.

(** What the pattern of [get_all_tables] matches: the two letters [pg]
    followed by at least one more character, whatever it is. *)
Lemma like_pg_pattern (name : string) :
  SqlSem.like "pg_%" name = true
  <-> exists c rest, name = String "p" (String "g" (String c rest)).
Proof.
  split.
  - destruct name as [|a [|b [|c rest]]]; intros H.
    + discriminate H.
    + change (Ascii.eqb "p"%char a && false = true) in H.
      rewrite andb_false_r in H. discriminate H.
    + change (Ascii.eqb "p"%char a && (Ascii.eqb "g"%char b && false) = true) in H.
      rewrite !andb_false_r in H. discriminate H.
    + change (Ascii.eqb "p"%char a && (Ascii.eqb "g"%char b && SqlSem.like "%" rest)
              = true) in H.
      apply andb_true_iff in H as [Hp H].
      apply andb_true_iff in H as [Hg _].
      apply Ascii.eqb_eq in Hp, Hg. subst a b. now exists c, rest.
  - intros (c & rest & ->).
    change (SqlSem.like "%" rest = true). apply like_any.
Qed.

Lemma insert_In {A} (le : A -> A -> bool) (x y : A) (l : list A) :
  In y (SqlSem.insert le x l) <-> y = x \/ In y l.
Proof.
  induction l as [|z l IH]; simpl; [intuition|].
  destruct (le x z); simpl; rewrite ?IH; intuition.
Qed.

Lemma order_by_In {A} (le : A -> A -> bool) (y : A) (l : list A) :
  In y (SqlSem.order_by le l) <-> In y l.
Proof.
  unfold SqlSem.order_by.
  induction l as [|x l IH]; simpl; [reflexivity|].
  rewrite insert_In, IH. intuition.
Qed.

Lemma insert_sorted (x : string) (l : list string) :
  Sorted le_true l -> Sorted le_true (SqlSem.insert String.leb x l).
Proof.
  induction 1 as [|y l Hsorted IH Hhd]; simpl.
  - repeat constructor.
  - destruct (String.leb x y) eqn:Hxy.
    + constructor; [now constructor|]. now constructor.
    + constructor; [exact IH|].
      assert (le_true y x) as Hyx.
      { destruct (String.leb_total x y) as [H|H]; [congruence|exact H]. }
      destruct l as [|z l]; simpl.
      * now constructor.
      * destruct (String.leb x z); constructor; [exact Hyx|].
        now inversion Hhd.
Qed.

(** [ORDER BY table_name] leaves the names in ascending order. *)
Lemma order_by_sorted (l : list string) :
  Sorted le_true (SqlSem.order_by String.leb l).
Proof.
  unfold SqlSem.order_by. induction l as [|x l IH]; simpl.
  - constructor.
  - now apply insert_sorted.
Qed.

(** The names [get_all_tables] returns, on a connection that works: in
    ascending order, those of the rows of [information_schema.tables] in
    schema [public] whose name the pattern does not match. *)
Lemma get_all_tables_returns (st : state) :
  conn st = Some InTransaction ->
  srv_fault (db st) (Sql sql_list_tables) = None ->
  exists names st',
    get_all_tables st = (Ok names, st')
    /\ names = SqlSem.order_by String.leb
                 (map snd (filter SqlSem.listed (srv_tables (db st))))
    /\ Sorted le_true names
    /\ forall name,
         In name names
         <-> In ("public", name) (srv_tables (db st))
             /\ SqlSem.like "pg_%" name = false.
Proof.
  intros Hconn Hfault.
  unfold get_all_tables, bind, cursor, execute, print, ret, respond, accept, fetch.
  run_simpl. rewrite Hconn. run_simpl. rewrite Hconn, Hfault.
  cbn [SqlSem.list_tables]. run_simpl.
  eexists _, _. split; [reflexivity|]. split; [reflexivity|].
  split; [apply order_by_sorted|].
  intros name. rewrite order_by_In, in_map_iff. split.
  - intros ([schema name'] & Hname & Hin). cbn in Hname. subst name'.
    apply filter_In in Hin as [Hin Hlisted].
    unfold SqlSem.listed in Hlisted. cbn [fst snd] in Hlisted.
    apply andb_true_iff in Hlisted as [Hschema Hlike].
    apply String.eqb_eq in Hschema. subst schema.
    split; [exact Hin|]. now apply negb_true_iff.
  - intros [Hin Hlike]. exists ("public", name). split; [reflexivity|].
    apply filter_In. split; [exact Hin|].
    unfold SqlSem.listed. cbn [fst snd]. now rewrite Hlike.
Qed.

(** C9 (code defect).  [pgbench_accounts] is a table of schema [public]
    whose name does not begin with [pg_], yet [get_all_tables] leaves it
    out: in the pattern ['pg_%'] the underscore stands for any character. *)
Theorem get_all_tables_omits_pgbench :
  let st := with_conn (Some InTransaction) (init benchmarked Fs.empty) in
  In ("public", "pgbench_accounts") (srv_tables (db st))
  /\ String.prefix "pg_" "pgbench_accounts" = false
  /\ fst (get_all_tables st) = Ok ["game_ticks"; "sessions"].
Proof.
  cbv zeta. split; [right; left; reflexivity|]. split; reflexivity.
Qed.

(** ** The export directory of a run *)

Lemma digit_char_inj (a b : Z) :
  0 <= a < 10 -> 0 <= b < 10 -> digit_char a = digit_char b -> a = b.
Proof.
  intros Ha Hb H. unfold digit_char in H.
  apply (f_equal N_of_ascii) in H.
  rewrite !N_ascii_embedding in H by lia. lia.
Qed.

Lemma digits2_inj (a b : Z) :
  0 <= a < 100 -> 0 <= b < 100 ->
  digit_char (a / 10 mod 10) = digit_char (b / 10 mod 10) ->
  digit_char (a mod 10) = digit_char (b mod 10) ->
  a = b.
Proof.
  intros Ha Hb Htens Hunits.
  apply digit_char_inj in Htens; [|apply Z.mod_pos_bound; lia..].
  apply digit_char_inj in Hunits; [|apply Z.mod_pos_bound; lia..].
  Z.div_mod_to_equations. lia.
Qed.

Lemma digits4_inj (a b : Z) :
  0 <= a < 10000 -> 0 <= b < 10000 ->
  digit_char (a / 1000 mod 10) = digit_char (b / 1000 mod 10) ->
  digit_char (a / 100 mod 10) = digit_char (b / 100 mod 10) ->
  digit_char (a / 10 mod 10) = digit_char (b / 10 mod 10) ->
  digit_char (a mod 10) = digit_char (b mod 10) ->
  a = b.
Proof.
  intros Ha Hb H3 H2 H1 H0.
  apply digit_char_inj in H3; [|apply Z.mod_pos_bound; lia..].
  apply digit_char_inj in H2; [|apply Z.mod_pos_bound; lia..].
  apply digit_char_inj in H1; [|apply Z.mod_pos_bound; lia..].
  apply digit_char_inj in H0; [|apply Z.mod_pos_bound; lia..].
  Z.div_mod_to_equations. lia.
Qed.

(** The timestamp of the directory name determines the second it was taken
    in. *)
Lemma strftime_stamp_inj (a b : datetime) (s s' : string) :
  well_formed a -> well_formed b ->
  strftime_stamp a ++ s = strftime_stamp b ++ s' -> same_second a b.
Proof.
  intros (Hy & Hm & Hd & HH & HM & HS & _) (Hy' & Hm' & Hd' & HH' & HM' & HS' & _) H.
  unfold strftime_stamp, fmt4, fmt2, chr in H. cbn [append] in H.
  injection H as Y3 Y2 Y1 Y0 M1 M0 D1 D0 h1 h0 m1 m0 s1 s0 _.
  unfold same_second. repeat split.
  - apply digits4_inj; trivial; lia.
  - apply digits2_inj; trivial; lia.
  - apply digits2_inj; trivial; lia.
  - apply digits2_inj; trivial; lia.
  - apply digits2_inj; trivial; lia.
  - apply digits2_inj; trivial; lia.
Qed.

Lemma export_root_inj (a b : datetime) :
  well_formed a -> well_formed b -> export_root a = export_root b -> same_second a b.
Proof.
  intros Ha Hb H. unfold export_root in H. cbv zeta in H.
  apply append_inv_head in H.
  apply (strftime_stamp_inj a b EmptyString EmptyString Ha Hb).
  now rewrite !append_nil_r.
Qed.

Lemma prefix_append (a b : string) : String.prefix a (a ++ b) = true.
Proof.
  induction a as [|c a IH]; simpl.
  - now destruct b.
  - destruct (ascii_dec c c); [exact IH|contradiction].
Qed.

Lemma prefix_same_length (a b p : string) :
  String.prefix a p = true -> String.prefix b p = true ->
  String.length a = String.length b -> a = b.
Proof.
  intros Ha Hb Hlen.
  apply prefix_correct in Ha, Hb. rewrite <- Ha, <- Hb. now rewrite Hlen.
Qed.

Lemma export_root_length (t : datetime) : String.length (export_root t) = 31%nat.
Proof. reflexivity. Qed.

(** The directories of two runs started in different seconds have no path
    in common. *)
Lemma under_disjoint (a b : datetime) (p : string) :
  well_formed a -> well_formed b -> ~ same_second a b ->
  under (export_root a) p = true -> under (export_root b) p = false.
Proof.
  intros Ha Hb Hdiff Hpa.
  destruct (under (export_root b) p) eqn:Hpb; [|reflexivity].
  exfalso. apply Hdiff. unfold under in *.
  assert (export_root a ++ "/" = export_root b ++ "/") as Heq.
  { apply (prefix_same_length _ _ p Hpa Hpb).
    now rewrite !length_append, !export_root_length. }
  unfold export_root in Heq. cbv zeta in Heq. rewrite !append_assoc in Heq.
  apply append_inv_head in Heq.
  now apply (strftime_stamp_inj a b "/" "/").
Qed.

(** ** Where a run writes *)

Lemma quiet_confined (root : string) {A} (m : M A) : quiet m -> confined root m.
Proof.
  intros Hq st r st' Hdir Hrun. destruct (Hq st r st' Hrun) as [Hd Hf].
  split; [congruence|]. intros p _. unfold Fs.read. now rewrite Hf.
Qed.

Lemma quiet_ret {A} (a : A) : quiet (ret a).
Proof. intros st r st' H. inversion H. auto. Qed.

Lemma quiet_raise {A} (e : exn) : quiet (@raise A e).
Proof. intros st r st' H. inversion H. auto. Qed.

Lemma quiet_lift {A} (o : outcome A) : quiet (lift o).
Proof. intros st r st' H. inversion H. auto. Qed.

Lemma quiet_print (line : string) : quiet (print line).
Proof. intros st r st' H. inversion H. auto. Qed.

Lemma quiet_get_output_dir : quiet get_output_dir.
Proof. intros st r st' H. inversion H. auto. Qed.

Lemma quiet_cursor : quiet cursor.
Proof.
  intros st r st'. unfold cursor. intros H.
  repeat break_match; invert_run; auto.
Qed.

Lemma quiet_close : quiet close.
Proof.
  intros st r st'. unfold close. intros H.
  repeat break_match; invert_run; auto.
Qed.

Lemma quiet_execute {A} (stmt : statement) (answer : server -> outcome A) :
  quiet (execute stmt answer).
Proof. intros st r st' H. inversion H. auto. Qed.

Lemma quiet_execute_only {A} (stmt : statement) (answer : server -> outcome A) :
  quiet (execute_only stmt answer).
Proof. intros st r st' H. inversion H. auto. Qed.

Lemma quiet_fetchall {A} (stmt : statement) (rows : A) : quiet (fetchall stmt rows).
Proof. intros st r st' H. inversion H. subst. auto. Qed.

Lemma quiet_makedirs (p : string) : quiet (makedirs p).
Proof.
  intros st r st'. unfold makedirs, Fs.makedirs. intros H.
  repeat break_match; invert_run; auto.
Qed.

Lemma quiet_bind {A B} (m : M A) (k : A -> M B) :
  quiet m -> (forall a, quiet (k a)) -> quiet (bind m k).
Proof.
  intros Hm Hk st r st'. unfold bind.
  destruct (m st) as [[a|e] st1] eqn:Hrun; intros H.
  - destruct (Hm _ _ _ Hrun) as [Hd1 Hf1].
    destruct (Hk a _ _ _ H) as [Hd2 Hf2]. split; congruence.
  - inversion H; subst. eauto.
Qed.

Lemma quiet_try {A} (body : M A) (handler : exn -> M A) :
  quiet body -> (forall e, quiet (handler e)) -> quiet (try_except body handler).
Proof.
  intros Hb Hh st r st'. unfold try_except.
  destruct (body st) as [[a|e] st1] eqn:Hrun; intros H.
  - inversion H; subst. eauto.
  - destruct (Hb _ _ _ Hrun) as [Hd1 Hf1]. destruct (is_Exception e).
    + destruct (Hh e _ _ _ H) as [Hd2 Hf2]. split; congruence.
    + inversion H; subst. auto.
Qed.

Lemma quiet_for_each {A} (xs : list A) (body : A -> M unit) :
  (forall x, quiet (body x)) -> quiet (for_each xs body).
Proof.
  intros Hbody. induction xs as [|x xs IH]; cbn [for_each].
  - apply quiet_ret.
  - apply quiet_bind; auto.
Qed.

Lemma confined_bind (root : string) {A B} (m : M A) (k : A -> M B) :
  confined root m -> (forall a, confined root (k a)) -> confined root (bind m k).
Proof.
  intros Hm Hk st r st' Hdir. unfold bind.
  destruct (m st) as [[a|e] st1] eqn:Hrun; intros H.
  - destruct (Hm _ _ _ Hdir Hrun) as [Hd1 Hf1].
    destruct (Hk a _ _ _ Hd1 H) as [Hd2 Hf2]. split; [exact Hd2|].
    intros p Hp. now rewrite Hf2, Hf1.
  - inversion H; subst. eauto.
Qed.

(** [root <- self.output_dir]: the continuation runs with the directory
    the state holds. *)
Lemma confined_bind_dir (root : string) {B} (k : string -> M B) :
  confined root (k root) -> confined root (bind get_output_dir k).
Proof.
  intros Hk st r st' Hdir. unfold bind, get_output_dir. rewrite Hdir.
  now apply Hk.
Qed.

Lemma confined_try (root : string) {A} (body : M A) (handler : exn -> M A) :
  confined root body -> (forall e, confined root (handler e)) ->
  confined root (try_except body handler).
Proof.
  intros Hb Hh st r st' Hdir. unfold try_except.
  destruct (body st) as [[a|e] st1] eqn:Hrun; intros H.
  - inversion H; subst. eauto.
  - destruct (Hb _ _ _ Hdir Hrun) as [Hd1 Hf1]. destruct (is_Exception e).
    + destruct (Hh e _ _ _ Hd1 H) as [Hd2 Hf2]. split; [exact Hd2|].
      intros p Hp. now rewrite Hf2, Hf1.
    + inversion H; subst. auto.
Qed.

Lemma confined_for_each (root : string) {A} (xs : list A) (body : A -> M unit) :
  (forall x, confined root (body x)) -> confined root (for_each xs body).
Proof.
  intros Hbody. induction xs as [|x xs IH]; cbn [for_each].
  - apply quiet_confined, quiet_ret.
  - apply confined_bind; auto.
Qed.

Lemma under_differs (root p q : string) :
  under root p = true -> under root q = false -> p <> q.
Proof. intros Hp Hq ->. congruence. Qed.

Lemma confined_open_w (root p : string) :
  under root p = true -> confined root (open_w p).
Proof.
  intros Hp st r st' Hdir. unfold open_w, Fs.open_w. intros H.
  repeat break_match; invert_run; run_simpl; (split; [reflexivity|]); auto.
  intros q Hq. unfold Fs.read. cbn [files].
  apply get_set_other. eapply under_differs; eauto.
Qed.

Lemma confined_f_write (root p s : string) :
  under root p = true -> confined root (f_write p s).
Proof.
  intros Hp st r st' Hdir. unfold f_write, Fs.append. intros H.
  invert_run; run_simpl. split; [reflexivity|].
  intros q Hq. unfold Fs.read.
  repeat break_match; cbn [files]; apply get_set_other; eapply under_differs; eauto.
Qed.

Lemma confined_json_dump (root p : string) (doc : json) :
  under root p = true -> confined root (json_dump p doc).
Proof.
  intros Hp st r st' Hdir. unfold json_dump, Fs.dump. intros H.
  invert_run; run_simpl. split; [reflexivity|].
  intros q Hq. unfold Fs.read. cbn [files].
  apply get_set_other. eapply under_differs; eauto.
Qed.

Lemma under_root (root rest : string) : under root (root ++ "/" ++ rest) = true.
Proof. unfold under. rewrite <- append_assoc. apply prefix_append. Qed.

Lemma under_csv_path (root t : string) : under root (csv_path root t) = true.
Proof. apply (under_root root ("csv/" ++ t ++ ".csv")). Qed.

Lemma under_json_path (root t : string) : under root (json_path root t) = true.
Proof. apply (under_root root ("json/" ++ t ++ ".json")). Qed.

Lemma under_results_path (root : string) : under root (results_path root) = true.
Proof. apply (under_root root "summary/sample_queries_results.txt"). Qed.

Lemma under_summary_json (root : string) :
  under root (root ++ "/summary/database_summary.json") = true.
Proof. apply (under_root root "summary/database_summary.json"). Qed.

Lemma under_summary_txt (root : string) :
  under root (root ++ "/summary/database_summary.txt") = true.
Proof. apply (under_root root "summary/database_summary.txt"). Qed.

Create HintDb frame.

#[local] Hint Resolve under_summary_json under_summary_txt quiet_ret quiet_raise quiet_lift quiet_print quiet_get_output_dir
  quiet_cursor quiet_close quiet_execute quiet_execute_only quiet_fetchall quiet_makedirs
  under_csv_path under_json_path under_results_path under_root : frame.

Ltac frame :=
  repeat first
    [ progress cbv zeta
    | apply confined_bind_dir
    | apply confined_bind; [|intros]
    | apply confined_try; [|intros]
    | apply confined_for_each; intros
    | apply confined_open_w; solve [auto with frame]
    | apply confined_f_write; solve [auto with frame]
    | apply confined_json_dump; solve [auto with frame]
    | apply quiet_confined; solve [auto with frame] ].

Lemma confined_export_table_to_csv (root t : string) :
  confined root (export_table_to_csv t).
Proof. unfold export_table_to_csv. frame. Qed.

Lemma confined_export_table_to_json (root t : string) (limit : Z) :
  confined root (export_table_to_json t limit).
Proof. unfold export_table_to_json. frame. Qed.

Lemma confined_export_tables (root : string) (table_names : list string) :
  confined root (export_tables table_names).
Proof.
  unfold export_tables. apply confined_for_each. intros t.
  apply confined_bind; [frame|intros].
  apply confined_bind; [apply confined_export_table_to_csv|intros].
  apply confined_bind; [apply confined_export_table_to_json|intros]. frame.
Qed.

Lemma confined_table_block (root rest : string) (entry : string * table_summary) :
  confined root (table_block (root ++ "/" ++ rest) entry).
Proof.
  destruct entry as [table_name info]. unfold table_block. frame.
  destruct x as [[name type] nullable]. frame.
Qed.

Lemma confined_generate_summary_report (root : string) (now : datetime)
    (tables_info : dict table_info) :
  confined root (generate_summary_report now tables_info).
Proof.
  unfold generate_summary_report. frame.
  apply (confined_table_block root "summary/database_summary.txt").
Qed.

Lemma confined_sample_query (root : string) (entry : string * string) :
  confined root (sample_query (results_path root) entry).
Proof. destruct entry as [query_name query_sql]. unfold sample_query. frame. Qed.

Lemma confined_export_sample_queries (root : string) :
  confined root export_sample_queries.
Proof.
  unfold export_sample_queries. frame.
Qed.

Lemma quiet_connect : quiet connect.
Proof.
  unfold connect. apply quiet_try.
  - apply quiet_bind; [|auto with frame].
    intros st r st' H. repeat break_match; invert_run; auto.
  - intros e. apply quiet_bind; auto with frame.
Qed.

Lemma quiet_get_all_tables : quiet get_all_tables.
Proof.
  unfold get_all_tables.
  repeat (apply quiet_bind; [auto with frame|intros]). auto with frame.
Qed.

Lemma quiet_get_table_info (t : string) : quiet (get_table_info t).
Proof.
  unfold get_table_info.
  repeat (apply quiet_bind; [auto with frame|intros]). auto with frame.
Qed.

Lemma quiet_collect_info (table_names : list string) :
  forall tables_info, quiet (collect_info table_names tables_info).
Proof.
  induction table_names as [|t ts IH]; intros tables_info; cbn [collect_info].
  - apply quiet_ret.
  - apply quiet_bind; [apply quiet_get_table_info|intros].
    apply quiet_bind; [auto with frame|intros]. apply IH.
Qed.

(** [create_output_structure] names the directory after the clock and
    creates directories only. *)
Lemma create_output_structure_run (now : datetime) (st : state) :
  forall r st', create_output_structure now st = (r, st') ->
    output_dir st' = export_root now /\ files (fs st') = files (fs st).
Proof.
  intros r st'. unfold create_output_structure. unfold bind at 1.
  intros H.
  assert (quiet (root <- get_output_dir ;;
                 for_each (directories root) makedirs ;;
                 print ("[INFO] Created export directory: " ++ root))) as Hq.
  { apply quiet_bind; [auto with frame|intros].
    apply quiet_bind; [|auto with frame].
    apply quiet_for_each. auto with frame. }
  destruct (Hq _ _ _ H) as [Hd Hf]. run_simpl. auto.
Qed.

(** A run leaves every file outside its own export directory as it was. *)
Lemma run_extraction_confined (now_start now_summary : datetime) (st : state) :
  forall r st', run_extraction now_start now_summary st = (r, st') ->
    forall p, under (export_root now_start) p = false ->
      Fs.read (fs st') p = Fs.read (fs st) p.
Proof.
  intros r st'. unfold run_extraction.
  assert (forall {A B} (m : M A) (k : A -> M B) s r' s',
             quiet m -> bind m k s = (r', s') ->
             (r' = match fst (m s) with Raise e => Raise e | Ok _ => r' end)
             /\ files (fs (snd (m s))) = files (fs s)
             /\ (forall a, fst (m s) = Ok a -> k a (snd (m s)) = (r', s'))
             /\ (forall e, fst (m s) = Raise e -> s' = snd (m s))) as Hstep.
  { intros A B m k s r' s' Hq. unfold bind.
    destruct (m s) as [[a|e] s1] eqn:Hm; cbn [fst snd]; intros H.
    - destruct (Hq _ _ _ Hm) as [_ Hf]. repeat split; trivial.
      + now intros a' [= <-].
      + discriminate.
    - destruct (Hq _ _ _ Hm) as [_ Hf]. inversion H; subst.
      repeat split; trivial. discriminate. }
  intros H p Hp. unfold Fs.read.
  (* the two opening lines and [connect] *)
  apply Hstep in H; [|auto with frame]. destruct H as (_ & Hf1 & Hk1 & He1).
  destruct (fst (print "Starting RuneLiteAI Database Extraction" st)) eqn:H1;
    [|discriminate H1].
  specialize (Hk1 _ eq_refl). clear He1.
  apply Hstep in Hk1; [|auto with frame]. destruct Hk1 as (_ & Hf2 & Hk2 & He2).
  match type of Hk2 with
  | forall a, fst ?ms = Ok a -> _ => destruct ms as [[u|e] s2] eqn:H2; [|discriminate H2]
  end.
  cbn [fst snd] in *. specialize (Hk2 _ eq_refl). clear He2.
  apply Hstep in Hk2; [|apply quiet_connect]. destruct Hk2 as (_ & Hf3 & Hk3 & He3).
  destruct (connect s2) as [[u3|e3] s3] eqn:H3; cbn [fst snd] in *.
  2: { rewrite (He3 _ eq_refl). congruence. }
  specialize (Hk3 _ eq_refl). clear He3.
  (* [create_output_structure] and what follows it *)
  unfold bind at 1 in Hk3.
  destruct (create_output_structure now_start s3) as [[u4|e4] s4] eqn:H4.
  2: { inversion Hk3; subst. destruct (create_output_structure_run _ _ _ _ H4) as [_ Hf4].
       congruence. }
  destruct (create_output_structure_run _ _ _ _ H4) as [Hd4 Hf4].
  assert (confined (export_root now_start)
            (table_names <- get_all_tables ;;
             tables_info <- collect_info table_names empty ;;
             print (nl ++ repeat_char "="%char 50) ;;
             print "Exporting Data..." ;;
             print (repeat_char "="%char 50) ;;
             export_tables table_names ;;
             generate_summary_report now_summary tables_info ;;
             export_sample_queries ;;
             close ;;
             print (nl ++ repeat_char "="%char 50) ;;
             print "[SUCCESS] Database extraction completed!" ;;
             root <- get_output_dir ;;
             print ("[INFO] Results saved to: " ++ root) ;;
             print (repeat_char "="%char 50))) as Hrest.
  { apply confined_bind; [apply quiet_confined, quiet_get_all_tables|intros names].
    apply confined_bind; [apply quiet_confined, quiet_collect_info|intros infos].
    do 3 (apply confined_bind; [frame|intros]).
    apply confined_bind; [apply confined_export_tables|intros].
    apply confined_bind; [apply confined_generate_summary_report|intros].
    apply confined_bind; [apply confined_export_sample_queries|intros].
    frame. }
  destruct (Hrest _ _ _ Hd4 Hk3) as [_ Hread].
  specialize (Hread p Hp). unfold Fs.read in Hread. congruence.
Qed.

Lemma main_confined (now_start now_summary : datetime) (srv : server)
    (disk : filesystem) (p : string) :
  under (export_root now_start) p = false ->
  Fs.read (fs (snd (main now_start now_summary srv disk))) p = Fs.read disk p.
Proof.
  intros Hp. unfold main.
  destruct (run_extraction now_start now_summary (init srv disk)) as [r st] eqn:Hrun.
  pose proof (run_extraction_confined _ _ _ _ _ Hrun p Hp) as Hread.
  destruct r as [u|[cls msg| |code]]; exact Hread.
Qed.

(** C8, as amended.  Two runs whose clock readings at the start fall in
    different seconds get distinct export directories, and the later run
    leaves every file below the directory of the earlier one as the earlier
    run left it.  The name carries the reading to the second only. *)
Theorem later_run_keeps_earlier_export (first_start first_summary : datetime)
    (second_start second_summary : datetime) (srv srv' : server) (disk : filesystem) :
  well_formed first_start ->
  well_formed second_start ->
  ~ same_second first_start second_start ->
  let after_first := fs (snd (main first_start first_summary srv disk)) in
  let after_second := fs (snd (main second_start second_summary srv' after_first)) in
  export_root first_start <> export_root second_start
  /\ forall p, under (export_root first_start) p = true ->
               Fs.read after_second p = Fs.read after_first p.
Proof.
  intros Hfirst Hsecond Hdiff after_first after_second. split.
  - intros Heq. apply Hdiff. now apply export_root_inj.
  - intros p Hp. apply main_confined.
    now apply (under_disjoint first_start second_start).
Qed.

Lemma later_run_keeps_earlier_export_witness :
  well_formed Demo.t_start
  /\ well_formed TwoRuns.next_second
  /\ ~ same_second Demo.t_start TwoRuns.next_second
  /\ export_root Demo.t_start <> export_root TwoRuns.next_second
  /\ Fs.read
       (fs (snd (main TwoRuns.next_second Demo.t_summary TwoRuns.later_srv
                   TwoRuns.after_first)))
       "database_export_20250807_140309/csv/sessions.csv"
     = Fs.read TwoRuns.after_first "database_export_20250807_140309/csv/sessions.csv".
Proof.
  assert (well_formed Demo.t_start) as H1 by (unfold well_formed; cbn; lia).
  assert (well_formed TwoRuns.next_second) as H2 by (unfold well_formed; cbn; lia).
  assert (~ same_second Demo.t_start TwoRuns.next_second) as H3.
  { unfold same_second. cbn. lia. }
  destruct (later_run_keeps_earlier_export Demo.t_start Demo.t_summary
              TwoRuns.next_second Demo.t_summary Demo.srv TwoRuns.later_srv Fs.empty
              H1 H2 H3) as [Hnames Hfiles].
  split; [exact H1|]. split; [exact H2|]. split; [exact H3|].
  split; [exact Hnames|].
  apply Hfiles. reflexivity.
Defined.

(** C8 as stated fails for two runs started within the same second: both
    use the directory [database_export_20250807_140309], and the second run
    replaces the CSV file the first one wrote for [sessions]. *)
Lemma same_second_runs_collide :
  well_formed Demo.t_start
  /\ well_formed TwoRuns.same_second_later
  /\ microsecond Demo.t_start <> microsecond TwoRuns.same_second_later
  /\ export_root Demo.t_start = export_root TwoRuns.same_second_later
  /\ Fs.read TwoRuns.after_first "database_export_20250807_140309/csv/sessions.csv"
     = Some (Text (Csv.writerow (map VStr (description Demo.sessions))
                   ++ Csv.writerows (fetched Demo.sessions)))
  /\ Fs.read
       (fs (snd (main TwoRuns.same_second_later Demo.t_summary TwoRuns.later_srv
                   TwoRuns.after_first)))
       "database_export_20250807_140309/csv/sessions.csv"
     = Some (Text ("session_id" ++ crlf)).
Proof.
  split; [unfold well_formed; cbn; lia|].
  split; [unfold well_formed; cbn; lia|].
  split; [cbn; lia|].
  split; [reflexivity|].
  split; vm_compute; reflexivity.
Qed.

(** ** The summary files *)

Lemma touches_quiet (p : string) {A} (m : M A) : quiet m -> touches p m.
Proof.
  intros Hq st r st' Hrun q _. destruct (Hq _ _ _ Hrun) as [_ Hf].
  unfold Fs.read. now rewrite Hf.
Qed.

Lemma touches_bind (p : string) {A B} (m : M A) (k : A -> M B) :
  touches p m -> (forall a, touches p (k a)) -> touches p (bind m k).
Proof.
  intros Hm Hk st r st'. unfold bind.
  destruct (m st) as [[a|e] st1] eqn:Hrun; intros H q Hq.
  - rewrite (Hk a _ _ _ H q Hq). now apply (Hm _ _ _ Hrun).
  - inversion H; subst. now apply (Hm _ _ _ Hrun).
Qed.

Lemma touches_for_each (p : string) {A} (xs : list A) (body : A -> M unit) :
  (forall x, touches p (body x)) -> touches p (for_each xs body).
Proof.
  intros Hbody. induction xs as [|x xs IH]; cbn [for_each].
  - apply touches_quiet, quiet_ret.
  - apply touches_bind; auto.
Qed.

Lemma touches_open_w (p : string) : touches p (open_w p).
Proof.
  intros st r st'. unfold open_w, Fs.open_w. intros H q Hq.
  repeat break_match; invert_run; run_simpl; trivial.
  unfold Fs.read. cbn [files]. apply get_set_other. congruence.
Qed.

Lemma touches_f_write (p s : string) : touches p (f_write p s).
Proof.
  intros st r st'. unfold f_write, Fs.append. intros H q Hq.
  invert_run; run_simpl. unfold Fs.read.
  repeat break_match; cbn [files]; apply get_set_other; congruence.
Qed.

Lemma touches_table_block (p : string) (entry : string * table_summary) :
  touches p (table_block p entry).
Proof.
  destruct entry as [table_name info]. unfold table_block.
  repeat (apply touches_bind; [apply touches_f_write|intros]).
  apply touches_bind; [|intros; apply touches_f_write].
  apply touches_for_each. intros [[name type] nullable]. apply touches_f_write.
Qed.

(** What [generate_summary_report] leaves in [database_summary.json]. *)
Lemma generate_summary_report_writes (now : datetime) (tables_info : dict table_info)
    (st st' : state) :
  generate_summary_report now tables_info st = (Ok tt, st') ->
  Fs.read (fs st') (summary_json_path (output_dir st))
  = Some (Json (summary_json (build_summary now tables_info))).
Proof.
  unfold generate_summary_report, summary_json_path. cbv zeta.
  unfold bind at 1 2 3. unfold get_output_dir, open_w at 1, json_dump.
  destruct (Fs.open_w (output_dir st ++ "/summary/database_summary.json") (fs st))
    as [opened|e] eqn:Hopen; [|discriminate].
  run_simpl. intros Hrest.
  match type of Hrest with
  | ?m ?s = _ =>
      assert (touches (output_dir st ++ "/summary/database_summary.txt") m) as Htouch
  end.
  { apply touches_bind; [apply touches_open_w|intros].
    repeat (apply touches_bind; [apply touches_f_write|intros]).
    apply touches_bind; [|intros; apply touches_quiet, quiet_print].
    apply touches_for_each. intros entry. apply touches_table_block. }
  rewrite (Htouch _ _ _ Hrest).
  - run_simpl. unfold Fs.read, Fs.dump. cbn [files]. apply get_set_same.
  - intros Heq. apply append_inv_head in Heq. discriminate Heq.
Qed.

(** C3. The Summary Document of [generate_summary_report] has [total_tables]
    equal to the number of Table Descriptors and [total_rows] equal to the
    sum of their [row_count]s, for every collection of descriptors, the
    empty one included; it is the document the method writes to
    [database_summary.json], which carries these two numbers. *)
Theorem summary_totals (now : datetime) (tables_info : dict table_info) :
  let s := build_summary now tables_info in
  total_tables s = length (items tables_info)
  /\ total_rows s = sum_rows (values tables_info)
  /\ json_member "total_tables" (summary_json s)
     = Some (JInt (Z.of_nat (length (items tables_info))))
  /\ json_member "total_rows" (summary_json s)
     = Some (JInt (sum_rows (values tables_info)))
  /\ forall st st',
       generate_summary_report now tables_info st = (Ok tt, st') ->
       Fs.read (fs st') (summary_json_path (output_dir st)) = Some (Json (summary_json s)).
Proof.
  cbv zeta. split; [|split; [|split; [|split]]].
  5: { intros st st'. apply generate_summary_report_writes. }
  all: unfold build_summary;
    pose proof (summarise_rows (items tables_info) empty 0) as Hrows;
    destruct (summarise (items tables_info) empty 0) as [tbls rows];
    simpl in Hrows; subst rows; reflexivity.
Qed.

(** The scenario of two tables, [sessions] with five rows and [game_ticks]
    with none: the summary written has two tables and five rows. *)
Lemma summary_totals_witness :
  let tables_info :=
    set (set empty "game_ticks" (mk_info [] 0))
        "sessions" (mk_info [("session_id", "integer", "NO")] 5) in
  exists st' doc,
    generate_summary_report Demo.t_summary tables_info Demo.ready = (Ok tt, st')
    /\ Fs.read (fs st') "database_export_20250807_140309/summary/database_summary.json"
       = Some (Json doc)
    /\ json_member "total_tables" doc = Some (JInt 2)
    /\ json_member "total_rows" doc = Some (JInt 5).
Proof.
  intros tables_info.
  destruct (generate_summary_report Demo.t_summary tables_info Demo.ready)
    as [r st'] eqn:Hrun.
  assert (r = Ok tt) as -> by (vm_compute in Hrun; now inversion Hrun).
  destruct (summary_totals Demo.t_summary tables_info)
    as (_ & _ & Htables & Hrows & Hfile).
  exists st', (summary_json (build_summary Demo.t_summary tables_info)).
  split; [reflexivity|]. split; [exact (Hfile _ _ Hrun)|].
  split; [exact Htables|exact Hrows].
Defined.

Example summary_of_empty_collection (now : datetime) :
  total_tables (build_summary now empty) = 0%nat
  /\ total_rows (build_summary now empty) = 0.
Proof. split; reflexivity. Qed.

(** * Further properties of the extractor *)

(** ** The outcome of a CSV export *)

(** X1. [export_table_to_csv] opens the CSV file and writes the header
    before it fetches the rows.  It returns [True] exactly when its query
    succeeds, the file can be opened and the rows can be fetched.  When the
    query or [open] fails, the filesystem is left as it was, so that no
    file is created.  When the fetch fails, the file is left holding the
    header record alone, whatever it held before.  On a failure of class
    [Exception] the method returns [False]; a failure of another class, at
    the query or at the fetch, it lets through. *)


(** A failure of the fetch happens in the client: both exports of the table
    fail, the CSV export leaving its header and the JSON export no file,
    and the transaction goes on, so that the table after it is exported. *)
Example fetch_failure_leaves_transaction_open :
  let st' := snd (export_tables ["sessions"; "game_ticks"] out_of_range_ready) in
  console st'
  = (console out_of_range_ready
     ++ [(nl ++ "Processing table: sessions")%string;
         "[WARN] Failed to export sessions to CSV: year 10000 is out of range";
         "[WARN] Failed to export sessions to JSON: year 10000 is out of range";
         (nl ++ "Processing table: game_ticks")%string;
         "[CSV] Exported game_ticks to CSV";
         "[JSON] Exported game_ticks to JSON (0 records)"])%list
  /\ conn st' = Some InTransaction
  /\ Fs.read (fs st') "database_export_20250807_140309/csv/sessions.csv"
     = Some (Text ("session_id,player_name,start_time" ++ crlf))
  /\ Fs.read (fs st') "database_export_20250807_140309/json/sessions.json" = None.
Proof. cbv zeta. repeat split; vm_compute; reflexivity. Qed.


(** A table the server does not know, a table it knows, and a table whose
    rows the driver cannot fetch: the last export returns [False] and
    leaves a file with the header line alone. *)



(** ** The conversion of rows *)

Lemma convert_cells_fits (column_names : list string) (row : list pyvalue) :
  forall i row_dict,
    (i + length row <= length column_names)%nat ->
    exists result, convert_cells column_names i row row_dict = Ok result.
Proof.
  induction row as [|v row IH]; intros i d Hfit; cbn [convert_cells].
  - now exists d.
  - cbn [length] in Hfit.
    destruct (nth_error column_names i) as [name|] eqn:Hname.
    + apply IH. lia.
    + apply nth_error_None in Hname. lia.
Qed.

Lemma convert_cells_overflow (column_names : list string) (row : list pyvalue) :
  forall i row_dict,
    (i <= length column_names)%nat ->
    (length column_names < i + length row)%nat ->
    convert_cells column_names i row row_dict
    = Raise (PyError "IndexError" "list index out of range").
Proof.
  induction row as [|v row IH]; intros i d Hi Hover; cbn [convert_cells].
  - cbn [length] in Hover. lia.
  - cbn [length] in Hover.
    destruct (nth_error column_names i) as [name|] eqn:Hname; [|reflexivity].
    apply IH; [|lia].
    assert (i < length column_names)%nat by (apply nth_error_Some; congruence). lia.
Qed.

(** X2. The conversion of the rows of a result to dictionaries succeeds
    exactly when no row has more values than the result has column names,
    and then gives one dictionary per row; otherwise it raises
    [IndexError], the only exception it can raise. *)
Theorem convert_rows_succeeds_iff (column_names : list string)
    (rows : list (list pyvalue)) :
  ((exists data, convert_rows column_names rows = Ok data
                 /\ length data = length rows)
   <-> rows_fit column_names rows)
  /\ (~ rows_fit column_names rows ->
      convert_rows column_names rows
      = Raise (PyError "IndexError" "list index out of range")).
Proof.
  unfold rows_fit.
  induction rows as [|row rows [IHiff IHraise]].
  - split; [split|].
    + intros _. constructor.
    + intros _. now exists [].
    + intros H. contradiction H. constructor.
  - assert ((length row <= length column_names)%nat
            \/ (length column_names < length row)%nat) as [Hfit|Hover] by lia.
    + destruct (convert_cells_fits column_names row 0 empty Hfit) as (d & Hd).
      split; [split|].
      * intros (data & Hrun & _). constructor; [exact Hfit|].
        apply IHiff. cbn [convert_rows] in Hrun. unfold convert_row in Hrun.
        rewrite Hd in Hrun.
        destruct (convert_rows column_names rows) as [data'|] eqn:Hrest;
          [|discriminate].
        exists data'. split; [reflexivity|]. now apply convert_rows_length in Hrest.
      * intros Hall. inversion Hall as [|? ? _ Hrest]; subst.
        destruct (proj2 IHiff Hrest) as (data' & Hrun & Hlen).
        exists (d :: data'). cbn [convert_rows]. unfold convert_row.
        rewrite Hd, Hrun. split; [reflexivity|]. cbn [length]. now rewrite Hlen.
      * intros Hnot. cbn [convert_rows]. unfold convert_row. rewrite Hd.
        rewrite IHraise; [reflexivity|].
        intros Hrest. apply Hnot. now constructor.
    + assert (convert_row column_names row
              = Raise (PyError "IndexError" "list index out of range")) as Hrow.
      { unfold convert_row. apply convert_cells_overflow; lia. }
      split; [split|].
      * intros (data & Hrun & _). cbn [convert_rows] in Hrun. rewrite Hrow in Hrun.
        discriminate Hrun.
      * intros Hall. inversion Hall; subst. lia.
      * intros _. cbn [convert_rows]. now rewrite Hrow.
Qed.

Lemma convert_rows_succeeds_iff_witness :
  ~ rows_fit ["a"] [[VInt 1]; [VInt 1; VInt 2]]
  /\ convert_rows ["a"] [[VInt 1]; [VInt 1; VInt 2]]
     = Raise (PyError "IndexError" "list index out of range").
Proof.
  assert (~ rows_fit ["a"] [[VInt 1]; [VInt 1; VInt 2]]) as Hnot.
  { intros H. inversion H as [|? ? _ H']; subst. inversion H' as [|? ? Hlen _]; subst.
    cbn in Hlen. lia. }
  split; [exact Hnot|].
  exact (proj2 (convert_rows_succeeds_iff ["a"] [[VInt 1]; [VInt 1; VInt 2]]) Hnot).
Defined.

(** ** A refused connection *)

(** X3. When the server refuses the connection, [run_extraction] ends with
    the exception [psycopg2.connect] raised, after [connect] has printed its
    error line (for an exception of class [Exception]); nothing has been
    sent to the server, no directory or file has been created and
    [self.conn] is still [None]. *)
Theorem refused_connection_aborts (now_start now_summary : datetime) (srv : server)
    (disk : filesystem) (e : exn) :
  srv_refuses srv = Some e ->
  exists st',
    run_extraction now_start now_summary (init srv disk) = (Raise e, st')
    /\ fs st' = disk
    /\ sent st' = []
    /\ conn st' = None
    /\ output_dir st' = "database_export"
    /\ console st'
       = ("Starting RuneLiteAI Database Extraction"
          :: repeat_char "-"%char 50
          :: (if is_Exception e
              then ["[ERROR] Database connection failed: " ++ exn_text e]%string
              else []))%list.
Proof.
  intros Hrefused.
  unfold run_extraction, connect, bind, try_except, print, raise, init.
  run_simpl. rewrite Hrefused.
  destruct (is_Exception e); run_simpl; eexists; repeat split.
Qed.

Lemma refused_connection_aborts_witness :
  srv_refuses refusing = Some (PyError "OperationalError" "connection refused")
  /\ exists st',
       run_extraction Demo.t_start Demo.t_summary (init refusing Fs.empty)
       = (Raise (PyError "OperationalError" "connection refused"), st')
       /\ fs st' = Fs.empty
       /\ sent st' = [].
Proof.
  split; [reflexivity|].
  destruct (refused_connection_aborts Demo.t_start Demo.t_summary refusing Fs.empty _
              eq_refl) as (st' & Hrun & Hfs & Hsent & _).
  exists st'. auto.
Defined.

(** ** Table descriptors *)

Lemma insert_sorted_by {A} (le : A -> A -> bool) (x : A) (l : list A) :
  (forall a b, le a b = false -> le b a = true) ->
  Sorted (fun a b => le a b = true) l ->
  Sorted (fun a b => le a b = true) (SqlSem.insert le x l).
Proof.
  intros Htotal. induction 1 as [|y l Hsorted IH Hhd]; simpl.
  - repeat constructor.
  - destruct (le x y) eqn:Hxy.
    + constructor; [now constructor|]. now constructor.
    + constructor; [exact IH|].
      destruct l as [|z l]; simpl.
      * constructor. now apply Htotal.
      * destruct (le x z); constructor; [now apply Htotal|].
        now inversion Hhd.
Qed.

Lemma order_by_sorted_by {A} (le : A -> A -> bool) (l : list A) :
  (forall a b, le a b = false -> le b a = true) ->
  Sorted (fun a b => le a b = true) (SqlSem.order_by le l).
Proof.
  intros Htotal. unfold SqlSem.order_by. induction l as [|x l IH]; simpl.
  - constructor.
  - now apply insert_sorted_by.
Qed.

Lemma insert_length {A} (le : A -> A -> bool) (x : A) (l : list A) :
  length (SqlSem.insert le x l) = S (length l).
Proof.
  induction l as [|y l IH]; simpl; [reflexivity|].
  destruct (le x y); simpl; congruence.
Qed.

Lemma order_by_length {A} (le : A -> A -> bool) (l : list A) :
  length (SqlSem.order_by le l) = length l.
Proof.
  unfold SqlSem.order_by. induction l as [|x l IH]; simpl; [reflexivity|].
  now rewrite insert_length, IH.
Qed.

(** What [get_table_info] returns when it returns. *)
Lemma get_table_info_returns (table_name : string) (st st' : state) (info : table_info) :
  get_table_info table_name st = (Ok info, st') ->
  conn st = Some InTransaction
  /\ conn st' = Some InTransaction
  /\ db st' = db st
  /\ fs st' = fs st
  /\ columns info
     = map (fun c => (c_name c, c_type c, c_nullable c))
         (SqlSem.order_by (fun a b => c_position a <=? c_position b)
            (columns_of (db st) table_name))
  /\ exists rs,
       srv_relation (db st) table_name = Some rs
       /\ row_count info = Z.of_nat (length (fetched rs)).
Proof.
  unfold get_table_info, bind, cursor, execute, ret, respond, accept, fetch, columns_of,
    SqlSem.list_columns, SqlSem.count_rows, SqlSem.undefined_table.
  run_simpl.
  destruct (conn st) as [[| |]|] eqn:Hc; run_simpl; rewrite ?Hc; try discriminate.
  destruct (srv_fault (db st) (SqlArgs sql_columns [table_name])) as [[[|] e1]|];
    run_simpl; try discriminate.
  cbn [after]. run_simpl.
  destruct (srv_fault (db st) (Sql _)) as [[[|] e2]|]; run_simpl; try discriminate.
  all: destruct (srv_relation (db st) table_name) as [rs|]; run_simpl;
    [|discriminate].
  all: try discriminate.
  intros H. invert_run. run_simpl. repeat split. now exists rs.

Qed.

(** X4. The Table Descriptor [get_table_info] returns for a table lists the
    rows [information_schema.columns] has for that table name, as many as
    there are and in the order of their ordinal position, and its
    [row_count] is the number of rows of the table, which is never
    negative. *)
Theorem table_descriptor_contents (table_name : string) (st st' : state)
    (info : table_info) :
  get_table_info table_name st = (Ok info, st') ->
  exists described rs,
    columns info = map (fun c => (c_name c, c_type c, c_nullable c)) described
    /\ Sorted by_position described
    /\ (forall c, In c described <-> In c (srv_columns (db st)) /\ c_table c = table_name)
    /\ length (columns info) = length (columns_of (db st) table_name)
    /\ srv_relation (db st) table_name = Some rs
    /\ row_count info = Z.of_nat (length (fetched rs))
    /\ 0 <= row_count info.
Proof.
  intros Hrun.
  destruct (get_table_info_returns _ _ _ _ Hrun)
    as (_ & _ & _ & _ & Hcols & rs & Hrel & Hcount).
  exists (SqlSem.order_by (fun a b => c_position a <=? c_position b)
            (columns_of (db st) table_name)), rs.
  split; [exact Hcols|]. split; [|split; [|split; [|split; [|split]]]].
  - assert (Sorted (fun a b => (c_position a <=? c_position b) = true)
              (SqlSem.order_by (fun a b => c_position a <=? c_position b)
                 (columns_of (db st) table_name))) as Hsorted.
    { apply order_by_sorted_by. intros a b H.
      apply Z.leb_gt in H. apply Z.leb_le. lia. }
    clear -Hsorted.
    induction Hsorted as [|c l Hs IH Hhd]; constructor; [exact IH|].
    destruct Hhd as [|d l' Hle]; constructor. unfold by_position. now apply Z.leb_le.
  - intros c. rewrite order_by_In. unfold columns_of. rewrite filter_In.
    now rewrite String.eqb_eq.
  - rewrite Hcols, length_map. apply order_by_length.
  - exact Hrel.
  - exact Hcount.
  - rewrite Hcount. lia.
Qed.

Lemma table_descriptor_contents_witness :
  exists st' info,
    get_table_info "sessions" Demo.ready = (Ok info, st')
    /\ columns info
       = [("session_id", "integer", "NO"); ("player_name", "text", "YES");
          ("start_time", "timestamp without time zone", "YES")]
    /\ row_count info = 5.
Proof.
  destruct (get_table_info "sessions" Demo.ready) as [[info|e] st'] eqn:Hrun;
    [|vm_compute in Hrun; discriminate Hrun].
  destruct (table_descriptor_contents "sessions" Demo.ready st' info Hrun)
    as (described & rs & Hcols & _ & _ & _ & Hrel & Hcount & _).
  exists st', info. split; [reflexivity|]. split.
  - vm_compute in Hrun. now inversion Hrun.
  - rewrite Hcount. vm_compute in Hrel. now inversion Hrel.
Defined.



(** ** The connection during a run *)

Lemma never_closes_same {A} (m : M A) :
  (forall st r st', m st = (r, st') -> conn st' = conn st) -> never_closes m.
Proof. intros H st r st' Hc Hrun. rewrite (H _ _ _ Hrun). exact Hc. Qed.

Lemma never_closes_ret {A} (a : A) : never_closes (ret a).
Proof. apply never_closes_same. intros st r st' H. now inversion H. Qed.

Lemma never_closes_raise {A} (e : exn) : never_closes (@raise A e).
Proof. apply never_closes_same. intros st r st' H. now inversion H. Qed.

Lemma never_closes_lift {A} (o : outcome A) : never_closes (lift o).
Proof. apply never_closes_same. intros st r st' H. now inversion H. Qed.

Lemma never_closes_print (line : string) : never_closes (print line).
Proof. apply never_closes_same. intros st r st' H. now inversion H. Qed.

Lemma never_closes_get_output_dir : never_closes get_output_dir.
Proof. apply never_closes_same. intros st r st' H. now inversion H. Qed.

Lemma never_closes_cursor : never_closes cursor.
Proof.
  apply never_closes_same. intros st r st'. unfold cursor. intros H.
  repeat break_match; invert_run; run_simpl; congruence.
Qed.

Lemma never_closes_makedirs (p : string) : never_closes (makedirs p).
Proof.
  apply never_closes_same. intros st r st'. unfold makedirs. intros H.
  repeat break_match; invert_run; run_simpl; congruence.
Qed.

Lemma never_closes_open_w (p : string) : never_closes (open_w p).
Proof.
  apply never_closes_same. intros st r st'. unfold open_w. intros H.
  repeat break_match; invert_run; run_simpl; congruence.
Qed.

Lemma never_closes_f_write (p s : string) : never_closes (f_write p s).
Proof. apply never_closes_same. intros st r st' H. now inversion H. Qed.

Lemma never_closes_json_dump (p : string) (doc : json) : never_closes (json_dump p doc).
Proof. apply never_closes_same. intros st r st' H. now inversion H. Qed.

Lemma never_closes_execute {A} (stmt : statement) (answer : server -> outcome A) :
  never_closes (execute stmt answer).
Proof.
  intros st r st' Hc H. unfold execute in H. invert_run. run_simpl.
  unfold after. destruct (conn st) as [[| |]|]; try congruence.
  destruct (accept _ _ _ _) as [a|e]; [discriminate|].
  destruct (is_Exception e); discriminate.
Qed.

Lemma never_closes_execute_only {A} (stmt : statement)
    (answer : server -> outcome A) :
  never_closes (execute_only stmt answer).
Proof.
  intros st r st' Hc H. unfold execute_only in H. invert_run. run_simpl.
  unfold after. destruct (conn st) as [[| |]|]; try congruence.
  destruct (accept _ _ _ _) as [a|e]; [discriminate|].
  destruct (is_Exception e); discriminate.
Qed.

Lemma never_closes_fetchall {A} (stmt : statement) (rows : A) :
  never_closes (fetchall stmt rows).
Proof. apply never_closes_same. intros st r st' H. now inversion H. Qed.

Lemma never_closes_bind {A B} (m : M A) (k : A -> M B) :
  never_closes m -> (forall a, never_closes (k a)) -> never_closes (bind m k).
Proof.
  intros Hm Hk st r st' Hc. unfold bind.
  destruct (m st) as [[a|e] st1] eqn:Hrun; intros H.
  - eapply Hk; [|exact H]. eapply Hm; eauto.
  - inversion H; subst. eapply Hm; eauto.
Qed.

Lemma never_closes_try {A} (body : M A) (handler : exn -> M A) :
  never_closes body -> (forall e, never_closes (handler e)) ->
  never_closes (try_except body handler).
Proof.
  intros Hb Hh st r st' Hc. unfold try_except.
  destruct (body st) as [[a|e] st1] eqn:Hrun; intros H.
  - inversion H; subst. eapply Hb; eauto.
  - destruct (is_Exception e).
    + eapply Hh; [|exact H]. eapply Hb; eauto.
    + inversion H; subst. eapply Hb; eauto.
Qed.

Lemma never_closes_for_each {A} (xs : list A) (body : A -> M unit) :
  (forall x, never_closes (body x)) -> never_closes (for_each xs body).
Proof.
  intros Hbody. induction xs as [|x xs IH]; cbn [for_each].
  - apply never_closes_ret.
  - apply never_closes_bind; auto.
Qed.

Create HintDb conn.
#[local] Hint Resolve never_closes_ret never_closes_raise never_closes_lift
  never_closes_print never_closes_get_output_dir never_closes_cursor
  never_closes_makedirs never_closes_open_w never_closes_f_write
  never_closes_json_dump never_closes_execute never_closes_execute_only
  never_closes_fetchall : conn.

Ltac unclosed :=
  repeat first
    [ progress cbv zeta
    | solve [auto with conn]
    | apply never_closes_bind; [|intros]
    | apply never_closes_try; [|intros]
    | apply never_closes_for_each; intros
    | match goal with
      | |- never_closes (match ?p with _ => _ end) => destruct p
      end ].

Lemma never_closes_connect : never_closes connect.
Proof.
  unfold connect. apply never_closes_try; [|intros; unclosed].
  apply never_closes_bind; [|intros; unclosed].
  intros st r st' Hc H. repeat break_match; invert_run; run_simpl; congruence.
Qed.

Lemma never_closes_create_output_structure (now : datetime) :
  never_closes (create_output_structure now).
Proof.
  unfold create_output_structure. apply never_closes_bind; [|intros; unclosed].
  apply never_closes_same. intros st r st' H. now inversion H.
Qed.

Lemma never_closes_get_all_tables : never_closes get_all_tables.
Proof. unfold get_all_tables. unclosed. Qed.

Lemma never_closes_collect_info (table_names : list string) :
  forall tables_info, never_closes (collect_info table_names tables_info).
Proof.
  induction table_names as [|t ts IH]; intros tables_info; cbn [collect_info].
  - apply never_closes_ret.
  - apply never_closes_bind; [unfold get_table_info; unclosed|intros].
    apply never_closes_bind; [unclosed|intros]. apply IH.
Qed.

Lemma never_closes_export_tables (table_names : list string) :
  never_closes (export_tables table_names).
Proof.
  unfold export_tables, export_table_to_csv, export_table_to_json. unclosed.
Qed.

Lemma never_closes_generate_summary_report (now : datetime)
    (tables_info : dict table_info) :
  never_closes (generate_summary_report now tables_info).
Proof. unfold generate_summary_report, table_block. unclosed. Qed.

Lemma never_closes_export_sample_queries : never_closes export_sample_queries.
Proof. unfold export_sample_queries, sample_query. unclosed. Qed.

Lemma closes_on_success_after {A} (m : M A) (k : A -> M unit) :
  never_closes m -> (forall a, closes_on_success (k a)) ->
  closes_on_success (bind m k).
Proof.
  intros Hm Hk st r st' Hc. unfold bind.
  destruct (m st) as [[a|e] st1] eqn:Hrun; intros H.
  - eapply Hk; [|exact H]. eapply Hm; eauto.
  - inversion H; subst. split; [discriminate|].
    intros Hclosed. exfalso. eapply Hm; eauto.
Qed.

(** The end of [run_extraction], from [self.conn.close()] on. *)
Lemma closes_on_success_close (tail : M unit) :
  (forall st, conn st = Some Closed -> exists st', tail st = (Ok tt, st')
                                                     /\ conn st' = Some Closed) ->
  closes_on_success (close ;; tail).
Proof.
  intros Htail st r st' Hc. unfold bind, close.
  destruct (conn st) as [c|] eqn:Hconn.
  - destruct (Htail (with_conn (Some Closed) st) eq_refl) as (st2 & Hrun & Hclosed).
    rewrite Hrun. intros H. inversion H; subst. split; auto.
  - intros H. inversion H; subst. split; [discriminate|]. congruence.
Qed.

(** X6. At the end of [run_extraction] the connection is closed exactly
    when the run has ended normally: a run that ends with an exception, at
    whatever step, never reaches [self.conn.close()] and leaves the
    connection as it was, open or never opened. *)
Theorem connection_closed_iff_success (now_start now_summary : datetime)
    (srv : server) (disk : filesystem) :
  let run := run_extraction now_start now_summary (init srv disk) in
  fst run = Ok tt <-> conn (snd run) = Some Closed.
Proof.
  cbv zeta.
  destruct (run_extraction now_start now_summary (init srv disk)) as [r st'] eqn:Hrun.
  cbn [fst snd]. revert Hrun.
  assert (closes_on_success (run_extraction now_start now_summary)) as Hcloses.
  { unfold run_extraction.
    do 2 (apply closes_on_success_after; [apply never_closes_print|intros]).
    apply closes_on_success_after; [apply never_closes_connect|intros].
    apply closes_on_success_after; [apply never_closes_create_output_structure|intros].
    apply closes_on_success_after; [apply never_closes_get_all_tables|intros names].
    apply closes_on_success_after; [apply never_closes_collect_info|intros infos].
    do 3 (apply closes_on_success_after; [apply never_closes_print|intros]).
    apply closes_on_success_after; [apply never_closes_export_tables|intros].
    apply closes_on_success_after;
      [apply never_closes_generate_summary_report|intros].
    apply closes_on_success_after; [apply never_closes_export_sample_queries|intros].
    apply closes_on_success_close. intros st Hclosed.
    unfold bind, print, get_output_dir. run_simpl.
    eexists. split; [reflexivity|]. run_simpl. exact Hclosed. }
  apply Hcloses. cbn. discriminate.
Qed.

Example interrupted_run_leaves_connection_open :
  fst (run_extraction Demo.t_start Demo.t_summary (init interrupted Fs.empty))
  = Raise KeyboardInterrupt
  /\ conn (snd (run_extraction Demo.t_start Demo.t_summary (init interrupted Fs.empty)))
     = Some InTransaction.
Proof. split; vm_compute; reflexivity. Qed.

(** ** Paths *)

Lemma is_slash_digit (z : Z) : Fs.is_slash (digit_char (z mod 10)) = false.
Proof.
  pose proof (Z.mod_pos_bound z 10 ltac:(lia)) as Hd.
  assert (z mod 10 = 0 \/ z mod 10 = 1 \/ z mod 10 = 2 \/ z mod 10 = 3 \/ z mod 10 = 4
          \/ z mod 10 = 5 \/ z mod 10 = 6 \/ z mod 10 = 7 \/ z mod 10 = 8
          \/ z mod 10 = 9) as Hcases by lia.
  repeat (destruct Hcases as [->|Hcases]; [reflexivity|]).
  now rewrite Hcases.
Qed.

(** The name of an export directory has no slash in it. *)
Lemma export_root_no_slash (now : datetime) :
  contains_char Fs.is_slash (export_root now) = false.
Proof.
  unfold export_root, strftime_stamp, fmt4, fmt2, chr. cbv zeta.
  rewrite contains_char_append. cbn [append contains_char].
  rewrite !is_slash_digit. reflexivity.
Qed.

Lemma chain_no_slash (a b : string) :
  contains_char Fs.is_slash a = false ->
  forall done, Fs.chain done (a ++ b) = Fs.chain (done ++ a) b.
Proof.
  induction a as [|c a IH]; intros Hclean done.
  - cbn [append]. now rewrite append_nil_r.
  - cbn [contains_char] in Hclean. apply orb_false_iff in Hclean as [Hc Ha].
    cbn [append Fs.chain]. rewrite Hc, (IH Ha).
    now rewrite append_assoc.
Qed.

Lemma chain_leaf (a done : string) :
  contains_char Fs.is_slash a = false -> Fs.chain done a = [done ++ a].
Proof.
  intros Hclean. rewrite <- (append_nil_r a) at 1.
  rewrite (chain_no_slash _ _ Hclean). reflexivity.
Qed.

(** The ancestors [os.makedirs] walks for a directory one level below a
    root that has no slash. *)
Lemma chain_below (root sub : string) :
  contains_char Fs.is_slash root = false ->
  contains_char Fs.is_slash sub = false ->
  Fs.chain EmptyString (root ++ "/" ++ sub) = [root; root ++ "/" ++ sub].
Proof.
  intros Hroot Hsub. rewrite (chain_no_slash _ _ Hroot). cbn [append Fs.chain].
  change (Fs.is_slash "/"%char) with true. cbn iota. f_equal.
  rewrite (chain_leaf _ _ Hsub). now rewrite append_assoc.
Qed.


(** ** The export directories *)

Lemma mem_In (x : string) (l : list string) : Fs.mem x l = true <-> In x l.
Proof.
  unfold Fs.mem. rewrite existsb_exists. split.
  - intros (y & Hin & Heq). apply String.eqb_eq in Heq. now subst.
  - intros Hin. exists x. split; [exact Hin|apply String.eqb_refl].
Qed.

Lemma is_dir_In (disk : filesystem) (p : string) :
  Fs.is_dir disk p = true <-> p = EmptyString \/ In p (dirs disk).
Proof.
  unfold Fs.is_dir. rewrite orb_true_iff, String.eqb_eq, mem_In. reflexivity.
Qed.

(** What a successful [os.makedirs(p, exist_ok=True)] leaves. *)
Lemma makedirs_ok (p : string) (disk made : filesystem) :
  Fs.makedirs p disk = Ok made ->
  files made = files disk
  /\ (forall d, Fs.is_dir disk d = true -> Fs.is_dir made d = true)
  /\ (forall d, In d (Fs.chain EmptyString p) -> Fs.is_dir made d = true)
  /\ (forall d, Fs.is_dir made d = true ->
                Fs.is_dir disk d = true \/ In d (Fs.chain EmptyString p)).
Proof.
  unfold Fs.makedirs. destruct (existsb _ _); [discriminate|].
  intros H. inversion H; subst made. clear H. cbn [files]. split; [reflexivity|].
  split; [|split].
  - intros d Hd. apply is_dir_In in Hd. apply is_dir_In. cbn [dirs].
    rewrite in_app_iff. tauto.
  - intros d Hin. destruct (Fs.is_dir disk d) eqn:Hd.
    + apply is_dir_In in Hd. apply is_dir_In. cbn [dirs]. rewrite in_app_iff. tauto.
    + apply is_dir_In. right. cbn [dirs]. rewrite in_app_iff. right.
      apply filter_In. split; [exact Hin|]. now rewrite Hd.
  - intros d Hd. apply is_dir_In in Hd. cbn [dirs] in Hd.
    rewrite in_app_iff, filter_In in Hd.
    destruct Hd as [->|[Hin|[Hin _]]].
    + left. reflexivity.
    + left. apply is_dir_In. now right.
    + now right.
Qed.

(** [exist_ok=True]: where every directory is there already, nothing
    changes. *)
Lemma makedirs_present (p : string) (disk : filesystem) :
  (forall d, In d (Fs.chain EmptyString p) -> Fs.is_dir disk d = true) ->
  (forall d, In d (Fs.chain EmptyString p) -> Fs.is_file disk d = false) ->
  Fs.makedirs p disk = Ok disk.
Proof.
  intros Hdirs Hfiles. unfold Fs.makedirs.
  assert (existsb (Fs.is_file disk) (Fs.chain EmptyString p) = false) as ->.
  { apply not_true_is_false. intros H. apply existsb_exists in H as (d & Hin & Hd).
    rewrite (Hfiles d Hin) in Hd. discriminate Hd. }
  assert (filter (fun d => negb (Fs.is_dir disk d)) (Fs.chain EmptyString p) = [])
    as ->.
  { induction (Fs.chain EmptyString p) as [|d l IH]; [reflexivity|].
    cbn [filter]. rewrite (Hdirs d) by now left. cbn [negb].
    apply IH; intros; [apply Hdirs|apply Hfiles]; now right. }
  rewrite app_nil_r. now destruct disk.
Qed.

Lemma makedirs_blocked (p : string) (disk : filesystem) (d : string) :
  In d (Fs.chain EmptyString p) -> Fs.is_file disk d = true ->
  Fs.makedirs p disk = Raise (PyError "FileExistsError" ("File exists: " ++ p)).
Proof.
  intros Hin Hfile. unfold Fs.makedirs.
  assert (existsb (Fs.is_file disk) (Fs.chain EmptyString p) = true) as ->.
  { apply existsb_exists. now exists d. }
  reflexivity.
Qed.

Lemma makedirs_succeeds (p : string) (disk : filesystem) :
  (forall d, In d (Fs.chain EmptyString p) -> Fs.is_file disk d = false) ->
  exists made, Fs.makedirs p disk = Ok made.
Proof.
  intros Hfiles. unfold Fs.makedirs.
  assert (existsb (Fs.is_file disk) (Fs.chain EmptyString p) = false) as ->.
  { apply not_true_is_false. intros H. apply existsb_exists in H as (d & Hin & Hd).
    rewrite (Hfiles d Hin) in Hd. discriminate Hd. }
  eexists. reflexivity.
Qed.

(** The ancestors walked for the five directories are the five directories
    themselves. *)
Lemma chain_directories (now : datetime) (d x : string) :
  In d (directories (export_root now)) ->
  In x (Fs.chain EmptyString d) ->
  In x (directories (export_root now)).
Proof.
  pose proof (export_root_no_slash now) as Hroot.
  unfold directories. cbn [In].
  intros [<-|[<-|[<-|[<-|[<-|[]]]]]].
  - rewrite (chain_leaf _ _ Hroot). cbn [append In]. tauto.
  - change (export_root now ++ "/csv") with (export_root now ++ "/" ++ "csv") at 1.
    rewrite (chain_below _ "csv" Hroot eq_refl).
    intros [<-|[<-|[]]]; auto 10.
  - change (export_root now ++ "/json") with (export_root now ++ "/" ++ "json") at 1.
    rewrite (chain_below _ "json" Hroot eq_refl).
    intros [<-|[<-|[]]]; auto 10.
  - change (export_root now ++ "/summary")
      with (export_root now ++ "/" ++ "summary") at 1.
    rewrite (chain_below _ "summary" Hroot eq_refl).
    intros [<-|[<-|[]]]; auto 10.
  - change (export_root now ++ "/raw_sql")
      with (export_root now ++ "/" ++ "raw_sql") at 1.
    rewrite (chain_below _ "raw_sql" Hroot eq_refl).
    intros [<-|[<-|[]]]; auto 10.
Qed.

Lemma chain_self (p done : string) : In (done ++ p) (Fs.chain done p).
Proof.
  revert done. induction p as [|c p IH]; intros done.
  - cbn [Fs.chain]. rewrite append_nil_r. now left.
  - cbn [Fs.chain].
    replace (done ++ String c p) with ((done ++ chr c) ++ p)
      by (rewrite append_assoc; reflexivity).
    destruct (Fs.is_slash c); [right|]; apply IH.
Qed.

(** The loop [for directory in directories: os.makedirs(...)]. *)
Lemma makedirs_each (ds : list string) (allowed : string -> Prop) :
  (forall d x, In d ds -> In x (Fs.chain EmptyString d) -> allowed x) ->
  forall st,
    (forall x, allowed x -> Fs.is_file (fs st) x = false) ->
    exists st',
      for_each ds makedirs st = (Ok tt, st')
      /\ db st' = db st /\ conn st' = conn st /\ output_dir st' = output_dir st
      /\ console st' = console st /\ sent st' = sent st
      /\ files (fs st') = files (fs st)
      /\ (forall d, Fs.is_dir (fs st) d = true -> Fs.is_dir (fs st') d = true)
      /\ (forall d, In d ds -> Fs.is_dir (fs st') d = true)
      /\ (forall d, Fs.is_dir (fs st') d = true ->
                    Fs.is_dir (fs st) d = true \/ allowed d).
Proof.
  induction ds as [|d ds IH]; intros Hallowed st Hfree.
  - exists st. cbn [for_each]. unfold ret. repeat split; auto; intros d [].
  - cbn [for_each]. unfold bind, makedirs at 1.
    destruct (makedirs_succeeds d (fs st)) as (made & Hmade).
    { intros x Hx. apply Hfree. apply (Hallowed d x); [now left|exact Hx]. }
    rewrite Hmade.
    destruct (makedirs_ok _ _ _ Hmade) as (Hfiles & Hkeep & Hnew & Honly).
    destruct (IH (fun d' x' Hd' Hx' => Hallowed d' x' (or_intror Hd') Hx')
                (with_fs made st))
      as (st' & Hrun & Hdb & Hconn & Hdir & Hcons & Hsent & Hfiles' & Hkeep' & Hnew'
          & Honly').
    { intros x Hx. unfold Fs.is_file. run_simpl. rewrite Hfiles. now apply Hfree. }
    run_simpl. exists st'. split; [exact Hrun|].
    repeat split; try congruence.
    + intros x Hx. apply Hkeep'. now apply Hkeep.
    + intros x [<-|Hin]; [|now apply Hnew'].
      apply Hkeep'. apply Hnew. apply (chain_self d EmptyString).
    + intros x Hx. destruct (Honly' x Hx) as [Hmid|Hal]; [|now right].
      destruct (Honly x Hmid) as [Hold|Hin]; [now left|].
      right. apply (Hallowed d x); [now left|exact Hin].
Qed.

Lemma makedirs_each_needs (ds : list string) :
  forall st st',
    for_each ds makedirs st = (Ok tt, st') ->
    forall d x, In d ds -> In x (Fs.chain EmptyString d) ->
                Fs.is_file (fs st) x = false.
Proof.
  induction ds as [|d0 ds IH]; intros st st' Hrun d x Hd Hx; [destruct Hd|].
  cbn [for_each] in Hrun. unfold bind, makedirs at 1 in Hrun.
  destruct (Fs.makedirs d0 (fs st)) as [made|e] eqn:Hmade; [|discriminate Hrun].
  destruct Hd as [<-|Hd].
  - unfold Fs.makedirs in Hmade.
    destruct (existsb (Fs.is_file (fs st)) (Fs.chain EmptyString d0)) eqn:Hex;
      [discriminate Hmade|].
    apply not_true_is_false. intros Hfile.
    assert (existsb (Fs.is_file (fs st)) (Fs.chain EmptyString d0) = true) as Habs
      by (apply existsb_exists; now exists x).
    congruence.
  - destruct (makedirs_ok _ _ _ Hmade) as (Hfiles & _).
    specialize (IH _ _ Hrun d x Hd Hx). unfold Fs.is_file in *. run_simpl.
    now rewrite <- Hfiles.
Qed.

Lemma makedirs_each_present (ds : list string) (st : state) :
  (forall d x, In d ds -> In x (Fs.chain EmptyString d) ->
               Fs.is_dir (fs st) x = true /\ Fs.is_file (fs st) x = false) ->
  for_each ds makedirs st = (Ok tt, st).
Proof.
  induction ds as [|d ds IH]; intros Hpresent; [reflexivity|].
  cbn [for_each]. unfold bind, makedirs at 1.
  rewrite makedirs_present.
  - rewrite with_fs_same. apply IH. intros d' x Hd' Hx.
    apply (Hpresent d' x); [now right|exact Hx].
  - intros x Hx. apply (Hpresent d x); [now left|exact Hx].
  - intros x Hx. apply (Hpresent d x); [now left|exact Hx].
Qed.

(** X7. Where none of its five directories exists as a regular file,
    [create_output_structure] succeeds: it names the export directory after
    the clock, the directories that exist afterwards are those that existed
    before and the five of the export, and no file is created or changed. *)
Theorem create_output_structure_creates (now : datetime) (st : state) :
  (forall d, In d (directories (export_root now)) -> Fs.is_file (fs st) d = false) ->
  exists st',
    create_output_structure now st = (Ok tt, st')
    /\ output_dir st' = export_root now
    /\ files (fs st') = files (fs st)
    /\ (forall d, Fs.is_dir (fs st') d = true
                  <-> Fs.is_dir (fs st) d = true \/ In d (directories (export_root now)))
    /\ console st'
       = (console st
          ++ [("[INFO] Created export directory: " ++ export_root now)%string])%list.
Proof.
  intros Hfree.
  unfold create_output_structure, bind at 1 2. unfold get_output_dir. run_simpl.
  destruct (makedirs_each (directories (export_root now))
              (fun x => In x (directories (export_root now)))
              (chain_directories now)
              (with_output_dir (export_root now) st))
    as (st1 & Hrun & _ & _ & Hdir & Hcons & _ & Hfiles & Hkeep & Hnew & Honly).
  { intros x Hx. apply (Hfree x Hx). }
  unfold bind. rewrite Hrun. unfold print. run_simpl.
  eexists. split; [reflexivity|]. run_simpl.
  split; [exact Hdir|]. split; [exact Hfiles|]. split.
  - intros d. split.
    + intros Hd. exact (Honly d Hd).
    + intros [Hd|Hd]; [now apply Hkeep|now apply Hnew].
  - now rewrite Hcons.
Qed.

Lemma create_output_structure_creates_witness :
  (forall d, In d (directories (export_root Demo.t_start)) ->
             Fs.is_file (fs (init Demo.srv Fs.empty)) d = false)
  /\ exists st',
       create_output_structure Demo.t_start (init Demo.srv Fs.empty) = (Ok tt, st')
       /\ output_dir st' = "database_export_20250807_140309"
       /\ Fs.is_dir (fs st') "database_export_20250807_140309/raw_sql" = true.
Proof.
  assert (forall d, In d (directories (export_root Demo.t_start)) ->
                    Fs.is_file (fs (init Demo.srv Fs.empty)) d = false) as Hfree
    by (intros d _; reflexivity).
  split; [exact Hfree|].
  destruct (create_output_structure_creates Demo.t_start (init Demo.srv Fs.empty) Hfree)
    as (st' & Hrun & Hdir & _ & Hdirs & _).
  exists st'. split; [exact Hrun|]. split; [exact Hdir|].
  apply Hdirs. right. cbn. auto 10.
Defined.

(** X8. [create_output_structure] tolerates an export directory that is
    there already ([exist_ok=True]): run again with the same clock reading
    on the filesystem it has left, it succeeds and changes nothing. *)
Theorem create_output_structure_again (now : datetime) (st st1 : state) :
  create_output_structure now st = (Ok tt, st1) ->
  exists st2,
    create_output_structure now st1 = (Ok tt, st2)
    /\ fs st2 = fs st1
    /\ output_dir st2 = output_dir st1.
Proof.
  intros Hfirst.
  assert (forall d x, In d (directories (export_root now)) ->
                      In x (Fs.chain EmptyString d) -> Fs.is_file (fs st) x = false)
    as Hfree.
  { unfold create_output_structure, bind at 1 2 in Hfirst.
    unfold get_output_dir in Hfirst. run_simpl. unfold bind in Hfirst.
    destruct (for_each (directories (export_root now)) makedirs
                (with_output_dir (export_root now) st)) as [[u|e] s] eqn:Hloop;
      [|discriminate Hfirst].
    destruct u. intros d x Hd Hx.
    exact (makedirs_each_needs _ _ _ Hloop d x Hd Hx). }
  destruct (create_output_structure_creates now st) as (st1' & Hrun & Hdir & Hfiles & Hdirs & _).
  { intros d Hd. apply (Hfree d d Hd). apply (chain_self d EmptyString). }
  rewrite Hrun in Hfirst. inversion Hfirst; subst st1'. clear Hfirst.
  unfold create_output_structure, bind at 1 2. unfold get_output_dir. run_simpl.
  unfold bind. rewrite makedirs_each_present.
  - unfold print. run_simpl. eexists. split; [reflexivity|]. run_simpl.
    split; [reflexivity|]. now rewrite Hdir.
  - intros d x Hd Hx. run_simpl. split.
    + apply Hdirs. right. exact (chain_directories now d x Hd Hx).
    + unfold Fs.is_file. rewrite Hfiles. exact (Hfree d x Hd Hx).
Qed.

Lemma create_output_structure_again_witness :
  exists st1 st2,
    create_output_structure Demo.t_start (init Demo.srv Fs.empty) = (Ok tt, st1)
    /\ create_output_structure Demo.t_start st1 = (Ok tt, st2)
    /\ fs st2 = fs st1.
Proof.
  destruct (create_output_structure Demo.t_start (init Demo.srv Fs.empty))
    as [r st1] eqn:Hfirst.
  assert (r = Ok tt) as -> by (vm_compute in Hfirst; now inversion Hfirst).
  destruct (create_output_structure_again Demo.t_start _ st1 Hfirst)
    as (st2 & Hsecond & Hfs & _).
  exists st1, st2. auto.
Defined.

Lemma makedirs_each_blocked (ds : list string) :
  forall st d x,
    In d ds -> In x (Fs.chain EmptyString d) -> Fs.is_file (fs st) x = true ->
    exists p st',
      for_each ds makedirs st
      = (Raise (PyError "FileExistsError" ("File exists: " ++ p)), st')
      /\ In p ds /\ files (fs st') = files (fs st).
Proof.
  induction ds as [|d0 ds IH]; intros st d x Hd Hx Hfile; [destruct Hd|].
  cbn [for_each]. unfold bind, makedirs at 1.
  destruct (existsb (Fs.is_file (fs st)) (Fs.chain EmptyString d0)) eqn:Hex.
  - apply existsb_exists in Hex as (y & Hy & Hyfile).
    rewrite (makedirs_blocked d0 (fs st) y Hy Hyfile).
    exists d0, st. repeat split. now left.
  - destruct (Fs.makedirs d0 (fs st)) as [made|e] eqn:Hmade.
    + destruct (makedirs_ok _ _ _ Hmade) as (Hfiles & _).
      destruct Hd as [<-|Hd].
      * exfalso.
        assert (existsb (Fs.is_file (fs st)) (Fs.chain EmptyString d0) = true)
          by (apply existsb_exists; now exists x).
        congruence.
      * destruct (IH (with_fs made st) d x Hd Hx) as (p & st' & Hrun & Hp & Hf).
        { unfold Fs.is_file in *. run_simpl. now rewrite Hfiles. }
        exists p, st'. split; [exact Hrun|]. split; [now right|].
        rewrite Hf. run_simpl. exact Hfiles.
    + unfold Fs.makedirs in Hmade. rewrite Hex in Hmade. discriminate Hmade.
Qed.

(** X9. Where one of the five directories of the export exists as a regular
    file, [create_output_structure] raises [FileExistsError] for one of the
    five and no file is touched; nothing catches the exception before the
    top level. *)
Theorem create_output_structure_blocked (now : datetime) (st : state) (d : string) :
  In d (directories (export_root now)) ->
  Fs.is_file (fs st) d = true ->
  exists p st',
    create_output_structure now st
    = (Raise (PyError "FileExistsError" ("File exists: " ++ p)), st')
    /\ In p (directories (export_root now))
    /\ files (fs st') = files (fs st).
Proof.
  intros Hd Hfile.
  unfold create_output_structure, bind at 1 2. unfold get_output_dir. run_simpl.
  destruct (makedirs_each_blocked (directories (export_root now))
              (with_output_dir (export_root now) st) d d Hd
              (chain_self d EmptyString) Hfile)
    as (p & st' & Hrun & Hp & Hfiles).
  unfold bind. rewrite Hrun. exists p, st'. auto.
Qed.

Lemma create_output_structure_blocked_witness :
  let disk := mk_fs [] [("database_export_20250807_140309", Text "not a directory")] in
  In "database_export_20250807_140309" (directories (export_root Demo.t_start))
  /\ Fs.is_file disk "database_export_20250807_140309" = true
  /\ exists p st',
       create_output_structure Demo.t_start (init Demo.srv disk)
       = (Raise (PyError "FileExistsError" ("File exists: " ++ p)), st')
       /\ files (fs st') = files disk.
Proof.
  intros disk.
  assert (In "database_export_20250807_140309" (directories (export_root Demo.t_start)))
    as Hd by (left; reflexivity).
  assert (Fs.is_file (fs (init Demo.srv disk)) "database_export_20250807_140309" = true)
    as Hfile by reflexivity.
  split; [exact Hd|]. split; [exact Hfile|].
  destruct (create_output_structure_blocked Demo.t_start (init Demo.srv disk) _ Hd Hfile)
    as (p & st' & Hrun & _ & Hfiles).
  exists p, st'. auto.
Defined.

(** ** The dictionary of Table Descriptors *)

Lemma set_appends_fresh {A} (d : dict A) (k : string) (v : A) :
  ~ In k (keys d) -> set d k v = (d ++ [(k, v)])%list.
Proof.
  induction d as [|[k' v'] d IH]; simpl; intros Hnot.
  - reflexivity.
  - destruct (String.eqb_spec k' k) as [->|Hne].
    + exfalso. apply Hnot. now left.
    + f_equal. apply IH. intros Hin. apply Hnot. now right.
Qed.

Lemma keys_set {A} (d : dict A) (k : string) (v : A) :
  In k (keys d) -> keys (set d k v) = keys d.
Proof.
  induction d as [|[k' v'] d IH]; simpl; intros Hin; [destruct Hin|].
  destruct (String.eqb_spec k' k) as [->|Hne]; simpl; [reflexivity|].
  f_equal. apply IH. destruct Hin; [contradiction|assumption].
Qed.

Lemma keys_set_In {A} (d : dict A) (k k' : string) (v : A) :
  In k' (keys (set d k v)) <-> k' = k \/ In k' (keys d).
Proof.
  induction d as [|[k0 v0] d IH]; simpl.
  - intuition.
  - destruct (String.eqb_spec k0 k) as [->|Hne]; simpl; [intuition|].
    rewrite IH. intuition.
Qed.

Lemma set_keeps_NoDup {A} (d : dict A) (k : string) (v : A) :
  NoDup (keys d) -> NoDup (keys (set d k v)).
Proof.
  induction d as [|[k0 v0] d IH]; simpl; intros Hnd.
  - constructor; [intros []|constructor].
  - inversion Hnd as [|? ? Hnot Hrest]; subst.
    destruct (String.eqb_spec k0 k) as [->|Hne]; simpl.
    + now constructor.
    + constructor; [|now apply IH].
      rewrite keys_set_In. intros [Heq|Hin]; [congruence|contradiction].
Qed.

(** X10. The dictionary of Table Descriptors the first loop of
    [run_extraction] builds has the listed table names as its keys, each
    once, whatever the list repeats; for a list without repetition the keys
    are the list, in its order. *)
Theorem collect_info_keys (table_names : list string) :
  forall tables_info st result st',
    NoDup (keys tables_info) ->
    collect_info table_names tables_info st = (Ok result, st') ->
    NoDup (keys result)
    /\ (forall k, In k (keys result) <-> In k (keys tables_info) \/ In k table_names)
    /\ (NoDup (keys tables_info ++ table_names) ->
        keys result = (keys tables_info ++ table_names)%list).
Proof.
  induction table_names as [|t ts IH]; intros tables_info st result st' Hnd Hrun.
  - cbn [collect_info] in Hrun. inversion Hrun; subst.
    split; [exact Hnd|]. split; [intros k; cbn [In]; tauto|].
    intros _. now rewrite app_nil_r.
  - cbn [collect_info] in Hrun. unfold bind at 1 in Hrun.
    destruct (get_table_info t st) as [[info|e] st1]; [|discriminate Hrun].
    unfold bind, print in Hrun. run_simpl.
    destruct (IH _ _ _ _ (set_keeps_NoDup tables_info t info Hnd) Hrun)
      as (Hnd' & Hin & Horder).
    split; [exact Hnd'|]. split.
    + intros k. rewrite Hin, keys_set_In. cbn [In]. intuition.
    + intros Hall.
      assert (~ In t (keys tables_info)) as Hfresh.
      { apply NoDup_remove_2 in Hall. intros H. apply Hall. apply in_or_app. now left. }
      rewrite (set_appends_fresh _ _ _ Hfresh) in Horder.
      unfold keys in *. rewrite map_app in Horder. cbn [map fst] in Horder.
      rewrite <- app_assoc in Horder. cbn [app] in Horder.
      apply Horder.
      replace (map fst tables_info ++ t :: ts)%list
        with ((map fst tables_info ++ [t]) ++ ts)%list in Hall
        by (rewrite <- app_assoc; reflexivity).
      rewrite <- app_assoc in Hall. exact Hall.
Qed.

Lemma collect_info_keys_witness :
  NoDup (keys (@empty table_info))
  /\ exists result st',
       collect_info ["game_ticks"; "sessions"; "game_ticks"] empty Demo.ready
       = (Ok result, st')
       /\ keys result = ["game_ticks"; "sessions"].
Proof.
  assert (NoDup (keys (@empty table_info))) as Hnd by constructor.
  split; [exact Hnd|].
  destruct (collect_info ["game_ticks"; "sessions"; "game_ticks"] empty Demo.ready)
    as [[result|e] st'] eqn:Hrun; [|vm_compute in Hrun; discriminate Hrun].
  destruct (collect_info_keys _ _ _ _ _ Hnd Hrun) as (Hnd' & _ & _).
  exists result, st'. split; [reflexivity|].
  vm_compute in Hrun. inversion Hrun. reflexivity.
Defined.

(** ** The entries of the summary *)

Lemma summarise_entries (entries : list (string * table_info)) :
  forall acc_tables acc_rows,
    NoDup (keys acc_tables ++ keys entries) ->
    fst (summarise entries acc_tables acc_rows)
    = (acc_tables ++ map (fun kv => (fst kv, summary_entry (snd kv))) entries)%list.
Proof.
  induction entries as [|[name info] rest IH]; intros acc_tables acc_rows Hnd.
  - cbn [summarise fst map]. now rewrite app_nil_r.
  - cbn [summarise].
    assert (~ In name (keys acc_tables)) as Hfresh.
    { cbn [keys map fst] in Hnd. apply NoDup_remove_2 in Hnd.
      intros H. apply Hnd. apply in_or_app. now left. }
    rewrite IH.
    + rewrite (set_appends_fresh _ _ _ Hfresh), <- app_assoc. reflexivity.
    + rewrite (set_appends_fresh _ _ _ Hfresh).
      unfold keys in *. rewrite map_app, <- app_assoc. exact Hnd.
Qed.

(** X11. For a dictionary of Table Descriptors (its keys are distinct), the
    Summary Document has one entry per descriptor, under the same table name
    and in the same order, whose [row_count] and [columns] are the
    descriptor's and whose [column_count] is the number of its columns. *)
Theorem summary_entries (now : datetime) (tables_info : dict table_info) :
  NoDup (keys tables_info) ->
  tables (build_summary now tables_info)
  = map (fun kv => (fst kv, summary_entry (snd kv))) tables_info
  /\ keys (tables (build_summary now tables_info)) = keys tables_info
  /\ forall name info,
       get tables_info name = Some info ->
       get (tables (build_summary now tables_info)) name
       = Some (mk_table_summary (row_count info) (length (columns info)) (columns info)).
Proof.
  intros Hnd.
  assert (tables (build_summary now tables_info)
          = map (fun kv => (fst kv, summary_entry (snd kv))) tables_info) as Htables.
  { unfold build_summary.
    pose proof (summarise_entries (items tables_info) empty 0 Hnd) as H.
    destruct (summarise (items tables_info) empty 0) as [tbls rows].
    cbn [fst] in H. cbn [tables]. exact H. }
  split; [exact Htables|]. rewrite Htables. split.
  - unfold keys. rewrite map_map. reflexivity.
  - intros name info. clear.
    induction tables_info as [|[k v] rest IH]; cbn [get map fst snd]; [discriminate|].
    destruct (k =? name)%string; [now intros [= ->]|exact IH].
Qed.

Lemma summary_entries_witness :
  let tables_info :=
    set (set empty "game_ticks" (mk_info [] 0))
        "sessions" (mk_info [("session_id", "integer", "NO")] 5) in
  NoDup (keys tables_info)
  /\ keys (tables (build_summary Demo.t_summary tables_info)) = ["game_ticks"; "sessions"]
  /\ get (tables (build_summary Demo.t_summary tables_info)) "sessions"
     = Some (mk_table_summary 5 1 [("session_id", "integer", "NO")]).
Proof.
  intros tables_info.
  assert (NoDup (keys tables_info)) as Hnd.
  { repeat constructor; cbn; intuition discriminate. }
  destruct (summary_entries Demo.t_summary tables_info Hnd) as (_ & Hkeys & Hget).
  split; [exact Hnd|]. split; [exact Hkeys|].
  exact (Hget "sessions" _ eq_refl).
Defined.

(** ** What the steps of a run keep *)

Lemma settled_refl (st : state) : settled st st.
Proof. unfold settled. auto. Qed.

Lemma settled_trans (a b c : state) : settled a b -> settled b c -> settled a c.
Proof.
  unfold settled. intros (H1 & H2 & H3 & H4 & H5) (G1 & G2 & G3 & G4 & G5).
  repeat split; try congruence; auto.
Qed.

Lemma settled_same (st st' : state) :
  db st' = db st -> output_dir st' = output_dir st -> fs st' = fs st ->
  conn st' = conn st -> settled st st'.
Proof.
  intros Hdb Hdir Hfs Hconn. unfold settled, open_connection.
  rewrite Hdb, Hdir, Hfs, Hconn. auto.
Qed.

Lemma is_file_set (d : dict content) (p q : string) (c : content) :
  get d q <> None -> get (set d p c) q <> None.
Proof.
  intros H. destruct (String.eqb_spec p q) as [->|Hne].
  - rewrite get_set_same. discriminate.
  - now rewrite get_set_other.
Qed.

Lemma settled_write (st : state) (p : string) (c : content) :
  settled st (with_fs (mk_fs (dirs (fs st)) (set (files (fs st)) p c)) st).
Proof.
  unfold settled, open_connection, Fs.is_file. run_simpl. cbn [dirs files].
  repeat split; auto.
  intros q Hq. pose proof (is_file_set (files (fs st)) p q c) as H.
  destruct (get (files (fs st)) q); [|discriminate Hq].
  destruct (get (set (files (fs st)) p c) q); [reflexivity|].
  exfalso. apply H; [discriminate|reflexivity].
Qed.

Lemma steady_ret {A} (a : A) : steady (ret a).
Proof. intros st r st' H. inversion H. apply settled_refl. Qed.

Lemma steady_raise {A} (e : exn) : steady (@raise A e).
Proof. intros st r st' H. inversion H. apply settled_refl. Qed.

Lemma steady_lift {A} (o : outcome A) : steady (lift o).
Proof. intros st r st' H. inversion H. apply settled_refl. Qed.

Lemma steady_print (line : string) : steady (print line).
Proof. intros st r st' H. inversion H. now apply settled_same. Qed.

Lemma steady_get_output_dir : steady get_output_dir.
Proof. intros st r st' H. inversion H. apply settled_refl. Qed.

Lemma steady_cursor : steady cursor.
Proof.
  intros st r st'. unfold cursor. intros H.
  repeat break_match; invert_run; apply settled_refl.
Qed.

Lemma steady_execute {A} (stmt : statement) (answer : server -> outcome A) :
  steady (execute stmt answer).
Proof.
  intros st r st' H. unfold execute in H. invert_run.
  unfold settled. run_simpl. repeat split; auto.
  intros Hopen. unfold open_connection. run_simpl. now apply after_open.
Qed.

Lemma steady_execute_only {A} (stmt : statement) (answer : server -> outcome A) :
  steady (execute_only stmt answer).
Proof.
  intros st r st' H. unfold execute_only in H. invert_run.
  unfold settled. run_simpl. repeat split; auto.
  intros Hopen. unfold open_connection. run_simpl. now apply after_open.
Qed.

Lemma steady_fetchall {A} (stmt : statement) (rows : A) : steady (fetchall stmt rows).
Proof. intros st r st' H. inversion H. subst. apply settled_refl. Qed.

Lemma steady_open_w (p : string) : steady (open_w p).
Proof.
  intros st r st'. unfold open_w, Fs.open_w. intros H.
  repeat break_match; invert_run; try apply settled_refl.
  apply settled_write.
Qed.

Lemma steady_f_write (p s : string) : steady (f_write p s).
Proof.
  intros st r st'. unfold f_write, Fs.append. intros H. invert_run.
  repeat break_match; apply settled_write.
Qed.

Lemma steady_json_dump (p : string) (doc : json) : steady (json_dump p doc).
Proof.
  intros st r st'. unfold json_dump, Fs.dump. intros H. invert_run.
  apply settled_write.
Qed.

Lemma steady_bind {A B} (m : M A) (k : A -> M B) :
  steady m -> (forall a, steady (k a)) -> steady (bind m k).
Proof.
  intros Hm Hk st r st'. unfold bind.
  destruct (m st) as [[a|e] st1] eqn:Hrun; intros H.
  - eapply settled_trans; [eapply Hm; eauto|eapply Hk; eauto].
  - inversion H; subst. eapply Hm; eauto.
Qed.

Lemma steady_try {A} (body : M A) (handler : exn -> M A) :
  steady body -> (forall e, steady (handler e)) -> steady (try_except body handler).
Proof.
  intros Hb Hh st r st'. unfold try_except.
  destruct (body st) as [[a|e] st1] eqn:Hrun; intros H.
  - inversion H; subst. eapply Hb; eauto.
  - destruct (is_Exception e).
    + eapply settled_trans; [eapply Hb; eauto|eapply Hh; eauto].
    + inversion H; subst. eapply Hb; eauto.
Qed.

Lemma steady_for_each {A} (xs : list A) (body : A -> M unit) :
  (forall x, steady (body x)) -> steady (for_each xs body).
Proof.
  intros Hbody. induction xs as [|x xs IH]; cbn [for_each].
  - apply steady_ret.
  - apply steady_bind; auto.
Qed.

Create HintDb steady.
#[local] Hint Resolve steady_ret steady_raise steady_lift steady_print
  steady_get_output_dir steady_cursor steady_execute steady_execute_only
  steady_fetchall steady_open_w steady_f_write steady_json_dump : steady.


Ltac steadily :=
  repeat first
    [ progress cbv zeta
    | solve [auto with steady]
    | apply steady_bind; [|intros]
    | apply steady_try; [|intros]
    | apply steady_for_each; intros
    | match goal with
      | |- steady (match ?p with _ => _ end) => destruct p
      end ].

Lemma steady_get_all_tables : steady get_all_tables.
Proof. unfold get_all_tables. steadily. Qed.

Lemma steady_get_table_info (t : string) : steady (get_table_info t).
Proof. unfold get_table_info. steadily. Qed.

Lemma steady_collect_info (table_names : list string) :
  forall tables_info, steady (collect_info table_names tables_info).
Proof.
  induction table_names as [|t ts IH]; intros tables_info; cbn [collect_info].
  - apply steady_ret.
  - apply steady_bind; [apply steady_get_table_info|intros].
    apply steady_bind; [steadily|intros]. apply IH.
Qed.

Lemma steady_export_tables (table_names : list string) :
  steady (export_tables table_names).
Proof. unfold export_tables, export_table_to_csv, export_table_to_json. steadily. Qed.

Lemma steady_generate_summary_report (now : datetime) (tables_info : dict table_info) :
  steady (generate_summary_report now tables_info).
Proof. unfold generate_summary_report, table_block. steadily. Qed.

Lemma steady_export_sample_queries : steady export_sample_queries.
Proof. unfold export_sample_queries, sample_query. steadily. Qed.

(** ** Steps that cannot fail *)

Lemma total_ret {A} (a : A) : total (ret a).
Proof. intros st. now exists a, st. Qed.

Lemma total_print (line : string) : total (print line).
Proof. intros st. eexists _, _. reflexivity. Qed.

Lemma total_f_write (p s : string) : total (f_write p s).
Proof. intros st. eexists _, _. reflexivity. Qed.

Lemma total_json_dump (p : string) (doc : json) : total (json_dump p doc).
Proof. intros st. eexists _, _. reflexivity. Qed.

Lemma total_get_output_dir : total get_output_dir.
Proof. intros st. eexists _, _. reflexivity. Qed.

Lemma total_bind {A B} (m : M A) (k : A -> M B) :
  total m -> (forall a, total (k a)) -> total (bind m k).
Proof.
  intros Hm Hk st. destruct (Hm st) as (a & st1 & Hrun).
  destruct (Hk a st1) as (b & st2 & Hrun2).
  exists b, st2. unfold bind. now rewrite Hrun.
Qed.

Lemma total_for_each {A} (xs : list A) (body : A -> M unit) :
  (forall x, total (body x)) -> total (for_each xs body).
Proof.
  intros Hbody. induction xs as [|x xs IH]; cbn [for_each].
  - apply total_ret.
  - apply total_bind; auto.
Qed.

Create HintDb total.
#[local] Hint Resolve total_ret total_print total_f_write total_json_dump
  total_get_output_dir : total.

Ltac totally :=
  repeat first
    [ progress cbv zeta
    | solve [auto with total]
    | apply total_bind; [|intros]
    | apply total_for_each; intros
    | match goal with
      | |- total (match ?p with _ => _ end) => destruct p
      end ].

Lemma total_table_block (file : string) (entry : string * table_summary) :
  total (table_block file entry).
Proof. unfold table_block. totally. Qed.

(** ** The schema phase of a run *)

Lemma get_all_tables_ok (st : state) :
  conn st = Some InTransaction -> faultless (db st) ->
  exists st',
    get_all_tables st = (Ok (listed_tables (db st)), st')
    /\ conn st' = Some InTransaction
    /\ fs st' = fs st.
Proof.
  intros Hconn Hfaults.
  unfold get_all_tables, bind, cursor, execute, print, ret, respond, accept, fetch.
  run_simpl. rewrite Hconn. run_simpl. rewrite Hconn, Hfaults.
  cbn [SqlSem.list_tables after]. run_simpl.
  eexists. split; [reflexivity|]. run_simpl. auto.
Qed.

Lemma get_table_info_ok (t : string) (st : state) (rs : resultset) :
  conn st = Some InTransaction -> faultless (db st) ->
  srv_relation (db st) t = Some rs ->
  exists info st',
    get_table_info t st = (Ok info, st')
    /\ conn st' = Some InTransaction
    /\ fs st' = fs st.
Proof.
  intros Hconn Hfaults Hrel.
  unfold get_table_info, bind, cursor, execute, ret, respond, accept, fetch,
    SqlSem.list_columns, SqlSem.count_rows.
  run_simpl. rewrite Hconn. run_simpl. rewrite Hconn, !Hfaults.
  cbn [after]. run_simpl. rewrite Hrel. cbn [after]. run_simpl.
  eexists _, _. split; [reflexivity|]. run_simpl. auto.
Qed.

Lemma get_table_info_undefined (t : string) (st : state) :
  conn st = Some InTransaction -> faultless (db st) ->
  srv_relation (db st) t = None ->
  exists st',
    get_table_info t st
    = (Raise (PyError "UndefinedTable" ("relation " ++ t ++ " does not exist")), st')
    /\ conn st' = Some FailedTransaction
    /\ fs st' = fs st.
Proof.
  intros Hconn Hfaults Hrel.
  unfold get_table_info, bind, cursor, execute, ret, respond, accept, fetch,
    SqlSem.list_columns, SqlSem.count_rows, SqlSem.undefined_table.
  run_simpl. rewrite Hconn. run_simpl. rewrite Hconn, !Hfaults.
  cbn [after]. run_simpl. rewrite Hrel. cbn [after]. run_simpl.
  eexists. split; [reflexivity|]. run_simpl. auto.
Qed.


(** The first loop of [run_extraction] stops at the first table whose rows
    cannot be counted, with the error of its [COUNT] statement. *)
Lemma collect_info_fails (table_names : list string) :
  forall tables_info st t,
    conn st = Some InTransaction -> faultless (db st) ->
    In t table_names -> srv_relation (db st) t = None ->
    exists counted t' later e st',
      table_names = (counted ++ t' :: later)%list
      /\ (forall t0, In t0 counted -> srv_relation (db st) t0 <> None)
      /\ srv_relation (db st) t' = None
      /\ SqlSem.count_rows t' (db st) = Raise e
      /\ is_Exception e = true
      /\ collect_info table_names tables_info st = (Raise e, st')
      /\ conn st' = Some FailedTransaction
      /\ fs st' = fs st.
Proof.
  induction table_names as [|t0 ts IH]; intros tables_info st t Hconn Hfaults Hin Hnone;
    [destruct Hin|].
  cbn [collect_info]. unfold bind at 1.
  destruct (srv_relation (db st) t0) as [rs|] eqn:Hrel.
  - destruct (get_table_info_ok t0 st rs Hconn Hfaults Hrel)
      as (info & st1 & Hrun & Hconn1 & Hfs1).
    pose proof (steady_get_table_info t0 _ _ _ Hrun) as (Hdb1 & _).
    rewrite Hrun. unfold bind, print. run_simpl.
    destruct Hin as [->|Hin]; [congruence|].
    match goal with
    | |- context [collect_info ts ?acc ?s] =>
        destruct (IH acc s t)
          as (counted & t' & later & e & st' & Hsplit & Hcounted & Hnone' & Hcount
              & He & Hrest & Hconn' & Hfs')
    end; run_simpl; try rewrite Hdb1; auto.
    rewrite Hdb1 in Hcounted, Hnone', Hcount.
    exists (t0 :: counted), t', later, e, st'.
    split; [now rewrite Hsplit|]. split.
    { intros t1 [<-|Ht1]; [congruence|now apply Hcounted]. }
    split; [exact Hnone'|]. split; [exact Hcount|]. split; [exact He|].
    split; [exact Hrest|]. split; [exact Hconn'|]. rewrite Hfs'. exact Hfs1.
  - destruct (get_table_info_undefined t0 st Hconn Hfaults Hrel)
      as (st1 & Hrun & Hconn1 & Hfs1).
    rewrite Hrun.
    exists [], t0, ts,
      (PyError "UndefinedTable" ("relation " ++ t0 ++ " does not exist")), st1.
    split; [reflexivity|]. split; [intros t1 []|]. split; [exact Hrel|].

    split; [unfold SqlSem.count_rows; rewrite Hrel; reflexivity|].
    repeat split; auto.
Qed.

(** The start of a run on a server that accepts the connection: the opening
    lines, [connect] and [create_output_structure]. *)
Lemma run_prologue (now : datetime) (srv : server) (disk : filesystem) :
  srv_refuses srv = None ->
  (forall d, In d (directories (export_root now)) -> Fs.is_file disk d = false) ->
  exists st,
    (print "Starting RuneLiteAI Database Extraction" ;;
     print (repeat_char "-"%char 50) ;;
     connect ;;
     create_output_structure now) (init srv disk) = (Ok tt, st)
    /\ db st = srv
    /\ conn st = Some InTransaction
    /\ output_dir st = export_root now
    /\ files (fs st) = files disk
    /\ (forall d, Fs.is_dir (fs st) d = true
                  <-> Fs.is_dir disk d = true \/ In d (directories (export_root now))).
Proof.
  intros Haccepts Hfree.
  unfold bind at 1 2 3. unfold print at 1 2, connect, try_except, bind at 1, init.
  run_simpl. rewrite Haccepts. unfold print at 1. run_simpl.
  unfold create_output_structure, bind at 1 2. unfold get_output_dir. run_simpl.
  match goal with
  | |- context [with_output_dir (export_root now) ?s] =>
      destruct (makedirs_each (directories (export_root now))
                  (fun x => In x (directories (export_root now)))
                  (chain_directories now)
                  (with_output_dir (export_root now) s))
        as (st1 & Hrun & Hdb & Hconn & Hdir & _ & _ & Hfiles & Hkeep & Hnew & Honly)
  end.
  { intros x Hx. apply (Hfree x Hx). }
  unfold bind. rewrite Hrun. unfold print. run_simpl.
  eexists. split; [reflexivity|]. run_simpl. run_simpl.
  split; [exact Hdb|]. split; [exact Hconn|]. split; [exact Hdir|].
  split; [exact Hfiles|].
  intros d. split.
  - intros Hd. exact (Honly d Hd).
  - intros [Hd|Hd]; [now apply Hkeep|now apply Hnew].
Qed.

(** The run as its prologue followed by the rest. *)
Lemma run_extraction_split (now_start now_summary : datetime) (st : state) :
  run_extraction now_start now_summary st
  = bind (print "Starting RuneLiteAI Database Extraction" ;;
          print (repeat_char "-"%char 50) ;;
          connect ;;
          create_output_structure now_start)
      (fun _ =>
         table_names <- get_all_tables ;;
         tables_info <- collect_info table_names empty ;;
         print (nl ++ repeat_char "="%char 50) ;;
         print "Exporting Data..." ;;
         print (repeat_char "="%char 50) ;;
         export_tables table_names ;;
         generate_summary_report now_summary tables_info ;;
         export_sample_queries ;;
         close ;;
         print (nl ++ repeat_char "="%char 50) ;;
         print "[SUCCESS] Database extraction completed!" ;;
         root <- get_output_dir ;;
         print ("[INFO] Results saved to: " ++ root) ;;
         print (repeat_char "="%char 50)) st.
Proof.
  unfold run_extraction, bind.
  destruct (print "Starting RuneLiteAI Database Extraction" st) as [[u1|e1] s1];
    [|reflexivity].
  destruct (print (repeat_char "-"%char 50) s1) as [[u2|e2] s2]; [|reflexivity].
  destruct (connect s2) as [[u3|e3] s3]; [|reflexivity].
  destruct (create_output_structure now_start s3) as [[u4|e4] s4]; reflexivity.
Qed.

(** X12. A table whose rows cannot be counted stops the whole run: on a
    server that accepts the connection and answers the schema queries, when
    one of the listed table names does not denote a relation as the
    interpolated text of [SELECT COUNT( * ) FROM ...], the first loop of
    [run_extraction] gets through the tables listed before the first such
    name and the run ends with the error the server gives for the count of
    that first table, an exception of class [Exception] raised in
    [get_table_info] before any export: no file has been written and the
    connection is left open with its transaction aborted. *)
Theorem uncountable_table_aborts_run (now_start now_summary : datetime)
    (srv : server) (disk : filesystem) (t : string) :
  srv_refuses srv = None ->
  faultless srv ->
  (forall d, In d (directories (export_root now_start)) -> Fs.is_file disk d = false) ->
  In t (listed_tables srv) ->
  srv_relation srv t = None ->
  exists counted first later e st',
    listed_tables srv = (counted ++ first :: later)%list
    /\ (forall t0, In t0 counted -> srv_relation srv t0 <> None)
    /\ srv_relation srv first = None
    /\ SqlSem.count_rows first srv = Raise e
    /\ is_Exception e = true
    /\ run_extraction now_start now_summary (init srv disk) = (Raise e, st')
    /\ files (fs st') = files disk
    /\ conn st' = Some FailedTransaction.
Proof.
  intros Haccepts Hfaults Hfree Hin Hnone.
  rewrite run_extraction_split.
  destruct (run_prologue now_start srv disk Haccepts Hfree)
    as (st0 & Hpro & Hdb0 & Hconn0 & _ & Hfiles0 & _).
  unfold bind at 1. rewrite Hpro.
  destruct (get_all_tables_ok st0 Hconn0) as (st1 & Hlist & Hconn1 & Hfs1);
    [now rewrite Hdb0|].
  pose proof (steady_get_all_tables _ _ _ Hlist) as (Hdb1 & _).
  unfold bind at 1. rewrite Hlist.
  destruct (collect_info_fails (listed_tables (db st0)) empty st1 t)
    as (counted & first & later & e & st' & Hsplit & Hcounted & Hnone' & Hcount & He
        & Hcollect & Hconn' & Hfs'); trivial.
  - now rewrite Hdb1, Hdb0.
  - now rewrite Hdb0.
  - now rewrite Hdb1, Hdb0.
  - unfold bind at 1. rewrite Hcollect.
    rewrite Hdb0 in Hsplit. rewrite Hdb1, Hdb0 in Hcounted, Hnone', Hcount.
    exists counted, first, later, e, st'.
    repeat (split; [assumption|]). split; [reflexivity|].
    split; [now rewrite Hfs', Hfs1|exact Hconn'].
Qed.

(** The server lists [PlayerStats] before [sessions], and the text
    [PlayerStats] denotes no relation: the run ends at the first table,
    with nothing counted and nothing written. *)
Lemma uncountable_table_aborts_run_witness :
  srv_refuses mixed_case = None
  /\ faultless mixed_case
  /\ listed_tables mixed_case = ["PlayerStats"; "sessions"]
  /\ srv_relation mixed_case "PlayerStats" = None
  /\ exists e st',
       SqlSem.count_rows "PlayerStats" mixed_case = Raise e
       /\ run_extraction Demo.t_start Demo.t_summary (init mixed_case Fs.empty)
          = (Raise e, st')
       /\ files (fs st') = []
       /\ conn st' = Some FailedTransaction.
Proof.
  assert (faultless mixed_case) as Hfaults by (intros stmt; reflexivity).
  assert (In "PlayerStats" (listed_tables mixed_case)) as Hin by (left; reflexivity).
  split; [reflexivity|]. split; [exact Hfaults|]. split; [reflexivity|].
  split; [reflexivity|].
  destruct (uncountable_table_aborts_run Demo.t_start Demo.t_summary mixed_case Fs.empty
              "PlayerStats" eq_refl Hfaults (fun d _ => eq_refl) Hin eq_refl)
    as (counted & first & later & e & st' & Hsplit & Hcounted & _ & Hcount & _ & Hrun
        & Hfiles & Hconn).
  assert (first = "PlayerStats") as ->.
  { destruct counted as [|t0 counted].
    - change (listed_tables mixed_case) with ["PlayerStats"; "sessions"] in Hsplit.
      now inversion Hsplit.
    - exfalso. apply (Hcounted t0); [now left|].
      change (listed_tables mixed_case) with ["PlayerStats"; "sessions"] in Hsplit.
      inversion Hsplit; subst. reflexivity. }
  exists e, st'. split; [exact Hcount|]. split; [exact Hrun|].
  split; [exact Hfiles|exact Hconn].
Defined.


(** ** A run that succeeds *)

Lemma is_dir_dirs (a b : filesystem) (p : string) :
  dirs a = dirs b -> Fs.is_dir a p = Fs.is_dir b p.
Proof. unfold Fs.is_dir. now intros ->. Qed.











(** ** An export that fails *)

Lemma export_table_to_csv_aborted (t : string) (st : state) :
  conn st = Some FailedTransaction ->
  exists st',
    export_table_to_csv t st = (Ok false, st')
    /\ db st' = db st /\ conn st' = Some FailedTransaction
    /\ output_dir st' = output_dir st /\ fs st' = fs st
    /\ console st'
       = (console st
          ++ [("[WARN] Failed to export " ++ t ++ " to CSV: " ++ exn_text aborted)%string])%list.
Proof.
  intros Hc.
  unfold export_table_to_csv, try_except, bind, cursor, execute_only, print, ret.
  repeat (progress (run_simpl; rewrite ?Hc)). cbn [accept after]. run_simpl.
  eexists. split; [reflexivity|]. run_simpl. rewrite ?Hc. repeat split.
Qed.

Lemma export_table_to_json_aborted (t : string) (limit : Z) (st : state) :
  conn st = Some FailedTransaction ->
  exists st',
    export_table_to_json t limit st = (Ok false, st')
    /\ db st' = db st /\ conn st' = Some FailedTransaction
    /\ output_dir st' = output_dir st /\ fs st' = fs st
    /\ console st'
       = (console st
          ++ [("[WARN] Failed to export " ++ t ++ " to JSON: " ++ exn_text aborted)%string])%list.
Proof.
  intros Hc. unfold export_table_to_json, try_except, bind, cursor, execute, print, ret.
  repeat (progress (run_simpl; rewrite ?Hc)). cbn [respond accept after]. run_simpl.
  eexists. split; [reflexivity|]. run_simpl. rewrite ?Hc. repeat split.
Qed.

(** The export loop in an aborted transaction writes nothing. *)
Lemma export_tables_aborted (table_names : list string) :
  forall st,
    conn st = Some FailedTransaction ->
    exists st',
      export_tables table_names st = (Ok tt, st')
      /\ db st' = db st /\ conn st' = Some FailedTransaction
      /\ output_dir st' = output_dir st /\ fs st' = fs st
      /\ console st' = (console st ++ aborted_reports table_names)%list.
Proof.
  unfold export_tables.
  induction table_names as [|t ts IH]; intros st Hc.
  - exists st. cbn [for_each aborted_reports flat_map]. unfold ret.
    rewrite app_nil_r. repeat split; trivial.
  - cbn [for_each]. unfold bind at 1 2 3 4. unfold print at 1, ret at 1. run_simpl.
    set (st0 := with_console _ st).
    destruct (export_table_to_csv_aborted t st0 Hc)
      as (st1 & Hcsv & Hdb1 & Hc1 & Hdir1 & Hfs1 & Hcons1).
    rewrite Hcsv.
    destruct (export_table_to_json_aborted t default_limit st1 Hc1)
      as (st2 & Hjson & Hdb2 & Hc2 & Hdir2 & Hfs2 & Hcons2).
    rewrite Hjson.
    destruct (IH st2 Hc2) as (st' & Hrun & Hdb & Hc' & Hdir & Hfs & Hcons).
    rewrite Hrun. exists st'. split; [reflexivity|].
    subst st0. run_simpl.
    split; [congruence|]. split; [exact Hc'|]. split; [congruence|].
    split; [congruence|].
    rewrite Hcons, Hcons2, Hcons1. cbn [aborted_reports flat_map].
    rewrite <- !app_assoc. reflexivity.
Qed.

Lemma export_table_to_csv_fails (t : string) (st : state) (e : exn) :
  conn st = Some InTransaction ->
  csv_query t st = Raise e ->
  is_Exception e = true ->
  exists st',
    export_table_to_csv t st = (Ok false, st')
    /\ db st' = db st /\ conn st' = Some FailedTransaction
    /\ output_dir st' = output_dir st /\ fs st' = fs st
    /\ console st'
       = (console st
          ++ [("[WARN] Failed to export " ++ t ++ " to CSV: " ++ exn_text e)%string])%list.
Proof.
  intros Hc Hq He. unfold csv_query, cursor, csv_statement in Hq.
  rewrite Hc in Hq. cbn [fst] in Hq.
  unfold export_table_to_csv, try_except, bind, cursor, execute_only, print, ret.
  repeat (progress (run_simpl; rewrite ?Hc)). rewrite Hq. cbn [after]. rewrite ?He.

  run_simpl. rewrite ?He.
  eexists. split; [reflexivity|]. run_simpl. rewrite ?Hc. repeat split.
Qed.

(** X14. The export of one table that fails at its query empties the rest
    of the export loop.  The extractor works in one transaction and never
    rolls back: when the [SELECT] of the CSV export of a table raises an
    exception of class [Exception], the connection is left in the aborted
    transaction, the JSON export of that table and both exports of every
    later table are refused, and the loop ends normally without having
    written any file, each refusal reported by a warning. *)
Theorem failed_export_blocks_the_rest (t : string) (rest : list string) (st : state)
    (e : exn) :
  conn st = Some InTransaction ->
  csv_query t st = Raise e ->
  is_Exception e = true ->
  exists st',
    export_tables (t :: rest) st = (Ok tt, st')
    /\ fs st' = fs st
    /\ conn st' = Some FailedTransaction
    /\ console st'
       = (console st
          ++ [(nl ++ "Processing table: " ++ t)%string;
              ("[WARN] Failed to export " ++ t ++ " to CSV: " ++ exn_text e)%string;
              ("[WARN] Failed to export " ++ t ++ " to JSON: " ++ exn_text aborted)%string]
          ++ aborted_reports rest)%list.
Proof.
  intros Hc Hq He.
  unfold export_tables. cbn [for_each]. unfold bind at 1 2 3 4.
  unfold print at 1, ret at 1. run_simpl.
  set (st0 := with_console _ st).
  assert (csv_query t st0 = Raise e) as Hq0.
  { unfold csv_query, cursor in *. subst st0. run_simpl. rewrite Hc in *. exact Hq. }
  destruct (export_table_to_csv_fails t st0 e Hc Hq0 He)
    as (st1 & Hcsv & Hdb1 & Hc1 & Hdir1 & Hfs1 & Hcons1).
  rewrite Hcsv.
  destruct (export_table_to_json_aborted t default_limit st1 Hc1)
    as (st2 & Hjson & Hdb2 & Hc2 & Hdir2 & Hfs2 & Hcons2).
  rewrite Hjson.
  destruct (export_tables_aborted rest st2 Hc2)
    as (st' & Hrun & _ & Hc' & _ & Hfs & Hcons).
  unfold export_tables in Hrun. rewrite Hrun.
  exists st'. split; [reflexivity|]. subst st0. run_simpl.
  split; [congruence|]. split; [exact Hc'|].
  rewrite Hcons, Hcons2, Hcons1. rewrite <- !app_assoc. reflexivity.
Qed.

Lemma failed_export_blocks_the_rest_witness :
  conn Demo.ready = Some InTransaction
  /\ csv_query "player_location" Demo.ready
     = Raise (PyError "UndefinedTable" "relation player_location does not exist")
  /\ exists st',
       export_tables ["player_location"; "sessions"; "game_ticks"] Demo.ready
       = (Ok tt, st')
       /\ fs st' = fs Demo.ready
       /\ conn st' = Some FailedTransaction.
Proof.
  assert (csv_query "player_location" Demo.ready
          = Raise (PyError "UndefinedTable" "relation player_location does not exist"))
    as Hq by reflexivity.
  split; [reflexivity|]. split; [exact Hq|].
  destruct (failed_export_blocks_the_rest "player_location" ["sessions"; "game_ticks"]
              Demo.ready _ eq_refl Hq eq_refl) as (st' & Hrun & Hfs & Hc & _).
  exists st'. split; [exact Hrun|]. split; [exact Hfs|exact Hc].
Defined.

(** ** What a run leaves on disk *)

Lemma steady_lasting {A} (m : M A) : steady m -> lasting m.
Proof.
  intros Hm st r st' Hrun. destruct (Hm _ _ _ Hrun) as (_ & _ & Hdirs & Hfiles & _).
  now split.
Qed.

Lemma lasting_bind {A B} (m : M A) (k : A -> M B) :
  lasting m -> (forall a, lasting (k a)) -> lasting (bind m k).
Proof.
  intros Hm Hk st r st'. unfold bind.
  destruct (m st) as [[a|e] st1] eqn:Hrun; intros H.
  - destruct (Hm _ _ _ Hrun) as [Hd1 Hf1]. destruct (Hk _ _ _ _ H) as [Hd2 Hf2].
    split; [congruence|auto].
  - inversion H; subst. eapply Hm; eauto.
Qed.

Lemma lasting_close : lasting close.
Proof.
  intros st r st'. unfold close. destruct (conn st); intros H; inversion H; subst;
    run_simpl; now split.
Qed.

Lemma makedirs_each_grows (ds : list string) :
  forall st r st',
    for_each ds makedirs st = (r, st') ->
    files (fs st') = files (fs st)
    /\ (forall d, Fs.is_dir (fs st) d = true -> Fs.is_dir (fs st') d = true)
    /\ (forall d, Fs.is_dir (fs st') d = true ->
                  Fs.is_dir (fs st) d = true
                  \/ exists d0, In d0 ds /\ In d (Fs.chain EmptyString d0)).
Proof.
  induction ds as [|d0 ds IH]; intros st r st' Hrun.
  - inversion Hrun; subst. auto.
  - cbn [for_each] in Hrun. unfold bind, makedirs at 1 in Hrun.
    destruct (Fs.makedirs d0 (fs st)) as [made|e] eqn:Hmade.
    + destruct (makedirs_ok _ _ _ Hmade) as (Hf & Hkeep & _ & Honly).
      destruct (IH _ _ _ Hrun) as (Hf' & Hkeep' & Honly'). run_simpl.
      split; [congruence|]. split; [auto|].
      intros d Hd. destruct (Honly' d Hd) as [Hold|(d1 & Hd1 & Hin)].
      * destruct (Honly d Hold) as [Hdisk|Hin]; [now left|].
        right. exists d0. split; [now left|exact Hin].
      * right. exists d1. split; [now right|exact Hin].
    + inversion Hrun; subst. auto.
Qed.

Lemma prologue_grows (now : datetime) (srv : server) (disk : filesystem) :
  forall r st,
    (print "Starting RuneLiteAI Database Extraction" ;;
     print (repeat_char "-"%char 50) ;;
     connect ;;
     create_output_structure now) (init srv disk) = (r, st) ->
    (forall p, Fs.is_file disk p = true -> Fs.is_file (fs st) p = true)
    /\ (forall d, Fs.is_dir disk d = true -> Fs.is_dir (fs st) d = true)
    /\ (forall d, Fs.is_dir (fs st) d = true ->
                  Fs.is_dir disk d = true \/ In d (directories (export_root now))).
Proof.
  intros r st.
  unfold bind at 1 2 3. unfold print at 1 2, connect, try_except, bind at 1, init.
  run_simpl. destruct (srv_refuses srv) as [e|].
  - destruct (is_Exception e); unfold bind, print, raise; run_simpl;
      intros H; inversion H; subst; run_simpl; auto.
  - unfold print at 1. run_simpl.
    unfold create_output_structure, bind at 1 2. unfold get_output_dir. run_simpl.
    match goal with
    | |- context [with_output_dir (export_root now) ?s] =>
        destruct (for_each (directories (export_root now)) makedirs
                    (with_output_dir (export_root now) s)) as [[u|e] st1] eqn:Hmake;
        destruct (makedirs_each_grows _ _ _ _ Hmake) as (Hf & Hkeep & Honly)
    end; run_simpl; unfold bind, print; rewrite Hmake; intros H; inversion H; subst;
      run_simpl.
    all: split; [intros p; unfold Fs.is_file; now rewrite Hf|].
    all: split; [exact Hkeep|].
    all: intros d Hd; destruct (Honly d Hd) as [Hold|(d0 & Hd0 & Hin)];
      [now left|right; exact (chain_directories now d0 d Hd0 Hin)].
Qed.

(** X15. Whatever happens in a run, it only adds to the disk: every file
    and every directory that existed before exists afterwards, the only
    directories it can create are the export directory and its four
    subdirectories, and every file outside the export directory has the
    content it had.  This holds for runs that end with an exception as
    well as for those that succeed. *)
Theorem run_only_adds (now_start now_summary : datetime) (srv : server)
    (disk : filesystem) :
  let after := fs (snd (main now_start now_summary srv disk)) in
  (forall p, Fs.is_file disk p = true -> Fs.is_file after p = true)
  /\ (forall d, Fs.is_dir disk d = true -> Fs.is_dir after d = true)
  /\ (forall d, Fs.is_dir after d = true ->
                Fs.is_dir disk d = true \/ In d (directories (export_root now_start)))
  /\ (forall p, under (export_root now_start) p = false ->
                Fs.read after p = Fs.read disk p).
Proof.
  cbv zeta.
  assert (forall r st,
             run_extraction now_start now_summary (init srv disk) = (r, st) ->
             (forall p, Fs.is_file disk p = true -> Fs.is_file (fs st) p = true)
             /\ (forall d, Fs.is_dir disk d = true -> Fs.is_dir (fs st) d = true)
             /\ (forall d, Fs.is_dir (fs st) d = true ->
                           Fs.is_dir disk d = true
                           \/ In d (directories (export_root now_start)))) as Hrun.
  { intros r st. rewrite run_extraction_split. unfold bind at 1.
    match goal with
    | |- context [match ?pro with _ => _ end] =>
        destruct pro as [[u|e] st0] eqn:Hpro
    end.
    - destruct (prologue_grows _ _ _ _ _ Hpro) as (Hf0 & Hkeep0 & Honly0).
      intros Hrest.
      assert (dirs (fs st) = dirs (fs st0)
              /\ forall p, Fs.is_file (fs st0) p = true -> Fs.is_file (fs st) p = true)
        as [Hdirs Hfiles].
      { revert Hrest. generalize st0 r st.
        change (lasting
                  (table_names <- get_all_tables ;;
                   tables_info <- collect_info table_names empty ;;
                   print (nl ++ repeat_char "="%char 50) ;;
                   print "Exporting Data..." ;;
                   print (repeat_char "="%char 50) ;;
                   export_tables table_names ;;
                   generate_summary_report now_summary tables_info ;;
                   export_sample_queries ;;
                   close ;;
                   print (nl ++ repeat_char "="%char 50) ;;
                   print "[SUCCESS] Database extraction completed!" ;;
                   root <- get_output_dir ;;
                   print ("[INFO] Results saved to: " ++ root) ;;
                   print (repeat_char "="%char 50))).
        apply lasting_bind; [apply steady_lasting, steady_get_all_tables|intros names].
        apply lasting_bind; [apply steady_lasting, steady_collect_info|intros infos].
        do 3 (apply lasting_bind; [apply steady_lasting, steady_print|intros]).
        apply lasting_bind; [apply steady_lasting, steady_export_tables|intros].
        apply lasting_bind;
          [apply steady_lasting, steady_generate_summary_report|intros].
        apply lasting_bind; [apply steady_lasting, steady_export_sample_queries|intros].
        apply lasting_bind; [apply lasting_close|intros].
        do 2 (apply lasting_bind; [apply steady_lasting, steady_print|intros]).
        apply lasting_bind; [apply steady_lasting, steady_get_output_dir|intros].
        apply lasting_bind; [apply steady_lasting, steady_print|intros].
        apply steady_lasting, steady_print. }
      split; [auto|]. split.
      + intros d Hd. erewrite is_dir_dirs; [exact (Hkeep0 d Hd)|exact Hdirs].
      + intros d Hd. apply Honly0. erewrite is_dir_dirs; [exact Hd|now symmetry].
    - intros H. inversion H; subst. exact (prologue_grows _ _ _ _ _ Hpro). }
  assert (forall line s, fs (snd (print line s)) = fs s) as Hprint by reflexivity.
  unfold main.
  destruct (run_extraction now_start now_summary (init srv disk)) as [r st] eqn:Hrun'.
  pose proof (run_extraction_confined _ _ _ _ _ Hrun') as Hread.
  destruct (Hrun r st eq_refl) as (Hf & Hkeep & Honly).
  destruct r as [u|[cls msg| |code]]; cbn [snd]; rewrite ?Hprint; auto.
Qed.

(** ** The list of tables, in general *)

(** X16. On a connection that works, [get_all_tables] returns, in ascending
    order, exactly the names of the tables of schema [public] that are not
    made of the two letters [pg] followed by at least one more character,
    and reports their number; it changes nothing on disk.  The underscore
    of the pattern ['pg_%'] stands for any character, so the names it
    leaves out are not only those that begin with [pg_]. *)
Theorem get_all_tables_lists (st : state) :
  conn st = Some InTransaction ->
  srv_fault (db st) (Sql sql_list_tables) = None ->
  exists names st',
    get_all_tables st = (Ok names, st')
    /\ Sorted le_true names
    /\ (forall name,
          In name names
          <-> In ("public", name) (srv_tables (db st))
              /\ ~ exists c rest, name = String "p" (String "g" (String c rest)))
    /\ fs st' = fs st
    /\ console st'
       = (console st
          ++ [("[INFO] Found " ++ str_nat (length names) ++ " tables: "
               ++ join ", " names)%string])%list.
Proof.
  intros Hconn Hfault.
  destruct (get_all_tables_returns st Hconn Hfault)
    as (names & st' & Hrun & Hnames & Hsorted & Hin).
  exists names, st'. split; [exact Hrun|]. split; [exact Hsorted|]. split.
  - intros name. rewrite Hin. rewrite <- like_pg_pattern.
    destruct (SqlSem.like "pg_%" name); split; intros [H1 H2]; split; auto;
      try discriminate; try congruence.
  - revert Hrun. unfold get_all_tables, bind, cursor, execute, print, ret, respond, accept, fetch.
    run_simpl. rewrite Hconn. run_simpl. rewrite Hconn, Hfault.
    cbn [SqlSem.list_tables]. run_simpl. intros H. inversion H; subst. run_simpl.
    split; reflexivity.
Qed.

Lemma get_all_tables_lists_witness :
  let st := with_conn (Some InTransaction) (init benchmarked Fs.empty) in
  conn st = Some InTransaction
  /\ srv_fault (db st) (Sql sql_list_tables) = None
  /\ exists names st',
       get_all_tables st = (Ok names, st')
       /\ (In "sessions" names /\ ~ In "pgbench_history" names).
Proof.
  cbv zeta. split; [reflexivity|]. split; [reflexivity|].
  destruct (get_all_tables_lists
              (with_conn (Some InTransaction) (init benchmarked Fs.empty))
              eq_refl eq_refl) as (names & st' & Hrun & _ & Hin & _).
  exists names, st'. split; [exact Hrun|]. split.
  - apply Hin. split; [now left|]. intros (c & rest & H). discriminate H.
  - intros H. apply Hin in H as [_ H]. apply H. now exists "b"%char, "ench_history".
Defined.

(** ** The readable summary *)

Lemma for_each_ext {A} (f g : A -> M unit) (xs : list A) :
  (forall x, f x = g x) -> for_each xs f = for_each xs g.
Proof.
  intros Hfg. induction xs as [|x xs IH]; [reflexivity|].
  cbn [for_each]. now rewrite Hfg, IH.
Qed.

Lemma table_block_run (file : string) (entry : string * table_summary) (st : state)
    (cur : string) :
  Fs.read (fs st) file = Some (Text cur) ->
  exists st',
    table_block file entry st = (Ok tt, st')
    /\ Fs.read (fs st') file = Some (Text (cur ++ block_text entry)).
Proof.
  intros Hread. destruct entry as [table_name info]. unfold table_block.
  rewrite (for_each_ext _ (fun col => f_write file (column_line col)))
    by (intros [[name type] nullable]; reflexivity).
  unfold bind, f_write at 1 2 3. run_simpl.
  rewrite for_each_f_write. unfold f_write. run_simpl.
  eexists. split; [reflexivity|]. run_simpl.
  eapply eq_trans; [read_appends Hread|].
  unfold block_text. cbn [fst snd]. repeat rewrite append_assoc. reflexivity.
Qed.

Lemma table_blocks_run (file : string) (entries : list (string * table_summary)) :
  forall st cur,
    Fs.read (fs st) file = Some (Text cur) ->
    exists st',
      for_each entries (table_block file) st = (Ok tt, st')
      /\ Fs.read (fs st') file
         = Some (Text (cur ++ String.concat EmptyString (map block_text entries))).
Proof.
  induction entries as [|entry entries IH]; intros st cur Hread.
  - exists st. cbn [for_each map String.concat]. unfold ret.
    now rewrite append_nil_r.
  - cbn [for_each]. unfold bind.
    destruct (table_block_run file entry st cur Hread) as (st1 & Hrun1 & Hread1).
    rewrite Hrun1. destruct (IH st1 _ Hread1) as (st' & Hrun & Hread').
    exists st'. split; [exact Hrun|]. rewrite Hread'. cbn [map].
    now rewrite concat_empty_cons, append_assoc.
Qed.

(** X17. When [generate_summary_report] ends normally, the file
    [database_summary.txt] holds the title, the export time, the database,
    the two totals of the Summary Document, and then one block per table in
    the order of the document: the table's name, its row count with
    thousands separators, its number of columns and one line per column
    with its name and type, closed by an empty line.  The readable report
    and [database_summary.json] are written from the same summary. *)
Theorem text_report_contents (now : datetime) (tables_info : dict table_info)
    (st st' : state) :
  generate_summary_report now tables_info st = (Ok tt, st') ->
  Fs.read (fs st') (output_dir st ++ "/summary/database_summary.txt")
  = Some (Text (report_text (build_summary now tables_info)))
  /\ Fs.read (fs st') (summary_json_path (output_dir st))
     = Some (Json (summary_json (build_summary now tables_info))).
Proof.
  intros Hrun. split; [|exact (generate_summary_report_writes _ _ _ _ Hrun)].
  revert Hrun. unfold generate_summary_report. cbv zeta.
  unfold bind at 1 2 3. unfold get_output_dir, open_w at 1, json_dump.
  destruct (Fs.open_w (output_dir st ++ "/summary/database_summary.json") (fs st))
    as [opened|e] eqn:Hopen; [|discriminate].
  run_simpl. unfold bind at 1, open_w. run_simpl.
  match goal with
  | |- context [Fs.open_w ?p ?d] =>
      destruct (Fs.open_w p d) as [opened'|e] eqn:Hopen'; [|discriminate];
      pose proof (open_w_reads_empty _ _ _ Hopen') as Hempty
  end.
  run_simpl. unfold bind at 1 2 3 4 5 6. unfold f_write. run_simpl. unfold bind at 1.
  match goal with
  | |- context [for_each ?entries (table_block ?file) ?s] =>
      destruct (table_blocks_run file entries s
                  ("RuneLiteAI Database Export Summary" ++ nl
                   ++ repeat_char "="%char 50 ++ nl ++ nl
                   ++ "Export Time: " ++ export_timestamp (build_summary now tables_info)
                   ++ nl
                   ++ "Database: " ++ database_info (build_summary now tables_info) ++ nl
                   ++ "Total Tables: "
                   ++ str_nat (total_tables (build_summary now tables_info)) ++ nl
                   ++ "Total Rows: "
                   ++ fmt_thousands (total_rows (build_summary now tables_info))
                   ++ nl ++ nl))
        as (st1 & Hblocks & Hread)
  end.
  { run_simpl. eapply eq_trans; [read_appends Hempty|].
    repeat rewrite append_assoc. reflexivity. }
  rewrite Hblocks. unfold print. intros H. inversion H; subst. run_simpl.
  rewrite Hread. unfold report_text. repeat rewrite append_assoc. reflexivity.
Qed.

Lemma text_report_contents_witness :
  let tables_info :=
    set (set empty "game_ticks" (mk_info [] 0))
        "sessions" (mk_info [("session_id", "integer", "NO")] 1234) in
  exists st',
    generate_summary_report Demo.t_summary tables_info Demo.ready = (Ok tt, st')
    /\ Fs.read (fs st') "database_export_20250807_140309/summary/database_summary.txt"
       = Some (Text (report_text (build_summary Demo.t_summary tables_info))).
Proof.
  cbv zeta.
  destruct (generate_summary_report Demo.t_summary
              (set (set empty "game_ticks" (mk_info [] 0))
                 "sessions" (mk_info [("session_id", "integer", "NO")] 1234))
              Demo.ready) as [[[]|e] st'] eqn:Hrun;
    [|vm_compute in Hrun; discriminate Hrun].
  exists st'. split; [reflexivity|].
  exact (proj1 (text_report_contents _ _ _ _ Hrun)).
Defined.

(** ** The records of a JSON export *)

Lemma firstn_succ_nth {A} (l : list A) :
  forall i x, nth_error l i = Some x -> firstn (S i) l = (firstn i l ++ [x])%list.
Proof.
  induction l as [|y l IH]; intros [|i] x H; try discriminate H.
  - inversion H; subst. reflexivity.
  - cbn [nth_error] in H. change (firstn (S (S i)) (y :: l)) with (y :: firstn (S i) l).
    rewrite (IH i x H). reflexivity.
Qed.

Lemma nth_not_in_firstn {A} (l : list A) :
  NoDup l -> forall i x, nth_error l i = Some x -> ~ In x (firstn i l).
Proof.
  induction 1 as [|y l Hnot Hnd IH]; intros [|i] x H; try discriminate H.
  - intros [].
  - cbn [nth_error] in H. cbn [firstn]. intros [->|Hin].
    + apply Hnot. eapply nth_error_In; eauto.
    + exact (IH i x H Hin).
Qed.

Lemma convert_cells_keys (column_names : list string) (row : list pyvalue) :
  NoDup column_names ->
  forall i row_dict result,
    keys row_dict = firstn i column_names ->
    convert_cells column_names i row row_dict = Ok result ->
    keys result = firstn (i + length row) column_names.
Proof.
  intros Hnd. induction row as [|v row IH]; intros i d result Hkeys Hrun.
  - cbn [convert_cells] in Hrun. inversion Hrun; subst.
    cbn [length]. now rewrite Nat.add_0_r.
  - cbn [convert_cells] in Hrun.
    destruct (nth_error column_names i) as [name|] eqn:Hname; [|discriminate Hrun].
    cbn [length]. rewrite Nat.add_succ_r. change (S (i + length row)) with (S i + length row)%nat.
    apply IH in Hrun; [exact Hrun|].
    assert (~ In name (keys d)) as Hfresh.
    { rewrite Hkeys. now apply nth_not_in_firstn. }
    rewrite (firstn_succ_nth _ _ _ Hname), <- Hkeys.
    destruct (has_isoformat v); rewrite (set_appends_fresh _ _ _ Hfresh);
      unfold keys; rewrite map_app; reflexivity.
Qed.

(** X18. Every record of a JSON export has the column names of the result
    as its member names, in the order of the columns: for a row as long as
    the list of column names, the dictionary built by the conversion loop
    has exactly the column names as keys, each once and in column order,
    and so has the object written for it.  (A shorter row gives the first
    names only.)  Column names are distinct, as they are in the result of
    [SELECT *] on one table. *)
Theorem json_record_keys (column_names : list string) (row : list pyvalue)
    (row_dict : dict pyvalue) :
  NoDup column_names ->
  convert_row column_names row = Ok row_dict ->
  keys row_dict = firstn (length row) column_names
  /\ member_names (json_object py_str row_dict) = firstn (length row) column_names
  /\ (length row = length column_names ->
      member_names (json_object py_str row_dict) = column_names).
Proof.
  intros Hnd Hrun. unfold convert_row in Hrun.
  assert (keys row_dict = firstn (length row) column_names) as Hkeys.
  { exact (convert_cells_keys column_names row Hnd 0%nat empty row_dict eq_refl Hrun). }
  assert (member_names (json_object py_str row_dict) = keys row_dict) as Hnames.
  { unfold member_names, json_object, keys. rewrite map_map. reflexivity. }
  split; [exact Hkeys|]. split; [congruence|].
  intros Hlen. rewrite Hnames, Hkeys, Hlen. apply firstn_all.
Qed.

Lemma json_record_keys_witness :
  NoDup (description Demo.sessions)
  /\ exists row_dict,
       convert_row (description Demo.sessions)
         [VInt 1; VStr "Zezima"; VDateTime (mk_datetime 2025 8 1 9 0 0 0)]
       = Ok row_dict
       /\ member_names (json_object py_str row_dict)
          = ["session_id"; "player_name"; "start_time"].
Proof.
  assert (NoDup (description Demo.sessions)) as Hnd.
  { repeat constructor; cbn [In]; intros H; repeat destruct H as [H|H];
      try discriminate H; exact H. }
  split; [exact Hnd|].
  destruct (convert_row (description Demo.sessions)
              [VInt 1; VStr "Zezima"; VDateTime (mk_datetime 2025 8 1 9 0 0 0)])
    as [row_dict|e] eqn:Hrun; [|vm_compute in Hrun; discriminate Hrun].
  exists row_dict. split; [reflexivity|].
  exact (proj2 (proj2 (json_record_keys _ _ _ Hnd Hrun)) eq_refl).
Defined.
